(** * Resume parser: the heuristic text-extraction pipeline

    A shallow embedding of [src/resume_parser.py] (class [ResumeParser])
    together with the few pieces of the Python runtime it relies on:
    the [str] methods it calls, the fragment of the [re] engine that its
    five patterns need, [int()], [set()] and dictionaries.

    Modelling conventions.
    - A Python [str] is a [string] and every [ascii] is one character of
      it.  The alphabet is the range U+0000..U+00FF, with the en dash
      U+2013, which the date-range patterns accept next to the hyphen, in
      the place of the control character U+0096; the character tables
      below are the ones CPython uses on these code points.  String
      literals are read as UTF-8.
    - Python integers are [Z].
    - Dictionaries are [gmap]s with [string] keys, [set(...)] is a [gset].
    - Code that may raise returns a [result]; [try ... except] is a match on
      it.
    - NLTK's [sent_tokenize] is not part of the repository: the extractors
      that call it take the tokenizer as a section variable.  It returns
      the sentences of a text or raises, and the parser has no handler
      around it.
    - The decoding of uploaded files ([src/file_processor.py]) and the
      upload, read and delete handlers ([src/main.py]) follow the parser;
      the file decoders are section variables and the table of resumes is a
      finite map.  The database calls of the upload handler may raise. *)

From Stdlib Require Import ZArith NArith Ascii String List Bool Lia.
From stdpp Require Import base decidable option list gmap strings.

Import ListNotations.
Local Open Scope string_scope.

(** ** The alphabet of the modelled texts

    An [ascii] is one character of a text.  It stands for the code point of
    the same number, with one exception: the slot 150 holds the en dash
    U+2013 (the place it has in Windows-1252) instead of the control
    character U+0096.  The alphabet of the model is therefore U+0000..U+00FF
    without U+0096, together with U+2013.

    String literals are read as UTF-8, so that a literal of this file
    denotes the Python string of the same spelling: one character for an
    en dash, one character for a letter of the Latin-1 supplement.  A
    literal with a character outside the alphabet is refused. *)

Module Utf8.

Definition continuation (n : N) : bool := ((128 <=? n) && (n <=? 191))%N.

Fixpoint decode (fuel : nat) (bytes : list Byte.byte) : option string :=
  match fuel with
  | O => None
  | S fuel =>
      match bytes with
      | [] => Some EmptyString
      | b :: rest =>
          let n := Byte.to_N b in
          if (n <? 128)%N then
            option_map (String (ascii_of_N n)) (decode fuel rest)
          else
            match rest with
            | b1 :: rest1 =>
                let n1 := Byte.to_N b1 in
                if (n =? 194)%N && continuation n1 && negb (n1 =? 150)%N then
                  option_map (String (ascii_of_N n1)) (decode fuel rest1)
                else if (n =? 195)%N && continuation n1 then
                  option_map (String (ascii_of_N (n1 + 64))) (decode fuel rest1)
                else
                  match rest1 with
                  | b2 :: rest2 =>
                      if (n =? 226)%N && (n1 =? 128)%N && (Byte.to_N b2 =? 147)%N
                      then option_map (String (ascii_of_N 150)) (decode fuel rest2)
                      else None
                  | [] => None
                  end
            | [] => None
            end
      end
  end.

Definition of_utf8 (bytes : list Byte.byte) : option string :=
  decode (S (length bytes)) bytes.

Definition byte_of (n : N) : Byte.byte := default Byte.x00 (Byte.of_N n).

Fixpoint to_utf8 (s : string) : list Byte.byte :=
  match s with
  | EmptyString => []
  | String c s' =>
      let n := N_of_ascii c in
      if (n <? 128)%N then byte_of n :: to_utf8 s'
      else if (n =? 150)%N
      then byte_of 226 :: byte_of 128 :: byte_of 147 :: to_utf8 s'
      else if (n <? 192)%N then byte_of 194 :: byte_of n :: to_utf8 s'
      else byte_of 195 :: byte_of (n - 64) :: to_utf8 s'
  end.

End Utf8.

Declare Scope text_scope.
Delimit Scope text_scope with text.
Bind Scope text_scope with string.
String Notation string Utf8.of_utf8 Utf8.to_utf8 : text_scope.
Open Scope text_scope.

(** ** Exceptions *)

Inductive exn : Type :=
| ValueError
| IndexError
| LookupError.

Inductive result (A : Type) : Type :=
| Ok (a : A)
| Raise (e : exn).

Arguments Ok {A} a.
Arguments Raise {A} e.

Definition bind {A B : Type} (m : result A) (f : A -> result B) : result B :=
  match m with
  | Ok a => f a
  | Raise e => Raise e
  end.

Notation "'let*' x ':=' m 'in' k" := (bind m (fun x => k))
  (at level 10, x name, m at level 100, k at level 200).

(** ** The Python string runtime *)

Module PyStr.

(** The code point of a character. *)
Definition code (c : ascii) : N :=
  let n := N_of_ascii c in
  if (n =? 150)%N then 8211%N else n.

Definition in_range (lo hi : N) (c : ascii) : bool :=
  ((lo <=? code c) && (code c <=? hi))%N.

(** [Py_UNICODE_ISSPACE]: used by [str.strip], [str.split] and [\s]. *)
Definition isspace (c : ascii) : bool :=
  in_range 9 13 c || in_range 28 32 c
  || (code c =? 133)%N || (code c =? 160)%N.

(** [Py_UNICODE_ISDECIMAL]: used by [\d] and accepted by [int()]. *)
Definition isdecimal (c : ascii) : bool := in_range 48 57 c.

(** [str.isdigit] on one character: the decimal digits and the
    superscripts U+00B2, U+00B3, U+00B9. *)
Definition isdigit (c : ascii) : bool :=
  isdecimal c || (code c =? 178)%N || (code c =? 179)%N || (code c =? 185)%N.

Definition isupper_ascii (c : ascii) : bool := in_range 65 90 c.
Definition islower_ascii (c : ascii) : bool := in_range 97 122 c.

(** [str.isalpha] on one character. *)
Definition isalpha (c : ascii) : bool :=
  isupper_ascii c || islower_ascii c
  || (code c =? 170)%N || (code c =? 181)%N || (code c =? 186)%N
  || in_range 192 214 c || in_range 216 246 c || in_range 248 255 c.

(** [Py_UNICODE_ISALNUM]: alphabetic, decimal, digit or numeric
    (the vulgar fractions U+00BC..U+00BE are numeric). *)
Definition isalnum (c : ascii) : bool :=
  isalpha c || isdigit c || in_range 188 190 c.

(** The [\w] class of [re] on [str] patterns. *)
Definition isword (c : ascii) : bool :=
  isalnum c || (code c =? 95)%N.

(** Lower-casing of one code point. *)
Definition tolower (c : ascii) : ascii :=
  if isupper_ascii c || in_range 192 214 c || in_range 216 222 c
  then ascii_of_N (code c + 32)
  else c.

(** [str.lower()] *)
Fixpoint lower (s : string) : string :=
  match s with
  | EmptyString => EmptyString
  | String c s' => String (tolower c) (lower s')
  end.

(** [all(p(c) for c in s)] and [any(p(c) for c in s)] *)
Fixpoint all_chars (p : ascii -> bool) (s : string) : bool :=
  match s with
  | EmptyString => true
  | String c s' => p c && all_chars p s'
  end.

Fixpoint any_char (p : ascii -> bool) (s : string) : bool :=
  match s with
  | EmptyString => false
  | String c s' => p c || any_char p s'
  end.

(** [s.isdigit()]: every character is a digit and there is at least one. *)
Definition str_isdigit (s : string) : bool :=
  match s with
  | EmptyString => false
  | _ => all_chars isdigit s
  end.

(** [c in s] for a single character [c] *)
Definition has_char (c : ascii) (s : string) : bool :=
  any_char (Ascii.eqb c) s.

(** [s.startswith(p)] *)
Fixpoint startswith (p s : string) : bool :=
  match p, s with
  | EmptyString, _ => true
  | String a p', String b s' => Ascii.eqb a b && startswith p' s'
  | String _ _, EmptyString => false
  end.

(** [sub in s] *)
Fixpoint contains (sub s : string) : bool :=
  startswith sub s ||
  match s with
  | EmptyString => false
  | String _ s' => contains sub s'
  end.

(** [s.lstrip()], [s.rstrip()], [s.strip()] *)
Fixpoint lstrip (s : string) : string :=
  match s with
  | EmptyString => EmptyString
  | String c s' => if isspace c then lstrip s' else s
  end.

Fixpoint rstrip (s : string) : string :=
  match s with
  | EmptyString => EmptyString
  | String c s' =>
      match rstrip s' with
      | EmptyString => if isspace c then EmptyString else String c EmptyString
      | t => String c t
      end
  end.

Definition strip (s : string) : string := rstrip (lstrip s).

(** [s.split(sep)] for a one-character separator: never empty,
    [''.split(sep) == ['']]. *)
Fixpoint split_on (sep : ascii) (s : string) : list string :=
  match s with
  | EmptyString => [EmptyString]
  | String c s' =>
      if Ascii.eqb c sep then EmptyString :: split_on sep s'
      else match split_on sep s' with
           | [] => [String c EmptyString]
           | w :: ws => String c w :: ws
           end
  end.

(** [s.split()]: the maximal runs of non-whitespace characters. *)
Fixpoint split_ws (s : string) : list string :=
  match s with
  | EmptyString => []
  | String c s' =>
      if isspace c then split_ws s'
      else match s' with
           | EmptyString => [String c EmptyString]
           | String d _ =>
               if isspace d then String c EmptyString :: split_ws s'
               else match split_ws s' with
                    | [] => [String c EmptyString]
                    | w :: ws => String c w :: ws
                    end
           end
  end.

(** The first [n] characters, [s[:n]], and the rest, [s[n:]]. *)
Fixpoint take (n : nat) (s : string) : string :=
  match n, s with
  | S n', String c s' => String c (take n' s')
  | _, _ => EmptyString
  end.

Fixpoint drop (n : nat) (s : string) : string :=
  match n, s with
  | S n', String _ s' => drop n' s'
  | _, _ => s
  end.

(** [int(s)] for a [str] argument in base ten: surrounding whitespace is
    ignored, one sign is allowed, and the digits may be separated by
    single underscores.  Anything else is a [ValueError]. *)
Definition digit_value (c : ascii) : option Z :=
  if isdecimal c then Some (Z.of_N (code c) - 48)%Z else None.

Fixpoint int_digits (s : string) (acc : Z) (after_digit : bool) : option Z :=
  match s with
  | EmptyString => if after_digit then Some acc else None
  | String c s' =>
      if Ascii.eqb c "_" then
        if after_digit then int_digits s' acc false else None
      else
        match digit_value c with
        | Some d => int_digits s' (10 * acc + d)%Z true
        | None => None
        end
  end.

Definition int (s : string) : result Z :=
  let body sign t :=
    match int_digits t 0%Z false with
    | Some n => Ok (sign * n)%Z
    | None => Raise ValueError
    end in
  match strip s with
  | String c t =>
      if Ascii.eqb c "+" then body 1%Z t
      else if Ascii.eqb c "-" then body (-1)%Z t
      else body 1%Z (String c t)
  | EmptyString => Raise ValueError
  end.

(** [l[i]] on a list: [IndexError] when out of range. *)
Definition index {A : Type} (l : list A) (i : nat) : result A :=
  match nth_error l i with
  | Some a => Ok a
  | None => Raise IndexError
  end.

End PyStr.

(** ** The fragment of Python's [re] used by the parser *)

Module Re.

(** Patterns after compilation.  [RepeatOne] is a greedy repetition of a
    single-character item ([c?], [c*], [c+], [c{m,n}]), the only kind of
    unbounded repetition the parser's patterns contain; [Opt] is a greedy
    optional group. *)
Inductive regex : Type :=
| Empty
| Char (cls : ascii -> bool)
| Boundary
| Seq (r1 r2 : regex)
| Alt (r1 r2 : regex)
| Opt (r : regex)
| RepeatOne (cls : ascii -> bool) (lo : nat) (hi : option nat)
| Group (n : nat) (r : regex).

(** Captured groups: number and text. *)
Definition captures : Type := list (nat * string).

(** The matcher stands between the character just before the position, if
    any, and the text from the position on; [\b] asks whether exactly one of
    the two neighbours is a word character. *)
Definition is_word_at (c : option ascii) : bool :=
  match c with
  | Some c => PyStr.isword c
  | None => false
  end.

Definition next_char (s : string) : option ascii :=
  match s with
  | EmptyString => None
  | String c _ => Some c
  end.

Definition dec_bound (hi : option nat) : option nat :=
  match hi with
  | Some h => Some (Nat.pred h)
  | None => None
  end.

Definition bound_reached (hi : option nat) : bool :=
  match hi with
  | Some 0 => true
  | _ => false
  end.

(** Greedy single-character repetition: take one more character while
    the class and the upper bound allow it, and fall back to stopping
    here once the lower bound is met. *)
Fixpoint repeat_one {A : Type} (cls : ascii -> bool) (lo : nat) (hi : option nat)
    (prev : option ascii) (rest : string)
    (k : option ascii -> string -> option A) : option A :=
  let stop := match lo with 0 => k prev rest | S _ => None end in
  match rest with
  | String c rest' =>
      if negb (bound_reached hi) && cls c then
        match repeat_one cls (Nat.pred lo) (dec_bound hi) (Some c) rest' k with
        | Some x => Some x
        | None => stop
        end
      else stop
  | EmptyString => stop
  end.

(** The backtracking matcher, in continuation-passing style: [k] is what
    remains to be matched after [r]. *)
Fixpoint run {A : Type} (r : regex) (prev : option ascii) (rest : string)
    (cs : captures) (k : option ascii -> string -> captures -> option A)
    : option A :=
  match r with
  | Empty => k prev rest cs
  | Char cls =>
      match rest with
      | String c rest' => if cls c then k (Some c) rest' cs else None
      | EmptyString => None
      end
  | Boundary =>
      if xorb (is_word_at prev) (is_word_at (next_char rest))
      then k prev rest cs else None
  | Seq r1 r2 =>
      run r1 prev rest cs (fun prev' rest' cs' => run r2 prev' rest' cs' k)
  | Alt r1 r2 =>
      match run r1 prev rest cs k with
      | Some x => Some x
      | None => run r2 prev rest cs k
      end
  | Opt r1 =>
      match run r1 prev rest cs k with
      | Some x => Some x
      | None => k prev rest cs
      end
  | RepeatOne cls lo hi =>
      repeat_one cls lo hi prev rest (fun prev' rest' => k prev' rest' cs)
  | Group n r1 =>
      run r1 prev rest cs (fun prev' rest' cs' =>
        k prev' rest'
          ((n, PyStr.take (String.length rest - String.length rest') rest) :: cs'))
  end.

(** A match object: the text from the start of the match on, what is left
    after it, the character before the end, and the groups. *)
Record match_obj : Type := MatchObj {
  m_from : string;
  m_rest : string;
  m_last : option ascii;
  m_caps : captures
}.

(** [m.group()] and [m.group(n)]; a group that did not take part is the
    empty string in [findall]. *)
Definition group0 (m : match_obj) : string :=
  PyStr.take (String.length (m_from m) - String.length (m_rest m)) (m_from m).

Fixpoint lookup_group (n : nat) (cs : captures) : option string :=
  match cs with
  | [] => None
  | (i, t) :: cs' => if Nat.eqb i n then Some t else lookup_group n cs'
  end.

Definition group (n : nat) (m : match_obj) : string :=
  match lookup_group n (m_caps m) with
  | Some t => t
  | None => EmptyString
  end.

(** [pattern.match] at one position. *)
Definition match_at (r : regex) (prev : option ascii) (s : string) : option match_obj :=
  run r prev s [] (fun prev' rest' cs' => Some (MatchObj s rest' prev' cs')).

(** [re.search]: the first position, from the left, where the pattern
    matches. *)
Fixpoint search_from (r : regex) (prev : option ascii) (s : string) : option match_obj :=
  match match_at r prev s with
  | Some m => Some m
  | None =>
      match s with
      | EmptyString => None
      | String c s' => search_from r (Some c) s'
      end
  end.

Definition search (r : regex) (s : string) : option match_obj :=
  search_from r None s.

(** [re.finditer]: successive non-overlapping matches, left to right.
    After a match the scan resumes where the match ended.  None of the
    parser's patterns matches the empty string; after an empty match the
    scan simply moves one character on.  [n] bounds the number of scans by
    the number of positions left, see [finditer_from_bound]. *)
Fixpoint finditer_from (n : nat) (r : regex) (prev : option ascii) (s : string)
    : list match_obj :=
  match n with
  | 0 => []
  | S n' =>
      match search_from r prev s with
      | None => []
      | Some m =>
          m ::
          (if (String.length (m_rest m) <? String.length (m_from m))%nat then
             finditer_from n' r (m_last m) (m_rest m)
           else
             match m_rest m with
             | EmptyString => []
             | String c s' => finditer_from n' r (Some c) s'
             end)
      end
  end.

Definition finditer (r : regex) (s : string) : list match_obj :=
  finditer_from (S (String.length s)) r None s.

(** [re.findall] for a pattern without groups: the matched texts. *)
Definition findall (r : regex) (s : string) : list string :=
  map group0 (finditer r s).

(** [re.findall] for a pattern with [n] groups, [n >= 2]: one tuple of
    [n] group texts per match. *)
Definition findall_groups (n : nat) (r : regex) (s : string) : list (list string) :=
  map (fun m => map (fun i => group i m) (seq 1 n)) (finditer r s).

(** Helpers to write patterns. *)
Definition lit (c : ascii) : regex := Char (Ascii.eqb c).

(** A literal word under [re.IGNORECASE]. *)
Fixpoint word_ci (w : string) : regex :=
  match w with
  | EmptyString => Empty
  | String c w' => Seq (Char (fun x => Ascii.eqb (PyStr.tolower x) (PyStr.tolower c))) (word_ci w')
  end.

End Re.

(** ** The parser *)

Import PyStr.

Definition one_of (chars : string) (c : ascii) : bool := has_char c chars.

Definition newline : ascii := ascii_of_N 10.

(** [r1 r2 ... rn] *)
Definition cat (rs : list Re.regex) : Re.regex := fold_right Re.Seq Re.Empty rs.

(** [self.tech_skills] *)
Definition tech_skills : list string :=
  [ "python"; "java"; "javascript"; "react"; "node.js"; "sql"; "mongodb";
    "postgresql"; "mysql"; "html"; "css"; "git"; "docker"; "kubernetes";
    "aws"; "azure"; "machine learning"; "deep learning"; "tensorflow";
    "pytorch"; "scikit-learn"; "pandas"; "numpy"; "fastapi"; "django";
    "flask"; "spring boot"; "microservices"; "rest api"; "graphql" ].

(** [self.education_keywords] *)
Definition education_keywords : list string :=
  [ "bachelor"; "master"; "phd"; "degree"; "university"; "college";
    "education"; "graduation"; "b.tech"; "m.tech"; "mba"; "b.sc"; "m.sc" ].

(** [\b[A-Za-z0-9._%+-]+@[A-Za-z0-9.-]+\.[A-Z|a-z]{2,}\b] *)
Definition email_pattern : Re.regex :=
  let alnum c := isupper_ascii c || islower_ascii c || isdecimal c in
  cat [ Re.Boundary;
        Re.RepeatOne (fun c => alnum c || one_of "._%+-" c) 1 None;
        Re.lit "@";
        Re.RepeatOne (fun c => alnum c || one_of ".-" c) 1 None;
        Re.lit ".";
        Re.RepeatOne (fun c => isupper_ascii c || one_of "|" c || islower_ascii c) 2 None;
        Re.Boundary ].

(** [(\+?\d{1,3}[-.\s]?)?\(?\d{3}\)?[-.\s]?\d{3}[-.\s]?\d{4}] *)
Definition phone_pattern : Re.regex :=
  let sep c := one_of "-." c || isspace c in
  cat [ Re.Opt (Re.Group 1 (cat [ Re.RepeatOne (Ascii.eqb "+") 0 (Some 1);
                                  Re.RepeatOne isdecimal 1 (Some 3);
                                  Re.RepeatOne sep 0 (Some 1) ]));
        Re.RepeatOne (Ascii.eqb "(") 0 (Some 1);
        Re.RepeatOne isdecimal 3 (Some 3);
        Re.RepeatOne (Ascii.eqb ")") 0 (Some 1);
        Re.RepeatOne sep 0 (Some 1);
        Re.RepeatOne isdecimal 3 (Some 3);
        Re.RepeatOne sep 0 (Some 1);
        Re.RepeatOne isdecimal 4 (Some 4) ].

(** [[-–]]: the hyphen-minus U+002D or the en dash U+2013. *)
Definition dash (c : ascii) : bool :=
  (code c =? 45)%N || (code c =? 8211)%N.

(** [present|current] under [re.IGNORECASE] *)
Definition open_end : Re.regex :=
  Re.Alt (Re.word_ci "present") (Re.word_ci "current").

(** [(\d{4})\s*[-–]\s*(\d{4}|present|current)], [re.IGNORECASE] *)
Definition year_range_pattern : Re.regex :=
  let year := Re.RepeatOne isdecimal 4 (Some 4) in
  cat [ Re.Group 1 year;
        Re.RepeatOne isspace 0 None; Re.Char dash; Re.RepeatOne isspace 0 None;
        Re.Group 2 (Re.Alt year open_end) ].

(** [(\d{1,2}/\d{4})\s*[-–]\s*(\d{1,2}/\d{4}|present|current)],
    [re.IGNORECASE] *)
Definition month_range_pattern : Re.regex :=
  let month_year := cat [ Re.RepeatOne isdecimal 1 (Some 2); Re.lit "/";
                          Re.RepeatOne isdecimal 4 (Some 4) ] in
  cat [ Re.Group 1 month_year;
        Re.RepeatOne isspace 0 None; Re.Char dash; Re.RepeatOne isspace 0 None;
        Re.Group 2 (Re.Alt month_year open_end) ].

Definition experience_patterns : list Re.regex :=
  [ year_range_pattern; month_range_pattern ].

(** [\d{4}] *)
Definition year_pattern : Re.regex := Re.RepeatOne isdecimal 4 (Some 4).

(** *** extract_contact_info *)

(** The two nested conditions on a trimmed line. *)
Definition short_and_digitless (line : string) : bool :=
  negb (String.eqb line "")
  && (length (split_ws line) <=? 4)%nat
  && negb (any_char isdigit line).

Definition no_at_no_heading (line : string) : bool :=
  negb (has_char "@" line)
  && negb (existsb (fun keyword => contains keyword (lower line))
                   ["resume"; "cv"; "curriculum"]).

(** [for line in lines[:5]: ...; break] *)
Fixpoint name_loop (lines : list string) (contact_info : gmap string (option string))
    : gmap string (option string) :=
  match lines with
  | [] => contact_info
  | line :: lines' =>
      let line := strip line in
      if short_and_digitless line then
        if no_at_no_heading line then <["name" := Some line]> contact_info
        else name_loop lines' contact_info
      else name_loop lines' contact_info
  end.

Definition extract_contact_info (text : string) : gmap string (option string) :=
  let contact_info : gmap string (option string) :=
    <["name" := None]> (<["email" := None]> (<["phone" := None]> ∅)) in
  let contact_info :=
    match Re.search email_pattern text with
    | Some email_match => <["email" := Some (Re.group0 email_match)]> contact_info
    | None => contact_info
    end in
  let contact_info :=
    match Re.search phone_pattern text with
    | Some phone_match => <["phone" := Some (Re.group0 phone_match)]> contact_info
    | None => contact_info
    end in
  let lines := split_on newline text in
  name_loop (firstn 5 lines) contact_info.

(** *** extract_skills *)

Definition found_skills (text : string) : list string :=
  let text_lower := lower text in
  fold_left (fun found skill =>
               if contains (lower skill) text_lower then (found ++ [skill])%list else found)
            tech_skills [].

(** [list(set(found_skills))]: the order of the result is the set's. *)
Definition extract_skills (text : string) : list string :=
  elements (list_to_set (found_skills text) : gset string).

(** *** calculate_experience_years *)

(** [for x in l: s = body(s, x)] where the body may raise. *)
Fixpoint for_each {A S : Type} (l : list A) (body : S -> A -> result S) (s : S)
    : result S :=
  match l with
  | [] => Ok s
  | a :: l' => let* s' := body s a in for_each l' body s'
  end.

(** The body of the [try] block: the number of years to add. *)
Definition year_delta (fallback : Z) (years : list string) : result Z :=
  let* y0 := index years 0 in
  let* start_year := int y0 in
  let* y1 := index years 1 in
  let* end_year := (if str_isdigit y1 then int y1 else Ok fallback) in
  Ok (end_year - start_year)%Z.

Definition add_years (fallback : Z) (total_years : Z) (exp : gmap string string) : Z :=
  let period := default "" (exp !! "period") in
  let years := Re.findall year_pattern period in
  if (2 <=? length years)%nat then
    match year_delta fallback years with
    | Ok delta => (total_years + delta)%Z
    | Raise _ => total_years
    end
  else total_years.

Definition calculate_experience_years_with (fallback : Z)
    (experience : list (gmap string string)) : Z :=
  fold_left (add_years fallback) experience 0%Z.

Definition calculate_experience_years (experience : list (gmap string string)) : Z :=
  calculate_experience_years_with 2024 experience.

(** The values stored in the dictionary [parse_resume] returns. *)
Inductive pyvalue : Type :=
| VContact (d : gmap string (option string))
| VStrList (l : list string)
| VDictList (l : list (gmap string string))
| VInt (n : Z).

Section Parser.

(** [nltk.tokenize.sent_tokenize]: the sentences of a text, or the
    exception the library raises (a [LookupError] when its data files are
    missing).  The parser calls it outside any [try] block. *)
Variable sent_tokenize : string -> result (list string).

(** *** extract_experience *)

Definition exp_entry (period description : string) : gmap string string :=
  <["period" := period]> (<["description" := description]> ∅).

Definition add_match (sentence : string) (experience : list (gmap string string))
    (mtch : list string) : result (list (gmap string string)) :=
  let* g1 := index mtch 0 in
  let* g2 := index mtch 1 in
  Ok (experience ++ [exp_entry (g1 +:+ " - " +:+ g2) (strip sentence)])%list.

Definition scan_pattern (sentence : string) (experience : list (gmap string string))
    (pattern : Re.regex) : result (list (gmap string string)) :=
  let matches := Re.findall_groups 2 pattern sentence in
  match matches with
  | [] => Ok experience
  | _ :: _ => for_each matches (add_match sentence) experience
  end.

Definition scan_sentence (experience : list (gmap string string)) (sentence : string)
    : result (list (gmap string string)) :=
  for_each experience_patterns (scan_pattern sentence) experience.

Definition extract_experience (text : string) : result (list (gmap string string)) :=
  let* sentences := sent_tokenize text in
  for_each sentences scan_sentence [].

(** *** extract_education *)

Definition edu_entry (description : string) : gmap string string :=
  <["description" := description]> ∅.

Definition extract_education (text : string) : result (list (gmap string string)) :=
  let* sentences := sent_tokenize text in
  Ok (fold_left (fun education sentence =>
                   let sentence_lower := lower sentence in
                   if existsb (fun keyword => contains keyword sentence_lower)
                              education_keywords
                   then (education ++ [edu_entry (strip sentence)])%list
                   else education)
                sentences []).

(** *** parse_resume *)

Definition parse_resume (text : string) : result (gmap string pyvalue) :=
  let contact_info := extract_contact_info text in
  let skills := extract_skills text in
  let* experience := extract_experience text in
  let* education := extract_education text in
  let experience_years := calculate_experience_years experience in
  Ok (<["contact_info" := VContact contact_info]>
      (<["skills" := VStrList skills]>
       (<["experience" := VDictList experience]>
        (<["education" := VDictList education]>
         (<["experience_years" := VInt experience_years]> ∅))))).

End Parser.

(** ** Specification-side definitions *)

(** The 4-digit-year substrings of a period, in order of appearance: scan
    from the left, take four decimal digits whenever they stand at the
    current position and go on after them. *)
Fixpoint year_substrings (s : string) : list string :=
  match s with
  | EmptyString => []
  | String a s1 =>
      match s1 with
      | String b (String c (String d rest)) =>
          if isdecimal a && isdecimal b && isdecimal c && isdecimal d
          then String a (String b (String c (String d EmptyString)))
               :: year_substrings rest
          else year_substrings s1
      | _ => []
      end
  end.

(** A string of decimal digits read as an integer. *)
Fixpoint decimal_from (acc : Z) (s : string) : Z :=
  match s with
  | EmptyString => acc
  | String c s' => decimal_from (10 * acc + (Z.of_N (code c) - 48))%Z s'
  end.

Definition decimal_value (s : string) : Z := decimal_from 0%Z s.

(** What one entry adds, following the spec: the second year minus the
    first when the period holds at least two 4-digit years, else nothing. *)
Definition contribution (exp : gmap string string) : Z :=
  match year_substrings (default "" (exp !! "period")) with
  | y0 :: y1 :: _ => (decimal_value y1 - decimal_value y0)%Z
  | _ => 0%Z
  end.

Fixpoint sum_Z (l : list Z) : Z :=
  match l with
  | [] => 0%Z
  | x :: l' => (x + sum_Z l')%Z
  end.

(** What [\d{4}] extracts: four decimal digits. *)
Definition is_year (y : string) : Prop :=
  String.length y = 4%nat /\ all_chars isdecimal y = true.

(** The years of an entry are in order when its period holds fewer than two
    4-digit years or the second is not smaller than the first. *)
Definition years_in_order (exp : gmap string string) : Prop :=
  match Re.findall year_pattern (default "" (exp !! "period")) with
  | y0 :: y1 :: _ => (decimal_value y0 <= decimal_value y1)%Z
  | _ => True
  end.

(** The entry a match of a date-range pattern stands for. *)
Definition entry_of_match (sentence : string) (m : Re.match_obj) : gmap string string :=
  exp_entry (Re.group 1 m +:+ " - " +:+ Re.group 2 m) (strip sentence).

(** The entries of one sentence: the matches of the year-year pattern,
    then those of the month/year-month/year pattern. *)
Definition entries_of_sentence (sentence : string) : list (gmap string string) :=
  flat_map (fun pattern => map (entry_of_match sentence) (Re.finditer pattern sentence))
           experience_patterns.

(** Whether a sentence mentions an education keyword. *)
Definition mentions_education (sentence : string) : bool :=
  existsb (fun keyword => contains keyword (lower sentence)) education_keywords.

(** [sub] occurs in [s]. *)
Definition substring_of (sub s : string) : Prop :=
  exists pre post, s = pre +:+ sub +:+ post.

(** [sub] occurs in [s] up to the case of the letters. *)
Definition occurs_ci (sub s : string) : Prop :=
  exists pre mid post, s = pre +:+ mid +:+ post /\ lower mid = lower sub.

(** The character before the position reached after [pre]. *)
Fixpoint char_before (prev : option ascii) (pre : string) : option ascii :=
  match pre with
  | EmptyString => prev
  | String c pre' => char_before (Some c) pre'
  end.

(** [res] is the leftmost match of [r] in [s]: the pattern matches where
    [res] starts and at no earlier position; without a match, it matches
    nowhere. *)
Definition leftmost_match (r : Re.regex) (prev : option ascii) (s : string)
    (res : option Re.match_obj) : Prop :=
  match res with
  | Some m =>
      exists pre, s = pre +:+ Re.m_from m
        /\ Re.match_at r (char_before prev pre) (Re.m_from m) = Some m
        /\ forall pre' post', s = pre' +:+ post' ->
             (String.length pre' < String.length pre)%nat ->
             Re.match_at r (char_before prev pre') post' = None
  | None =>
      forall pre' post', s = pre' +:+ post' ->
        Re.match_at r (char_before prev pre') post' = None
  end.

(** The condition under which a trimmed line is taken as the name. *)
Definition name_ok (line : string) : bool :=
  short_and_digitless line && no_at_no_heading line.

(** [[A-Za-z0-9._%+-]], the class of the local part. *)
Definition email_local (c : ascii) : bool :=
  (isupper_ascii c || islower_ascii c || isdecimal c) || one_of "._%+-" c.

(** A text is blocked when its first character outside the local class is
    not "@": no address can start at its beginning. *)
Definition blocked (s : string) : Prop :=
  exists l c r, s = l +:+ String c r /\ all_chars email_local l = true
                /\ email_local c = false /\ Ascii.eqb "@" c = false.

(** ** The words of the specification, character by character

    Whitespace, digits, words, trimming and case are stated here on the
    characters themselves, without the string methods of the runtime
    model, which are then proved to compute them. *)

(** The characters Python counts as whitespace: U+0009..U+000D,
    U+001C..U+0020, U+0085 and U+00A0. *)
Definition whitespace_chars : list ascii :=
  map ascii_of_N [9; 10; 11; 12; 13; 28; 29; 30; 31; 32; 133; 160]%N.

Definition whitespace (c : ascii) : bool :=
  existsb (Ascii.eqb c) whitespace_chars.

(** The digit characters: "0" to "9" and the superscripts two, three and
    one. *)
Definition digit_chars : list ascii :=
  map ascii_of_N [48; 49; 50; 51; 52; 53; 54; 55; 56; 57; 178; 179; 185]%N.

Definition digit (c : ascii) : bool :=
  existsb (Ascii.eqb c) digit_chars.

(** [c] is a character of [s]. *)
Definition char_of (c : ascii) (s : string) : Prop :=
  exists pre post, s = pre +:+ String c post.

(** A string of whitespace only. *)
Definition blank (s : string) : Prop :=
  forall c, char_of c s -> whitespace c = true.

(** [line] is [raw] without the whitespace at its two ends. *)
Definition trimmed (raw line : string) : Prop :=
  (exists before after, raw = before +:+ line +:+ after
                        /\ blank before /\ blank after)
  /\ (forall c t, line = String c t -> whitespace c = false)
  /\ (forall t c, line = t +:+ String c EmptyString -> whitespace c = false).

(** The number of words of a line: a word starts at every character that
    is not whitespace and is the first of the line or follows a whitespace
    character. *)
Fixpoint word_starts (after_space : bool) (s : string) : nat :=
  match s with
  | EmptyString => 0
  | String c s' =>
      ((if after_space && negb (whitespace c) then 1 else 0)
       + word_starts (whitespace c) s')%nat
  end.

Definition word_count (line : string) : nat := word_starts true line.

(** The capital letters of the alphabet: A to Z and, in the Latin-1
    supplement, U+00C0..U+00D6 and U+00D8..U+00DE.  The small letter of a
    capital lies 32 code points above it. *)
Definition capital (c : ascii) : bool :=
  ((65 <=? code c) && (code c <=? 90)
   || (192 <=? code c) && (code c <=? 214)
   || (216 <=? code c) && (code c <=? 222))%N.

Definition small_of (c d : ascii) : Prop :=
  capital c = true /\ code d = (code c + 32)%N.

(** Two characters that differ at most in case. *)
Definition same_letter (a b : ascii) : Prop :=
  a = b \/ small_of a b \/ small_of b a.

(** Two strings that differ at most in the case of their letters. *)
Inductive same_up_to_case : string -> string -> Prop :=
| same_empty : same_up_to_case EmptyString EmptyString
| same_char (a b : ascii) (s t : string) :
    same_letter a b -> same_up_to_case s t ->
    same_up_to_case (String a s) (String b t).

(** [sub] occurs in [s] case-insensitively. *)
Definition occurs_up_to_case (sub s : string) : Prop :=
  exists pre mid post, s = pre +:+ mid +:+ post /\ same_up_to_case mid sub.

(** [sep.join(l)] *)
Fixpoint join (sep : string) (l : list string) : string :=
  match l with
  | [] => EmptyString
  | [x] => x
  | x :: l' => x +:+ sep +:+ join sep l'
  end.

(** The lines of a text: the pieces between its newline characters. *)
Definition lines_of (text : string) (lines : list string) : Prop :=
  lines <> []
  /\ text = join (String newline EmptyString) lines
  /\ Forall (fun piece => ~ char_of newline piece) lines.

(** A trimmed line that can be a name, as the specification words it. *)
Definition is_name_line (line : string) : Prop :=
  line <> EmptyString
  /\ (word_count line <= 4)%nat
  /\ (forall c, char_of c line -> digit c = false)
  /\ ~ char_of "@" line
  /\ (forall keyword, In keyword ["resume"; "cv"; "curriculum"] ->
        ~ occurs_up_to_case keyword line).

(** [name] is the first of the first five lines that is a name line once
    trimmed, or null when none of them is. *)
Definition first_name_line (lines : list string) (name : option string) : Prop :=
  match name with
  | Some line =>
      exists i raw, (i < 5)%nat /\ nth_error lines i = Some raw
        /\ trimmed raw line /\ is_name_line line
        /\ forall j raw' line', (j < i)%nat -> nth_error lines j = Some raw' ->
             trimmed raw' line' -> ~ is_name_line line'
  | None =>
      forall i raw line, (i < 5)%nat -> nth_error lines i = Some raw ->
        trimmed raw line -> ~ is_name_line line
  end.

(** A sentence that mentions an education keyword in any case. *)
Definition education_sentence (sentence : string) : Prop :=
  exists keyword, In keyword education_keywords
                  /\ occurs_up_to_case keyword sentence.

(** ** What a match is *)

(** [matches r prev s cs prev' s' cs']: from the position before [s], with
    [prev] the character just before it, the pattern [r] can consume the
    text up to [s'], ending after the character [prev'] and extending the
    captured groups [cs] to [cs']. *)
Inductive matches : Re.regex -> option ascii -> string -> Re.captures ->
                    option ascii -> string -> Re.captures -> Prop :=
| matches_empty prev s cs :
    matches Re.Empty prev s cs prev s cs
| matches_char cls c prev s cs :
    cls c = true ->
    matches (Re.Char cls) prev (String c s) cs (Some c) s cs
| matches_boundary prev s cs :
    xorb (Re.is_word_at prev) (Re.is_word_at (Re.next_char s)) = true ->
    matches Re.Boundary prev s cs prev s cs
| matches_seq r1 r2 prev s cs prev1 s1 cs1 prev2 s2 cs2 :
    matches r1 prev s cs prev1 s1 cs1 ->
    matches r2 prev1 s1 cs1 prev2 s2 cs2 ->
    matches (Re.Seq r1 r2) prev s cs prev2 s2 cs2
| matches_alt_l r1 r2 prev s cs prev' s' cs' :
    matches r1 prev s cs prev' s' cs' ->
    matches (Re.Alt r1 r2) prev s cs prev' s' cs'
| matches_alt_r r1 r2 prev s cs prev' s' cs' :
    matches r2 prev s cs prev' s' cs' ->
    matches (Re.Alt r1 r2) prev s cs prev' s' cs'
| matches_opt_some r prev s cs prev' s' cs' :
    matches r prev s cs prev' s' cs' ->
    matches (Re.Opt r) prev s cs prev' s' cs'
| matches_opt_none r prev s cs :
    matches (Re.Opt r) prev s cs prev s cs
| matches_repeat cls lo hi prev l s cs :
    all_chars cls l = true ->
    (lo <= String.length l)%nat ->
    (forall h, hi = Some h -> (String.length l <= h)%nat) ->
    matches (Re.RepeatOne cls lo hi) prev (l +:+ s) cs (char_before prev l) s cs
| matches_group n r prev s cs prev' s' cs' :
    matches r prev s cs prev' s' cs' ->
    matches (Re.Group n r) prev s cs prev' s'
            ((n, PyStr.take (String.length s - String.length s') s) :: cs').

(** [[A-Za-z0-9.-]] and [[A-Z|a-z]], the classes of the domain and of its
    last label. *)
Definition email_domain (c : ascii) : bool :=
  (isupper_ascii c || islower_ascii c || isdecimal c) || one_of ".-" c.

Definition email_tld (c : ascii) : bool :=
  isupper_ascii c || one_of "|" c || islower_ascii c.

(** [sum(1 for c in s if p(c))] *)
Fixpoint count_chars (p : ascii -> bool) (s : string) : nat :=
  match s with
  | EmptyString => 0
  | String c s' => ((if p c then 1 else 0) + count_chars p s')%nat
  end.

(** The characters a phone number can hold besides digits. *)
Definition phone_punct (c : ascii) : bool :=
  one_of "+-.()" c || isspace c.

(** A piece of a phone number: between [lo] and [hi] characters of the
    class [cls]. *)
Definition phone_piece (cls : ascii -> bool) (lo hi : nat) (l : string) : Prop :=
  all_chars cls l = true /\ (lo <= String.length l <= hi)%nat.

(** Take a derivation of [matches] apart along a pattern that is known. *)
Ltac invert_matches :=
  repeat match goal with
         | H : matches (Re.Seq _ _) _ _ _ _ _ _ |- _ => inversion H; subst; clear H
         | H : matches Re.Empty _ _ _ _ _ _ |- _ => inversion H; subst; clear H
         | H : matches Re.Boundary _ _ _ _ _ _ |- _ => inversion H; subst; clear H
         | H : matches (Re.Char _) _ _ _ _ _ _ |- _ => inversion H; subst; clear H
         | H : matches (Re.RepeatOne _ _ _) _ _ _ _ _ _ |- _ => inversion H; subst; clear H
         | H : matches (Re.Group _ _) _ _ _ _ _ _ |- _ => inversion H; subst; clear H
         | H : matches (Re.Opt _) _ _ _ _ _ _ |- _ => inversion H; subst; clear H
         | H : matches (Re.Alt _ _) _ _ _ _ _ _ |- _ => inversion H; subst; clear H
         end.

(** A month and a year as the month/year pattern takes them: one or two
    decimal digits, "/", a 4-digit year. *)
Definition is_month_year (g : string) (year : string) : Prop :=
  exists month, g = month +:+ "/" +:+ year
    /\ all_chars isdecimal month = true
    /\ (1 <= String.length month <= 2)%nat
    /\ is_year year.

(** ** file_processor.py and main.py

    The file decoders (PyPDF2, python-docx, the UTF-8 codec) and the
    tokenizer are libraries: they are section variables.  A decoder either
    returns the texts it read or fails with the message [str(e)] of the
    exception it raised.  The database session is modelled by the table
    "resumes" as a finite map from the primary key to the row, together with
    the next value of the key's sequence.  The calls that store a row may
    raise: a section variable tells when, with which message, and which
    database they leave behind. *)

Inductive outcome (E A : Type) : Type :=
| Return (a : A)
| Throw (e : E).

Arguments Return {E A} a.
Arguments Throw {E A} e.

(** [filename.lower().split('.')[-1]]; [split] never returns an empty
    list. *)
Definition file_extension (filename : string) : string :=
  List.last (split_on "." (lower filename)) EmptyString.

(** [allowed_extensions] *)
Definition allowed_extensions : list string := ["pdf"; "docx"; "txt"].

(** What the handlers' [try] blocks can see raised. *)
Inductive exception : Type :=
| ValueErr (message : string)
| CoreErr (e : exn)
| KeyErr (key : string)
| TypeErr
| HTTPExc (status_code : nat) (detail : string)
| DbErr (message : string).

(** A row of the table "resumes". *)
Record resume_row : Type := ResumeRow {
  row_filename : string;
  row_original_text : string;
  row_parsed_data : option (gmap string pyvalue);
  row_created_at : string;
  row_name : option string;
  row_email : option string;
  row_phone : option string;
  row_skills : option string;
  row_experience_years : option Z
}.

Record database : Type := Database {
  rows : gmap Z resume_row;
  next_id : Z
}.

(** [ResumeResponse] *)
Record resume_response : Type := ResumeResponse {
  resp_message : string;
  resp_resume_id : Z;
  resp_parsed_data : gmap string pyvalue
}.

(** [ParsedResume] *)
Record parsed_resume : Type := ParsedResume {
  pr_id : Z;
  pr_filename : string;
  pr_name : option string;
  pr_email : option string;
  pr_phone : option string;
  pr_skills : pyvalue;
  pr_experience : pyvalue;
  pr_education : pyvalue;
  pr_experience_years : option Z;
  pr_created_at : string
}.

(** [d[key]] on the dictionaries [parse_resume] builds. *)
Definition getitem {V : Type} (d : gmap string V) (key : string) : outcome exception V :=
  match d !! key with
  | Some v => Return v
  | None => Throw (KeyErr key)
  end.

Definition obind {E A B : Type} (m : outcome E A) (f : A -> outcome E B) : outcome E B :=
  match m with
  | Return a => f a
  | Throw e => Throw e
  end.

Notation "'try*' x ':=' m 'in' k" := (obind m (fun x => k))
  (at level 10, x name, m at level 100, k at level 200).

Section WebApp.

Variable sent_tokenize : string -> result (list string).

(** The pages of a PDF, the paragraphs of a DOCX document, the decoding of
    UTF-8 bytes. *)
Variable pdf_pages : list Byte.byte -> outcome string (list string).
Variable docx_paragraphs : list Byte.byte -> outcome string (list string).
Variable decode_utf8 : list Byte.byte -> outcome string string.

(** [str(e)] for the exceptions whose text the code does not fix. *)
Variable str_exn : exn -> string.
Variable str_type_error : string.
Variable str_http : nat -> string -> string.

(** [datetime.now(timezone.utc)], evaluated once when the module is
    loaded. *)
Variable startup_time : string.

(** [db.add(db_resume); db.commit(); db.refresh(db_resume)] can raise, for
    a lost connection or a statement the server refuses: [db_failure] gives
    the message [str(e)] of the exception and the database the failed
    calls leave behind, [None] when the three calls succeed. *)
Variable db_failure : database -> resume_row -> option (string * database).

(** [text = ""; for t in texts: text += t + "\n"] *)
Definition join_lines (texts : list string) : string :=
  fold_left (fun text t => text +:+ t +:+ String newline EmptyString) texts EmptyString.

Definition extract_text_from_pdf (file_content : list Byte.byte) : outcome string string :=
  match pdf_pages file_content with
  | Return pages => Return (join_lines pages)
  | Throw e => Throw ("Error processing PDF: " +:+ e)
  end.

Definition extract_text_from_docx (file_content : list Byte.byte) : outcome string string :=
  match docx_paragraphs file_content with
  | Return paragraphs => Return (join_lines paragraphs)
  | Throw e => Throw ("Error processing DOCX: " +:+ e)
  end.

Definition extract_text_from_txt (file_content : list Byte.byte) : outcome string string :=
  match decode_utf8 file_content with
  | Return text => Return text
  | Throw e => Throw ("Error processing TXT: " +:+ e)
  end.

(** [FileProcessor.process_file]; [Throw] carries the message of the
    [ValueError]. *)
Definition process_file (file_content : list Byte.byte) (filename : string)
    : outcome string string :=
  let file_extension := file_extension filename in
  if String.eqb file_extension "pdf" then extract_text_from_pdf file_content
  else if String.eqb file_extension "docx" then extract_text_from_docx file_content
  else if String.eqb file_extension "txt" then extract_text_from_txt file_content
  else Throw ("Unsupported file format: " +:+ file_extension).

(** [str(e)] *)
Definition str (e : exception) : string :=
  match e with
  | ValueErr message => message
  | CoreErr e => str_exn e
  | KeyErr key => "'" +:+ key +:+ "'"
  | TypeErr => str_type_error
  | HTTPExc status_code detail => str_http status_code detail
  | DbErr message => message
  end.

Definition as_contact (v : pyvalue) : outcome exception (gmap string (option string)) :=
  match v with
  | VContact d => Return d
  | _ => Throw TypeErr
  end.

(** [', '.join(skills) if skills else None]: an empty list, an empty
    dictionary and 0 are false; joining a dictionary joins its keys, joining
    dictionaries or an integer is a [TypeError]. *)
Definition skills_column (v : pyvalue) : outcome exception (option string) :=
  match v with
  | VStrList [] => Return None
  | VStrList skills => Return (Some (join ", " skills))
  | VContact d =>
      match map fst (map_to_list d) with
      | [] => Return None
      | keys => Return (Some (join ", " keys))
      end
  | VDictList [] => Return None
  | VDictList _ => Throw TypeErr
  | VInt 0 => Return None
  | VInt _ => Throw TypeErr
  end.

(** The value for the Integer column [experience_years]. *)
Definition years_column (v : pyvalue) : outcome exception (option Z) :=
  match v with
  | VInt n => Return (Some n)
  | _ => Throw TypeErr
  end.

(** [db.add(db_resume); db.commit(); db.refresh(db_resume)]: when the
    calls succeed the row is stored under the next key, which is the
    [db_resume.id] read afterwards. *)
Definition db_add (row : resume_row) (db : database)
    : outcome exception Z * database :=
  match db_failure db row with
  | Some (message, db') => (Throw (DbErr message), db')
  | None =>
      (Return (next_id db),
       Database (<[next_id db := row]> (rows db)) (next_id db + 1))
  end.

(** The [try] block of [upload_resume] up to the database calls: the row to
    store and the parsed data. *)
Definition upload_body (filename : string) (file_content : list Byte.byte)
    : outcome exception (resume_row * gmap string pyvalue) :=
  try* text := match process_file file_content filename with
               | Return text => Return text
               | Throw message => Throw (ValueErr message)
               end in
  if String.eqb (strip text) "" then
    Throw (HTTPExc 400 "No text found in the uploaded file")
  else
    try* parsed_data := match parse_resume sent_tokenize text with
                        | Ok parsed_data => Return parsed_data
                        | Raise e => Throw (CoreErr e)
                        end in
    try* contact_info := obind (getitem parsed_data "contact_info") as_contact in
    try* name := getitem contact_info "name" in
    try* email := getitem contact_info "email" in
    try* phone := getitem contact_info "phone" in
    try* skills := obind (getitem parsed_data "skills") skills_column in
    try* experience_years :=
      obind (getitem parsed_data "experience_years") years_column in
    let db_resume :=
      ResumeRow filename text (Some parsed_data) startup_time
                name email phone skills experience_years in
    Return (db_resume, parsed_data).

(** [upload_resume]: the answer, an [HTTPException] with its status code and
    detail or the response, and the database afterwards.  The handler
    [except Exception] catches what the whole [try] block raises, the
    database calls included. *)
Definition upload_resume (filename : string) (file_content : list Byte.byte)
    (db : database) : outcome (nat * string) resume_response * database :=
  let file_extension := file_extension filename in
  if negb (existsb (String.eqb file_extension) allowed_extensions) then
    (Throw (400%nat, "File type not supported. Allowed types: "
                     +:+ join ", " allowed_extensions), db)
  else
    match upload_body filename file_content with
    | Throw e => (Throw (500%nat, "Error processing file: " +:+ str e), db)
    | Return (db_resume, parsed_data) =>
        match db_add db_resume db with
        | (Return resume_id, db') =>
            (Return (ResumeResponse "Resume uploaded and parsed successfully"
                                    resume_id parsed_data), db')
        | (Throw e, db') =>
            (Throw (500%nat, "Error processing file: " +:+ str e), db')
        end
    end.

(** The row [upload_resume] stores for a text. *)
Definition stored_row (filename text : string) (parsed_data : gmap string pyvalue)
    (experience : list (gmap string string)) : resume_row :=
  ResumeRow filename text (Some parsed_data) startup_time
    (List.find name_ok (map strip (firstn 5 (split_on newline text))))
    (Re.group0 <$> Re.search email_pattern text)
    (Re.group0 <$> Re.search phone_pattern text)
    (match extract_skills text with
     | [] => None
     | skills => Some (join ", " skills)
     end)
    (Some (calculate_experience_years experience)).

(** [parsed_data.get(key, [])] *)
Definition get_or_empty_list (parsed_data : gmap string pyvalue) (key : string) : pyvalue :=
  default (VStrList []) (parsed_data !! key).

(** [get_resume] *)
Definition get_resume (resume_id : Z) (db : database) : outcome (nat * string) parsed_resume :=
  match rows db !! resume_id with
  | None => Throw (404%nat, "Resume not found")
  | Some resume =>
      let parsed_data := default ∅ (row_parsed_data resume) in
      Return (ParsedResume resume_id (row_filename resume)
                (row_name resume) (row_email resume) (row_phone resume)
                (get_or_empty_list parsed_data "skills")
                (get_or_empty_list parsed_data "experience")
                (get_or_empty_list parsed_data "education")
                (row_experience_years resume) (row_created_at resume))
  end.

(** [delete_resume] *)
Definition delete_resume (resume_id : Z) (db : database)
    : outcome (nat * string) string * database :=
  match rows db !! resume_id with
  | None => (Throw (404%nat, "Resume not found"), db)
  | Some resume =>
      (Return "Resume deleted successfully",
       Database (delete resume_id (rows db)) (next_id db))
  end.

End WebApp.

(** The keys of the table are below the next value of the sequence. *)
Definition db_wf (db : database) : Prop :=
  forall resume_id row, rows db !! resume_id = Some row -> (resume_id < next_id db)%Z.

(** ** Proof automation *)

Ltac ascii_cases c :=
  destruct c as [[] [] [] [] [] [] [] []]; vm_compute; try reflexivity; try discriminate.

(** ** The year pattern *)

Lemma year_substrings_step (a b c d : ascii) (rest : string) :
  year_substrings (String a (String b (String c (String d rest)))) =
  if isdecimal a && isdecimal b && isdecimal c && isdecimal d
  then String a (String b (String c (String d EmptyString))) :: year_substrings rest
  else year_substrings (String b (String c (String d rest))).
Proof. reflexivity. Qed.

Lemma year_match_at (prev : option ascii) (s : string) :
  Re.match_at year_pattern prev s =
  match s with
  | String a (String b (String c (String d rest))) =>
      if isdecimal a && isdecimal b && isdecimal c && isdecimal d
      then Some (Re.MatchObj s rest (Some d) [])
      else None
  | _ => None
  end.
Proof.
  unfold Re.match_at, year_pattern.
  destruct s as [|a [|b [|c [|d rest]]]]; simpl;
    repeat match goal with
           | |- context [isdecimal ?x] => destruct (isdecimal x); simpl
           end;
    try reflexivity.
  destruct rest; reflexivity.
Qed.

Lemma year_search (s : string) (prev : option ascii) :
  match Re.search_from year_pattern prev s with
  | None => year_substrings s = []
  | Some m =>
      year_substrings s = Re.group0 m :: year_substrings (Re.m_rest m)
      /\ (String.length (Re.m_rest m) < String.length (Re.m_from m) <= String.length s)%nat
  end.
Proof.
  revert prev. induction s as [|a s IH]; intros prev.
  - reflexivity.
  - cbn [Re.search_from]. rewrite year_match_at.
    destruct s as [|b [|c [|d rest]]].
    + reflexivity.
    + cbn [Re.search_from]. rewrite year_match_at. reflexivity.
    + cbn [Re.search_from]. rewrite !year_match_at. reflexivity.
    + destruct (isdecimal a && isdecimal b && isdecimal c && isdecimal d) eqn:E.
      * rewrite year_substrings_step, E. unfold Re.group0. cbn [Re.m_from Re.m_rest].
        split.
        -- f_equal.
           replace (String.length (String a (String b (String c (String d rest))))
                    - String.length rest)%nat with 4%nat by (simpl; lia).
           reflexivity.
        -- simpl. lia.
      * specialize (IH (Some a)).
        destruct (Re.search_from year_pattern (Some a) (String b (String c (String d rest)))) as [m|].
        -- destruct IH as [IH1 IH2]. split.
           ++ rewrite year_substrings_step, E. exact IH1.
           ++ cbn [String.length] in *. lia.
        -- rewrite year_substrings_step, E. exact IH.
Qed.

Lemma year_finditer (n : nat) (s : string) (prev : option ascii) :
  (String.length s < n)%nat ->
  map Re.group0 (Re.finditer_from n year_pattern prev s) = year_substrings s.
Proof.
  revert s prev. induction n as [|n IH]; intros s prev Hn; [lia|].
  cbn [Re.finditer_from].
  pose proof (year_search s prev) as Hs.
  destruct (Re.search_from year_pattern prev s) as [m|].
  - destruct Hs as [Hs1 Hs2].
    assert ((String.length (Re.m_rest m) <? String.length (Re.m_from m))%nat = true) as ->
      by (apply Nat.ltb_lt; lia).
    cbn [map]. rewrite IH by lia. symmetry. exact Hs1.
  - symmetry. exact Hs.
Qed.

(** [re.findall(r'\d{4}', period)] is the list of year substrings. *)
Lemma findall_years (s : string) :
  Re.findall year_pattern s = year_substrings s.
Proof. unfold Re.findall, Re.finditer. apply year_finditer. lia. Qed.

(** ** Decimal strings and [int] *)

Lemma decimal_not_space (c : ascii) : isdecimal c = true -> isspace c = false.
Proof. ascii_cases c. Qed.

Lemma decimal_not_underscore (c : ascii) : isdecimal c = true -> Ascii.eqb c "_" = false.
Proof. ascii_cases c. Qed.

Lemma decimal_not_sign (c : ascii) :
  isdecimal c = true -> Ascii.eqb c "+" = false /\ Ascii.eqb c "-" = false.
Proof. ascii_cases c; intros _; split; reflexivity. Qed.

Lemma decimal_isdigit (c : ascii) : isdecimal c = true -> isdigit c = true.
Proof. intros H. unfold isdigit. rewrite H. reflexivity. Qed.

Lemma all_decimal_all_digit (s : string) :
  all_chars isdecimal s = true -> all_chars isdigit s = true.
Proof.
  induction s as [|c s IH]; simpl; [reflexivity|].
  intros [Hc Hs]%andb_prop. rewrite (decimal_isdigit c Hc), (IH Hs). reflexivity.
Qed.

Lemma rstrip_decimal (s : string) : all_chars isdecimal s = true -> rstrip s = s.
Proof.
  induction s as [|c s IH]; simpl; [reflexivity|].
  intros [Hc Hs]%andb_prop. rewrite (IH Hs), (decimal_not_space c Hc).
  destruct s; reflexivity.
Qed.

Lemma strip_decimal (s : string) : all_chars isdecimal s = true -> strip s = s.
Proof.
  intros H. unfold strip.
  assert (lstrip s = s) as ->.
  { destruct s as [|c s]; [reflexivity|]. simpl in *.
    apply andb_prop in H as [Hc _]. rewrite (decimal_not_space c Hc). reflexivity. }
  apply rstrip_decimal, H.
Qed.

Lemma int_digits_decimal (s : string) (acc : Z) (after_digit : bool) :
  all_chars isdecimal s = true ->
  s <> EmptyString \/ after_digit = true ->
  int_digits s acc after_digit = Some (decimal_from acc s).
Proof.
  revert acc after_digit. induction s as [|c s IH]; intros acc b Hs Hne.
  - destruct Hne as [Hne | ->]; [congruence | reflexivity].
  - simpl in Hs. apply andb_prop in Hs as [Hc Hs].
    cbn [int_digits decimal_from]. rewrite (decimal_not_underscore c Hc).
    unfold digit_value. rewrite Hc. apply IH; [exact Hs | right; reflexivity].
Qed.

(** [int] never fails on a non-empty string of decimal digits. *)
Lemma int_decimal (s : string) :
  s <> EmptyString -> all_chars isdecimal s = true -> int s = Ok (decimal_value s).
Proof.
  intros Hne Hs. unfold int. rewrite (strip_decimal s Hs).
  destruct s as [|c s]; [congruence|].
  pose proof Hs as Hs'. simpl in Hs'. apply andb_prop in Hs' as [Hc _].
  destruct (decimal_not_sign c Hc) as [-> ->].
  rewrite (int_digits_decimal (String c s) 0%Z false Hs (or_introl Hne)).
  unfold decimal_value. f_equal. lia.
Qed.

Lemma year_substrings_years (s : string) : Forall is_year (year_substrings s).
Proof.
  assert (forall n s, (String.length s < n)%nat -> Forall is_year (year_substrings s)) as H.
  { clear s. induction n as [|n IH]; intros s Hn; [lia|].
    destruct s as [|a [|b [|c [|d rest]]]]; try (constructor; fail).
    rewrite year_substrings_step.
    destruct (isdecimal a && isdecimal b && isdecimal c && isdecimal d) eqn:E.
    - constructor.
      + split; [reflexivity|]. simpl. rewrite andb_true_r.
        rewrite <- !andb_assoc in E. exact E.
      + apply IH. cbn [String.length] in Hn. lia.
    - apply IH. cbn [String.length] in Hn. cbn [String.length]. lia. }
  apply (H (S (String.length s))). lia.
Qed.

Lemma is_year_nonempty (y : string) : is_year y -> y <> EmptyString.
Proof. intros [Hl _] ->. discriminate Hl. Qed.

Lemma is_year_isdigit (y : string) : is_year y -> str_isdigit y = true.
Proof.
  intros Hy. pose proof (is_year_nonempty y Hy) as Hne. destruct Hy as [_ Hd].
  destruct y; [congruence|]. unfold str_isdigit. apply all_decimal_all_digit, Hd.
Qed.

Lemma is_year_int (y : string) : is_year y -> int y = Ok (decimal_value y).
Proof. intros Hy. apply int_decimal; [apply is_year_nonempty, Hy | apply Hy]. Qed.

(** The [try] block on a list of at least two years: it never raises and
    never reads the fallback. *)
Lemma year_delta_years (fallback : Z) (y0 y1 : string) (rest : list string) :
  is_year y0 -> is_year y1 ->
  year_delta fallback (y0 :: y1 :: rest) = Ok (decimal_value y1 - decimal_value y0)%Z.
Proof.
  intros H0 H1. unfold year_delta, index. cbn [nth_error bind].
  rewrite (is_year_int y0 H0). cbn [bind].
  rewrite (is_year_isdigit y1 H1), (is_year_int y1 H1). reflexivity.
Qed.

Lemma add_years_contribution (fallback total : Z) (exp : gmap string string) :
  add_years fallback total exp = (total + contribution exp)%Z.
Proof.
  unfold add_years, contribution. rewrite findall_years.
  pose proof (year_substrings_years (default "" (exp !! "period"))) as Hy.
  destruct (year_substrings (default "" (exp !! "period"))) as [|y0 [|y1 rest]].
  - simpl. lia.
  - simpl. lia.
  - inversion Hy as [|? ? H0 Hy']; subst. inversion Hy' as [|? ? H1 _]; subst.
    cbn [length Nat.leb]. rewrite (year_delta_years fallback y0 y1 rest H0 H1).
    reflexivity.
Qed.

Lemma fold_add_years (fallback : Z) (experience : list (gmap string string)) (total : Z) :
  fold_left (add_years fallback) experience total
  = (total + sum_Z (map contribution experience))%Z.
Proof.
  revert total. induction experience as [|exp experience IH]; intros total.
  - simpl. lia.
  - cbn [fold_left map sum_Z]. rewrite IH, add_years_contribution. lia.
Qed.

(** ** The experience aggregator *)

(** C1: for the single entry whose period is "2020 - present" the aggregator
    returns 0, not 4: [\d{4}] finds only one year in that period, so the
    entry is skipped before the branch holding the fallback year 2024 is
    ever looked at. *)
Theorem open_ended_period_counts_zero (description : string) :
  Re.findall year_pattern "2020 - present" = ["2020"]
  /\ calculate_experience_years [exp_entry "2020 - present" description] = 0%Z
  /\ calculate_experience_years [exp_entry "2020 - present" description] <> 4%Z.
Proof.
  assert (calculate_experience_years [exp_entry "2020 - present" description] = 0%Z) as H.
  { unfold calculate_experience_years, calculate_experience_years_with.
    rewrite fold_add_years. cbn [map sum_Z]. unfold contribution, exp_entry.
    rewrite lookup_insert_eq. reflexivity. }
  split; [reflexivity|]. split; [exact H|]. rewrite H. discriminate.
Qed.

(** C2, as stated, fails: an entry whose years are out of order makes the
    total negative. *)
Lemma negative_total_counterexample :
  ~ (forall experience : list (gmap string string),
       (0 <= calculate_experience_years experience)%Z).
Proof.
  intros H. specialize (H [exp_entry "2022 - 2018" "Intern"]).
  vm_compute in H. apply H. reflexivity.
Qed.

Lemma years_in_order_contribution (exp : gmap string string) :
  years_in_order exp -> (0 <= contribution exp)%Z.
Proof.
  unfold years_in_order, contribution. rewrite findall_years.
  destruct (year_substrings (default "" (exp !! "period"))) as [|y0 [|y1 rest]]; lia.
Qed.

(** C2, amended: the aggregator returns an integer that is non-negative
    whenever, in every entry with at least two 4-digit years, the second
    year is not smaller than the first. *)
Theorem ordered_years_total_nonnegative (experience : list (gmap string string)) :
  Forall years_in_order experience ->
  (0 <= calculate_experience_years experience)%Z.
Proof.
  intros H. unfold calculate_experience_years, calculate_experience_years_with.
  rewrite fold_add_years. cbn [Z.add].
  induction H as [|exp experience Hexp _ IH]; cbn [map sum_Z]; [lia|].
  pose proof (years_in_order_contribution exp Hexp). lia.
Qed.

Lemma ordered_years_total_nonnegative_witness :
  Forall years_in_order
         [exp_entry "2018 - 2022" "Engineer"; exp_entry "2020 - present" "Lead"]
  /\ (0 <= calculate_experience_years
             [exp_entry "2018 - 2022" "Engineer"; exp_entry "2020 - present" "Lead"])%Z.
Proof.
  assert (Forall years_in_order
            [exp_entry "2018 - 2022" "Engineer"; exp_entry "2020 - present" "Lead"]) as H.
  { repeat constructor; vm_compute; discriminate. }
  split; [exact H|].
  exact (ordered_years_total_nonnegative
           [exp_entry "2018 - 2022" "Engineer"; exp_entry "2020 - present" "Lead"] H).
Defined.

(** C3: the aggregator is the sum, over the entries, of the second 4-digit
    year minus the first for the periods that hold at least two 4-digit
    years, and of zero for the others; a single entry with period
    "2018 - 2022" gives 4.  The 4-digit years of a period are read from the
    left, one after the other without overlap ([year_substrings]), which is
    what [re.findall] returns ([findall_years]). *)
Theorem total_is_sum_of_year_differences :
  (forall experience : list (gmap string string),
     calculate_experience_years experience = sum_Z (map contribution experience))
  /\ (forall description : string,
        calculate_experience_years [exp_entry "2018 - 2022" description] = 4%Z).
Proof.
  assert (forall experience,
            calculate_experience_years experience = sum_Z (map contribution experience)) as H.
  { intros experience. unfold calculate_experience_years, calculate_experience_years_with.
    rewrite fold_add_years. lia. }
  split; [exact H|].
  intros description. rewrite H. cbn [map sum_Z]. unfold contribution, exp_entry.
  rewrite lookup_insert_eq. reflexivity.
Qed.

(** C10: the branch that substitutes 2024 is unreachable.  Every substring
    [\d{4}] extracts passes [isdigit], so with at least two years the end
    year is the second one read as an integer, whatever the fallback; and
    the total does not depend on the fallback constant. *)
Theorem fallback_year_unreachable (fallback : Z) (period : string)
    (experience : list (gmap string string)) :
  let years := Re.findall year_pattern period in
  Forall (fun y => str_isdigit y = true /\ all_chars isdigit y = true) years
  /\ (forall y0 y1 rest, years = y0 :: y1 :: rest ->
        int y0 = Ok (decimal_value y0)
        /\ int y1 = Ok (decimal_value y1)
        /\ year_delta fallback years = Ok (decimal_value y1 - decimal_value y0)%Z)
  /\ calculate_experience_years_with fallback experience
     = calculate_experience_years experience.
Proof.
  intros years. subst years. rewrite findall_years.
  pose proof (year_substrings_years period) as Hy.
  split; [|split].
  - eapply Forall_impl; [exact Hy|]. intros y Hyy. split.
    + apply is_year_isdigit, Hyy.
    + apply all_decimal_all_digit, Hyy.
  - intros y0 y1 rest E. rewrite E in Hy |- *.
    inversion Hy as [|? ? H0 Hy']; subst. inversion Hy' as [|? ? H1 _]; subst.
    split; [apply is_year_int, H0|]. split; [apply is_year_int, H1|].
    apply year_delta_years; assumption.
  - unfold calculate_experience_years, calculate_experience_years_with.
    rewrite !fold_add_years. reflexivity.
Qed.

(** ** Substrings *)

Lemma app_nil_l (t : string) : EmptyString +:+ t = t.
Proof. reflexivity. Qed.

Lemma app_cons (c : ascii) (s t : string) : String c s +:+ t = String c (s +:+ t).
Proof. reflexivity. Qed.

Lemma length_app (a b : string) :
  String.length (a +:+ b) = (String.length a + String.length b)%nat.
Proof.
  induction a as [|c a IH]; [reflexivity|].
  rewrite app_cons. cbn [String.length]. rewrite IH. reflexivity.
Qed.

Lemma startswith_spec (p s : string) :
  startswith p s = true <-> exists post, s = p +:+ post.
Proof.
  revert s. induction p as [|a p IH]; intros s.
  - simpl. split; [intros _; exists s; reflexivity | reflexivity].
  - destruct s as [|b s]; simpl.
    + split; [discriminate | intros [post H]; rewrite app_cons in H; discriminate H].
    + rewrite andb_true_iff, IH. split.
      * intros [Hab [post ->]]. apply Ascii.eqb_eq in Hab as ->.
        exists post. reflexivity.
      * intros [post H]. rewrite app_cons in H. injection H as -> ->.
        split; [apply Ascii.eqb_refl | exists post; reflexivity].
  Qed.

Lemma contains_spec (sub s : string) :
  contains sub s = true <-> substring_of sub s.
Proof.
  unfold substring_of. induction s as [|c s IH].
  - simpl. rewrite orb_false_r, startswith_spec. split.
    + intros [post H]. exists EmptyString, post. exact H.
    + intros [pre [post H]]. destruct pre as [|a pre]; [|rewrite app_cons in H; discriminate H].
      exists post. exact H.
  - cbn [contains]. rewrite orb_true_iff, startswith_spec, IH. split.
    + intros [[post H] | [pre [post H]]].
      * exists EmptyString, post. exact H.
      * exists (String c pre), post. rewrite app_cons, H. reflexivity.
    + intros [pre [post H]]. destruct pre as [|a pre].
      * left. exists post. exact H.
      * right. rewrite app_cons in H. injection H as -> ->. exists pre, post. reflexivity.
Qed.

Lemma lower_app (a b : string) : lower (a +:+ b) = lower a +:+ lower b.
Proof.
  induction a as [|c a IH]; [reflexivity|].
  rewrite app_cons. cbn [lower]. rewrite app_cons, IH. reflexivity.
Qed.

Lemma lower_split (s a b : string) :
  lower s = a +:+ b -> exists s1 s2, s = s1 +:+ s2 /\ lower s1 = a /\ lower s2 = b.
Proof.
  revert s. induction a as [|c a IH]; intros s H.
  - exists EmptyString, s. auto.
  - destruct s as [|d s]; [discriminate H|].
    rewrite app_cons in H. cbn [lower] in H. injection H as Hc Hs.
    destruct (IH s Hs) as [s1 [s2 [-> [H1 H2]]]].
    exists (String d s1), s2. cbn [lower]. rewrite Hc, H1. auto.
Qed.

(** [sub.lower() in s.lower()] is occurrence up to case. *)
Lemma contains_lower (sub s : string) :
  contains (lower sub) (lower s) = true <-> occurs_ci sub s.
Proof.
  rewrite contains_spec. unfold substring_of, occurs_ci. split.
  - intros [pre [post H]].
    apply lower_split in H as [s1 [s' [-> [H1 H]]]].
    apply lower_split in H as [s2 [s3 [-> [H2 H3]]]].
    exists s1, s2, s3. auto.
  - intros [pre [mid [post [-> H]]]].
    exists (lower pre), (lower post). rewrite !lower_app, H. reflexivity.
Qed.

Lemma any_char_spec (p : ascii -> bool) (s : string) :
  any_char p s = true <-> exists pre c post, s = pre +:+ String c post /\ p c = true.
Proof.
  induction s as [|a s IH].
  - simpl. split; [discriminate|].
    intros [pre [c [post [H _]]]]. destruct pre; discriminate H.
  - cbn [any_char]. rewrite orb_true_iff, IH. split.
    + intros [Ha | [pre [c [post [-> Hc]]]]].
      * exists EmptyString, a, s. auto.
      * exists (String a pre), c, post. auto.
    + intros [pre [c [post [H Hc]]]]. destruct pre as [|b pre].
      * rewrite app_nil_l in H. injection H as -> ->. left. exact Hc.
      * rewrite app_cons in H. injection H as -> ->. right. exists pre, c, post. auto.
Qed.

(** ** The string methods compute the notions of the specification *)

Lemma isspace_whitespace (c : ascii) : isspace c = whitespace c.
Proof. ascii_cases c. Qed.

Lemma isdigit_digit (c : ascii) : isdigit c = digit c.
Proof. ascii_cases c. Qed.

Lemma char_of_empty (c : ascii) : ~ char_of c EmptyString.
Proof. intros [pre [post H]]. destruct pre; discriminate H. Qed.

Lemma char_of_cons (c d : ascii) (s : string) :
  char_of c (String d s) <-> c = d \/ char_of c s.
Proof.
  split.
  - intros [pre [post H]]. destruct pre as [|a pre].
    + rewrite app_nil_l in H. injection H as -> _. left. reflexivity.
    + rewrite app_cons in H. injection H as _ ->. right. exists pre, post. reflexivity.
  - intros [-> | [pre [post ->]]].
    + exists EmptyString, s. reflexivity.
    + exists (String d pre), post. reflexivity.
Qed.

Lemma char_of_app (c : ascii) (a b : string) :
  char_of c (a +:+ b) <-> char_of c a \/ char_of c b.
Proof.
  induction a as [|d a IH].
  - rewrite app_nil_l. split; [auto|]. intros [H | H]; [|exact H].
    destruct (char_of_empty c H).
  - rewrite app_cons, !char_of_cons, IH. tauto.
Qed.

Lemma all_chars_char_of (p : ascii -> bool) (s : string) :
  all_chars p s = true <-> forall c, char_of c s -> p c = true.
Proof.
  induction s as [|d s IH]; cbn [all_chars].
  - split; [|reflexivity]. intros _ c H. destruct (char_of_empty c H).
  - rewrite andb_true_iff, IH. split.
    + intros [Hd Hs] c [-> | H]%char_of_cons; auto.
    + intros H. split; [apply H, char_of_cons; auto|].
      intros c Hc. apply H, char_of_cons. auto.
Qed.

Lemma any_char_char_of (p : ascii -> bool) (s : string) :
  any_char p s = false <-> forall c, char_of c s -> p c = false.
Proof.
  induction s as [|d s IH]; cbn [any_char].
  - split; [|reflexivity]. intros _ c H. destruct (char_of_empty c H).
  - rewrite orb_false_iff, IH. split.
    + intros [Hd Hs] c [-> | H]%char_of_cons; auto.
    + intros H. split; [apply H, char_of_cons; auto|].
      intros c Hc. apply H, char_of_cons. auto.
Qed.

Lemma has_char_char_of (c : ascii) (s : string) :
  has_char c s = false <-> ~ char_of c s.
Proof.
  unfold has_char. rewrite any_char_char_of. split.
  - intros H Hc. specialize (H c Hc). rewrite Ascii.eqb_refl in H. discriminate H.
  - intros H d Hd. destruct (Ascii.eqb_spec c d) as [->|]; [destruct (H Hd) | reflexivity].
Qed.

Lemma blank_spec (s : string) : blank s <-> all_chars isspace s = true.
Proof.
  unfold blank. rewrite all_chars_char_of. split; intros H c Hc.
  - rewrite isspace_whitespace. apply H, Hc.
  - rewrite <- isspace_whitespace. apply H, Hc.
Qed.

(** *** Trimming *)

Lemma lstrip_blank_app (a s : string) :
  all_chars isspace a = true -> lstrip (a +:+ s) = lstrip s.
Proof.
  induction a as [|c a IH]; [reflexivity|]. cbn [all_chars].
  intros [Hc Ha]%andb_prop. rewrite app_cons. cbn [lstrip]. rewrite Hc. apply IH, Ha.
Qed.

Lemma lstrip_split (s : string) :
  exists a, s = a +:+ lstrip s /\ all_chars isspace a = true.
Proof.
  induction s as [|c s [a [IH Ha]]]; [exists EmptyString; auto|].
  cbn [lstrip]. destruct (isspace c) eqn:Ec.
  - exists (String c a). rewrite app_cons, <- IH. cbn [all_chars]. rewrite Ec, Ha. auto.
  - exists EmptyString. auto.
Qed.

Lemma lstrip_starts (s : string) (c : ascii) (t : string) :
  lstrip s = String c t -> isspace c = false.
Proof.
  induction s as [|d s IH]; cbn [lstrip]; [discriminate|].
  destruct (isspace d) eqn:Ed; [exact IH|].
  intros H. injection H as <- _. exact Ed.
Qed.

Lemma rstrip_blank (b : string) : all_chars isspace b = true -> rstrip b = EmptyString.
Proof.
  induction b as [|c b IH]; [reflexivity|]. cbn [all_chars rstrip].
  intros [Hc Hb]%andb_prop. rewrite (IH Hb), Hc. reflexivity.
Qed.

Lemma rstrip_app_blank (s b : string) :
  all_chars isspace b = true -> rstrip (s +:+ b) = rstrip s.
Proof.
  intros Hb. induction s as [|c s IH].
  - rewrite app_nil_l. apply rstrip_blank, Hb.
  - rewrite app_cons. cbn [rstrip]. rewrite IH. reflexivity.
Qed.

Lemma rstrip_split (s : string) :
  exists b, s = rstrip s +:+ b /\ all_chars isspace b = true.
Proof.
  induction s as [|c s [b [IH Hb]]]; [exists EmptyString; auto|].
  cbn [rstrip]. destruct (rstrip s) as [|d r] eqn:E.
  - destruct (isspace c) eqn:Ec.
    + exists (String c s). split; [reflexivity|]. cbn [all_chars]. rewrite Ec.
      rewrite app_nil_l in IH. rewrite IH. exact Hb.
    + exists b. rewrite app_cons, <- IH. auto.
  - exists b. rewrite app_cons, <- IH. auto.
Qed.

Lemma rstrip_starts (s : string) (c : ascii) (t : string) :
  rstrip s = String c t -> exists r, s = String c r.
Proof.
  destruct s as [|d s]; cbn [rstrip]; [discriminate|].
  destruct (rstrip s); [destruct (isspace d); [discriminate|]|];
    intros H; injection H as <- _; eauto.
Qed.

Lemma rstrip_ends (s t : string) (c : ascii) :
  rstrip s = t +:+ String c EmptyString -> isspace c = false.
Proof.
  revert t. induction s as [|d s IH]; intros t; cbn [rstrip].
  - destruct t; discriminate.
  - destruct (rstrip s) as [|e r] eqn:E.
    + destruct (isspace d) eqn:Ed; [destruct t; discriminate|].
      destruct t as [|x t]; intros H.
      * rewrite app_nil_l in H. injection H as <-. exact Ed.
      * rewrite app_cons in H. injection H as _ H. destruct t; discriminate H.
    + destruct t as [|x t]; intros H.
      * rewrite app_nil_l in H. discriminate H.
      * rewrite app_cons in H. injection H as _ H. apply (IH t H).
Qed.

Lemma rstrip_kept (t : string) (c : ascii) :
  isspace c = false -> rstrip (t +:+ String c EmptyString) = t +:+ String c EmptyString.
Proof.
  intros Hc. induction t as [|d t IH].
  - rewrite app_nil_l. cbn [rstrip]. rewrite Hc. reflexivity.
  - rewrite app_cons. cbn [rstrip]. rewrite IH.
    destruct t; reflexivity.
Qed.

Lemma string_last (s : string) :
  s <> EmptyString -> exists t c, s = t +:+ String c EmptyString.
Proof.
  induction s as [|d s IH]; [congruence|]. intros _.
  destruct s as [|e s].
  - exists EmptyString, d. reflexivity.
  - destruct IH as [t [c H]]; [discriminate|].
    exists (String d t), c. rewrite app_cons, <- H. reflexivity.
Qed.

(** [str.strip] removes the whitespace at the two ends. *)
Lemma strip_trimmed (raw : string) : trimmed raw (strip raw).
Proof.
  unfold trimmed, strip.
  destruct (lstrip_split raw) as [a [Ha Hablank]].
  destruct (rstrip_split (lstrip raw)) as [b [Hb Hbblank]].
  split; [|split].
  - exists a, b. rewrite <- Hb. split; [exact Ha|].
    split; apply blank_spec; assumption.
  - intros c t H. rewrite <- isspace_whitespace.
    apply rstrip_starts in H as [r H]. apply (lstrip_starts raw c r H).
  - intros t c H. rewrite <- isspace_whitespace. apply (rstrip_ends _ _ _ H).
Qed.

(** Nothing else is the trimmed form of a string. *)
Lemma trimmed_strip (raw line : string) : trimmed raw line -> line = strip raw.
Proof.
  intros [[a [b [-> [Ha Hb]]]] [Hfirst Hlast]].
  apply blank_spec in Ha. apply blank_spec in Hb.
  unfold strip. rewrite (lstrip_blank_app a _ Ha).
  destruct line as [|c t].
  - rewrite app_nil_l.
    destruct (lstrip_split b) as [a' [Hsplit _]].
    assert (all_chars isspace (lstrip b) = true) as Hl.
    { apply all_chars_char_of. intros d Hd.
      apply (proj1 (all_chars_char_of isspace b) Hb).
      rewrite Hsplit. apply char_of_app. auto. }
    symmetry. apply rstrip_blank, Hl.
  - assert (isspace c = false) as Hc
      by (rewrite isspace_whitespace; apply (Hfirst c t eq_refl)).
    rewrite app_cons. cbn [lstrip]. rewrite Hc, <- app_cons.
    rewrite (rstrip_app_blank _ b Hb).
    destruct (string_last (String c t)) as [t' [d E]]; [discriminate|].
    rewrite E. symmetry. apply rstrip_kept.
    rewrite isspace_whitespace. apply (Hlast t' d E).
Qed.

(** *** Words *)

Lemma split_ws_words (s : string) :
  length (split_ws s) = word_starts true s
  /\ forall c, isspace c = false ->
       length (split_ws (String c s)) = S (word_starts false s).
Proof.
  induction s as [|d s [IH1 IH2]].
  - split; [reflexivity|]. intros c Hc. cbn [split_ws]. rewrite Hc. reflexivity.
  - split.
    + cbn [word_starts]. rewrite <- isspace_whitespace.
      destruct (isspace d) eqn:Ed.
      * cbn [split_ws]. rewrite Ed. exact IH1.
      * rewrite (IH2 d Ed). reflexivity.
    + intros c Hc. cbn [word_starts]. rewrite <- isspace_whitespace.
      change (split_ws (String c (String d s)))
        with (if isspace c then split_ws (String d s)
              else if isspace d then String c EmptyString :: split_ws (String d s)
              else match split_ws (String d s) with
                   | [] => [String c EmptyString]
                   | w :: ws => String c w :: ws
                   end).
      rewrite Hc. destruct (isspace d) eqn:Ed.
      * cbn [length]. f_equal. cbn [split_ws]. rewrite Ed. exact IH1.
      * pose proof (IH2 d Ed) as H.
        destruct (split_ws (String d s)) as [|w ws]; [discriminate H|exact H].
Qed.

(** [len(line.split())] is the number of words. *)
Lemma split_ws_count (line : string) : length (split_ws line) = word_count line.
Proof. apply split_ws_words. Qed.

(** *** Case *)

Lemma code_inj (a b : ascii) : code a = code b -> a = b.
Proof.
  unfold code. cbv zeta. intros H.
  pose proof (N_ascii_bounded a) as Ha. pose proof (N_ascii_bounded b) as Hb.
  rewrite <- (ascii_N_embedding a), <- (ascii_N_embedding b). f_equal.
  destruct (N.eqb_spec (N_of_ascii a) 150), (N.eqb_spec (N_of_ascii b) 150); lia.
Qed.

Lemma tolower_capital (c : ascii) :
  capital c = true ->
  code (tolower c) = (code c + 32)%N /\ capital (tolower c) = false.
Proof.
  destruct c as [[] [] [] [] [] [] [] []]; vm_compute; intros H;
    try discriminate H; split; reflexivity.
Qed.

Lemma tolower_small (c : ascii) : capital c = false -> tolower c = c.
Proof.
  destruct c as [[] [] [] [] [] [] [] []]; vm_compute; intros H;
    try discriminate H; reflexivity.
Qed.

(** [a.lower() == b.lower()] on characters: the same letter up to case. *)
Lemma tolower_same_letter (a b : ascii) :
  tolower a = tolower b <-> same_letter a b.
Proof.
  unfold same_letter, small_of. split.
  - intros H. destruct (capital a) eqn:Ea, (capital b) eqn:Eb.
    + left. apply code_inj.
      destruct (tolower_capital a Ea) as [Ha _].
      destruct (tolower_capital b Eb) as [Hb _].
      rewrite H in Ha. rewrite Ha in Hb. lia.
    + right. left. split; [reflexivity|].
      destruct (tolower_capital a Ea) as [Ha _].
      rewrite H, (tolower_small b Eb) in Ha. exact Ha.
    + right. right. split; [reflexivity|].
      destruct (tolower_capital b Eb) as [Hb _].
      rewrite <- H, (tolower_small a Ea) in Hb. exact Hb.
    + left. rewrite (tolower_small a Ea), (tolower_small b Eb) in H. exact H.
  - intros [-> | [[Ha Hb] | [Hb Ha]]]; [reflexivity| |].
    + destruct (tolower_capital a Ha) as [Hc Hs].
      assert (tolower a = b) as E by (apply code_inj; congruence).
      rewrite (tolower_small b); [exact E | rewrite <- E; exact Hs].
    + destruct (tolower_capital b Hb) as [Hc Hs].
      assert (tolower b = a) as E by (apply code_inj; congruence).
      rewrite (tolower_small a); [symmetry; exact E | rewrite <- E; exact Hs].
Qed.

(** [s.lower() == t.lower()]: the same string up to case. *)
Lemma lower_same_up_to_case (s t : string) :
  lower s = lower t <-> same_up_to_case s t.
Proof.
  split.
  - revert t. induction s as [|a s IH]; intros [|b t] H; try discriminate H.
    + constructor.
    + cbn [lower] in H. injection H as Hc Hs.
      constructor; [apply tolower_same_letter, Hc | apply IH, Hs].
  - induction 1 as [|a b s t Hab _ IH]; [reflexivity|].
    cbn [lower]. rewrite IH. f_equal. apply tolower_same_letter, Hab.
Qed.

Lemma occurs_ci_up_to_case (sub s : string) :
  occurs_ci sub s <-> occurs_up_to_case sub s.
Proof.
  unfold occurs_ci, occurs_up_to_case.
  split; intros [pre [mid [post [E H]]]]; exists pre, mid, post;
    (split; [exact E | apply lower_same_up_to_case, H]).
Qed.

(** [sub.lower() in s.lower()] is case-insensitive occurrence. *)
Lemma contains_up_to_case (sub s : string) :
  contains (lower sub) (lower s) = true <-> occurs_up_to_case sub s.
Proof. rewrite contains_lower. apply occurs_ci_up_to_case. Qed.

(** A string without capital letters is its own lower-case form. *)
Lemma lower_small (s : string) :
  all_chars (fun c => negb (capital c)) s = true -> lower s = s.
Proof.
  induction s as [|c s IH]; [reflexivity|]. cbn [all_chars lower].
  intros [Hc Hs]%andb_prop. apply negb_true_iff in Hc.
  rewrite (tolower_small c Hc), (IH Hs). reflexivity.
Qed.

(** *** Lines *)

Lemma split_on_lines (sep : ascii) (s : string) :
  split_on sep s <> []
  /\ s = join (String sep EmptyString) (split_on sep s)
  /\ Forall (fun piece => ~ char_of sep piece) (split_on sep s).
Proof.
  induction s as [|c s (Hne & Hjoin & Hall)].
  - split; [discriminate|]. split; [reflexivity|].
    constructor; [apply char_of_empty | constructor].
  - cbn [split_on]. destruct (Ascii.eqb_spec c sep) as [->|Hc].
    + split; [discriminate|]. split.
      * destruct (split_on sep s) as [|w ws] eqn:E; [congruence|].
        cbn [join]. cbn [join] in Hjoin. rewrite <- Hjoin. reflexivity.
      * constructor; [apply char_of_empty | exact Hall].
    + destruct (split_on sep s) as [|w ws] eqn:E; [congruence|].
      split; [discriminate|]. split.
      * cbn [join] in *. destruct ws; rewrite ?app_cons; f_equal; exact Hjoin.
      * inversion Hall as [|? ? Hw Hws]; subst. constructor; [|exact Hws].
        intros [-> | H]%char_of_cons; [congruence | exact (Hw H)].
Qed.

(** [text.split('\n')] gives the lines of the text. *)
Lemma split_on_newline_lines (text : string) : lines_of text (split_on newline text).
Proof. apply split_on_lines. Qed.

(** ** The skills extractor *)

Lemma found_skills_fold (text_lower : string) (skills found : list string) :
  fold_left (fun found skill =>
               if contains (lower skill) text_lower then (found ++ [skill])%list else found)
            skills found
  = (found ++ List.filter (fun skill => contains (lower skill) text_lower) skills)%list.
Proof.
  revert found. induction skills as [|skill skills IH]; intros found.
  - simpl. rewrite app_nil_r. reflexivity.
  - cbn [fold_left List.filter]. rewrite IH.
    destruct (contains (lower skill) text_lower).
    + rewrite <- app_assoc. reflexivity.
    + reflexivity.
Qed.

Lemma found_skills_filter (text : string) :
  found_skills text
  = List.filter (fun skill => contains (lower skill) (lower text)) tech_skills.
Proof. unfold found_skills. rewrite found_skills_fold. reflexivity. Qed.

Lemma in_extract_skills (text skill : string) :
  In skill (extract_skills text) <-> In skill tech_skills /\ occurs_ci skill text.
Proof.
  unfold extract_skills.
  rewrite <- list_elem_of_In, elem_of_elements, elem_of_list_to_set, list_elem_of_In.
  rewrite found_skills_filter, filter_In, contains_lower. reflexivity.
Qed.

Lemma substring_up_to_case (sub sub' s : string) :
  same_up_to_case sub sub' -> substring_of sub s -> occurs_up_to_case sub' s.
Proof. intros H [pre [post ->]]. exists pre, sub, post. auto. Qed.

Lemma skills_no_dup (text : string) : List.NoDup (extract_skills text).
Proof. unfold extract_skills. apply NoDup_ListNoDup. apply NoDup_elements. Qed.

Lemma skill_counted_once (text skill : string) :
  In skill (extract_skills text) ->
  count_occ string_dec (extract_skills text) skill = 1%nat.
Proof.
  intros Hin.
  pose proof (proj1 (NoDup_count_occ string_dec _) (skills_no_dup text) skill) as Hle.
  apply (count_occ_In string_dec) in Hin. lia.
Qed.

(** C7: the skills extractor returns a duplicate-free list of vocabulary
    entries, and a vocabulary entry is in it exactly when it occurs in the
    text case-insensitively, that is when a piece of the text differs from
    it at most in the case of its letters.  A text that mentions "Python"
    and "python" yields the entry "python" exactly once, and so does a text
    that only holds "Python" or "PYTHON"; "Pyth on" yields nothing. *)
Theorem skills_are_the_vocabulary_matches (text : string) :
  List.NoDup (extract_skills text)
  /\ (forall skill, In skill (extract_skills text)
                    <-> In skill tech_skills /\ occurs_up_to_case skill text)
  /\ (substring_of "Python" text -> substring_of "python" text ->
      count_occ string_dec (extract_skills text) "python" = 1%nat)
  /\ (substring_of "Python" text \/ substring_of "PYTHON" text ->
      count_occ string_dec (extract_skills text) "python" = 1%nat)
  /\ extract_skills "Python, PYTHON and python." = ["python"]
  /\ extract_skills "I write Python." = ["python"]
  /\ extract_skills "Node.JS" = ["node.js"]
  /\ extract_skills "Pyth on" = []
  /\ (forall skill, In skill (extract_skills "Machine Learning with PyTorch")
                    <-> skill = "machine learning" \/ skill = "pytorch").
Proof.
  assert (forall skill, In skill (extract_skills text)
                        <-> In skill tech_skills /\ occurs_up_to_case skill text) as Hin.
  { intros skill.
    destruct (in_extract_skills text skill) as [H1 H2]. split.
    - intros H. destruct (H1 H) as [Hv Ho]. split; [exact Hv|].
      apply occurs_ci_up_to_case, Ho.
    - intros [Hv Ho]. apply H2. split; [exact Hv|]. apply occurs_ci_up_to_case, Ho. }
  split; [apply skills_no_dup|]. split; [exact Hin|].
  assert (forall written, same_up_to_case written "python" ->
            substring_of written text ->
            count_occ string_dec (extract_skills text) "python" = 1%nat) as Hcount.
  { intros written Hsame Hsub. apply skill_counted_once.
    apply (proj2 (Hin "python")). split; [left; reflexivity|].
    apply (substring_up_to_case written); assumption. }
  split.
  { intros _. apply Hcount. apply lower_same_up_to_case. reflexivity. }
  split.
  { intros [H | H]; revert H; apply Hcount; apply lower_same_up_to_case; reflexivity. }
  split; [vm_compute; reflexivity|].
  split; [vm_compute; reflexivity|].
  split; [vm_compute; reflexivity|].
  split; [vm_compute; reflexivity|].
  intros skill. split.
  - intros H.
    assert (extract_skills "Machine Learning with PyTorch"
            = elements (list_to_set ["machine learning"; "pytorch"] : gset string)) as E
      by (vm_compute; reflexivity).
    rewrite E in H.
    apply list_elem_of_In, elem_of_elements, elem_of_list_to_set, list_elem_of_In in H.
    destruct H as [<- | [<- | []]]; auto.
  - intros [-> | ->]; vm_compute; tauto.
Qed.

(** ** The matcher *)

Lemma repeat_one_result {A : Type} (cls : ascii -> bool) (rest : string) :
  forall (lo : nat) (hi : option nat) (prev : option ascii)
         (k : option ascii -> string -> option A) (x : A),
    Re.repeat_one cls lo hi prev rest k = Some x ->
    exists prev' rest', k prev' rest' = Some x
                        /\ (String.length rest' <= String.length rest)%nat.
Proof.
  induction rest as [|c rest IH]; intros lo hi prev k x H.
  - simpl in H. destruct lo; [|discriminate H]. exists prev, EmptyString. auto.
  - cbn [Re.repeat_one] in H.
    assert (match lo with 0%nat => k prev (String c rest) | S _ => None end = Some x ->
            exists prev' rest', k prev' rest' = Some x
              /\ (String.length rest' <= String.length (String c rest))%nat) as Hstop.
    { destruct lo; [|discriminate]. intros Hk. exists prev, (String c rest). auto. }
    destruct (negb (Re.bound_reached hi) && cls c); [|exact (Hstop H)].
    destruct (Re.repeat_one cls (Nat.pred lo) (Re.dec_bound hi) (Some c) rest k) as [y|] eqn:E;
      [|exact (Hstop H)].
    injection H as ->. apply IH in E as [prev' [rest' [Hk Hl]]].
    exists prev', rest'. split; [exact Hk|]. cbn [String.length]. lia.
Qed.

(** The matcher answers only through its continuation, and the continuation
    is reached on a suffix of the text. *)
Lemma run_result {A : Type} (r : Re.regex) :
  forall (prev : option ascii) (rest : string) (cs : Re.captures)
         (k : option ascii -> string -> Re.captures -> option A) (x : A),
    Re.run r prev rest cs k = Some x ->
    exists prev' rest' cs', k prev' rest' cs' = Some x
                            /\ (String.length rest' <= String.length rest)%nat.
Proof.
  induction r as [|cls| |r1 IH1 r2 IH2|r1 IH1 r2 IH2|r1 IH1|cls lo hi|n r1 IH1];
    intros prev rest cs k x H; cbn [Re.run] in H.
  - exists prev, rest, cs. auto.
  - destruct rest as [|c rest]; [discriminate H|].
    destruct (cls c); [|discriminate H].
    exists (Some c), rest, cs. split; [exact H|]. cbn [String.length]. lia.
  - destruct (xorb _ _); [|discriminate H]. exists prev, rest, cs. auto.
  - apply IH1 in H as [p1 [s1 [c1 [H Hl1]]]].
    apply IH2 in H as [p2 [s2 [c2 [H Hl2]]]].
    exists p2, s2, c2. split; [exact H | lia].
  - destruct (Re.run r1 prev rest cs k) as [y|] eqn:E.
    + injection H as ->. apply IH1 in E. exact E.
    + apply IH2 in H. exact H.
  - destruct (Re.run r1 prev rest cs k) as [y|] eqn:E.
    + injection H as ->. apply IH1 in E. exact E.
    + exists prev, rest, cs. auto.
  - apply repeat_one_result in H as [p' [s' [H Hl]]]. exists p', s', cs. auto.
  - apply IH1 in H as [p' [s' [c' [H Hl]]]]. eauto.
Qed.

Lemma match_at_from (r : Re.regex) (prev : option ascii) (s : string) (m : Re.match_obj) :
  Re.match_at r prev s = Some m ->
  Re.m_from m = s /\ (String.length (Re.m_rest m) <= String.length s)%nat.
Proof.
  unfold Re.match_at. intros H.
  apply run_result in H as [p' [s' [c' [H Hl]]]]. injection H as <-. auto.
Qed.

Lemma search_from_leftmost (r : Re.regex) (s : string) (prev : option ascii) :
  leftmost_match r prev s (Re.search_from r prev s).
Proof.
  revert prev. induction s as [|c s IH]; intros prev; cbn [Re.search_from].
  - destruct (Re.match_at r prev EmptyString) as [m|] eqn:E.
    + pose proof (match_at_from _ _ _ _ E) as [Hf _].
      exists EmptyString. rewrite Hf. split; [reflexivity|]. split; [exact E|].
      intros pre' post' _ Hl. simpl in Hl. lia.
    + intros pre' post' H. destruct pre'; [|discriminate H].
      rewrite app_nil_l in H. subst post'. exact E.
  - destruct (Re.match_at r prev (String c s)) as [m|] eqn:E.
    + pose proof (match_at_from _ _ _ _ E) as [Hf _].
      exists EmptyString. rewrite Hf. split; [reflexivity|]. split; [exact E|].
      intros pre' post' _ Hl. simpl in Hl. lia.
    + specialize (IH (Some c)).
      destruct (Re.search_from r (Some c) s) as [m|]; cbn [leftmost_match] in *.
      * destruct IH as [pre [Hs [Hm Hfirst]]].
        exists (String c pre). rewrite app_cons, <- Hs. split; [reflexivity|].
        split; [exact Hm|].
        intros pre' post' H Hl. destruct pre' as [|c' pre'].
        -- rewrite app_nil_l in H. subst post'. exact E.
        -- rewrite app_cons in H. injection H as <- H.
           apply Hfirst; [exact H|]. cbn [String.length] in Hl. lia.
      * intros pre' post' H. destruct pre' as [|c' pre'].
        -- rewrite app_nil_l in H. subst post'. exact E.
        -- rewrite app_cons in H. injection H as <- H. apply IH, H.
Qed.

(** The bound on the number of scans never cuts [finditer] short. *)
Lemma finditer_from_bound (r : Re.regex) (n : nat) :
  forall (n' : nat) (prev : option ascii) (s : string),
    (String.length s < n)%nat -> (String.length s < n')%nat ->
    Re.finditer_from n r prev s = Re.finditer_from n' r prev s.
Proof.
  induction n as [|n IH]; intros n' prev s Hn Hn'; [lia|].
  destruct n' as [|n']; [lia|]. cbn [Re.finditer_from].
  pose proof (search_from_leftmost r s prev) as Hs.
  destruct (Re.search_from r prev s) as [m|]; [|reflexivity].
  destruct Hs as [pre [Hs [Hm _]]].
  apply match_at_from in Hm as [_ Hrest].
  assert (String.length (Re.m_from m) <= String.length s)%nat as Hfrom.
  { rewrite Hs, length_app. lia. }
  f_equal.
  destruct (String.length (Re.m_rest m) <? String.length (Re.m_from m))%nat eqn:E.
  - apply Nat.ltb_lt in E. apply IH; lia.
  - destruct (Re.m_rest m) as [|c s'] eqn:Er; [reflexivity|].
    cbn [String.length] in Hrest. apply IH; lia.
Qed.

(** ** The contact extractor *)

Lemma name_ok_line (line : string) : name_ok line = true <-> is_name_line line.
Proof.
  unfold name_ok, short_and_digitless, no_at_no_heading, is_name_line.
  rewrite !andb_true_iff, !negb_true_iff, Nat.leb_le, split_ws_count.
  assert (String.eqb line "" = false <-> line <> EmptyString) as -> by apply String.eqb_neq.
  assert (any_char isdigit line = false <->
          forall c, char_of c line -> digit c = false) as ->.
  { rewrite any_char_char_of. split; intros H c Hc.
    - rewrite <- isdigit_digit. apply H, Hc.
    - rewrite isdigit_digit. apply H, Hc. }
  rewrite has_char_char_of.
  assert (existsb (fun keyword => contains keyword (lower line))
                  ["resume"; "cv"; "curriculum"] = false <->
          forall keyword, In keyword ["resume"; "cv"; "curriculum"] ->
                          ~ occurs_up_to_case keyword line) as ->.
  { rewrite <- not_true_iff_false, existsb_exists. split.
    - intros H keyword Hin Hocc. apply H. exists keyword. split; [exact Hin|].
      apply contains_up_to_case in Hocc.
      destruct Hin as [<- | [<- | [<- | []]]]; exact Hocc.
    - intros H [keyword [Hin Hc]]. apply (H keyword Hin). apply contains_up_to_case.
      destruct Hin as [<- | [<- | [<- | []]]]; exact Hc. }
  tauto.
Qed.

Lemma find_first {A : Type} (p : A -> bool) (l : list A) :
  match List.find p l with
  | Some x =>
      exists i, nth_error l i = Some x /\ p x = true
        /\ forall j y, (j < i)%nat -> nth_error l j = Some y -> p y = false
  | None => forall i y, nth_error l i = Some y -> p y = false
  end.
Proof.
  induction l as [|a l IH]; cbn [List.find].
  - intros i y H. destruct i; discriminate H.
  - destruct (p a) eqn:Ea.
    + exists 0%nat. split; [reflexivity|]. split; [exact Ea|]. intros j y Hj. lia.
    + destruct (List.find p l) as [x|].
      * destruct IH as [i [Hi [Hx Hfirst]]]. exists (S i).
        split; [exact Hi|]. split; [exact Hx|].
        intros [|j] y Hj Hy; [injection Hy as <-; exact Ea|].
        apply (Hfirst j); [lia | exact Hy].
      * intros [|i] y Hy; [injection Hy as <-; exact Ea | apply (IH i), Hy].
Qed.

(** The loop with [break] stores the first accepted line, if any. *)
Lemma name_loop_name (lines : list string) (contact_info : gmap string (option string)) :
  name_loop lines contact_info !! "name"
  = match List.find name_ok (map strip lines) with
    | Some line => Some (Some line)
    | None => contact_info !! "name"
    end.
Proof.
  induction lines as [|line lines IH]; cbn [name_loop map List.find]; [reflexivity|].
  unfold name_ok at 1.
  destruct (short_and_digitless (strip line)); cbn [andb]; [|exact IH].
  destruct (no_at_no_heading (strip line)); [|exact IH].
  apply lookup_insert_eq.
Qed.

Lemma name_loop_other (key : string) (lines : list string)
    (contact_info : gmap string (option string)) :
  key <> "name" -> name_loop lines contact_info !! key = contact_info !! key.
Proof.
  intros Hk. induction lines as [|line lines IH]; cbn [name_loop]; [reflexivity|].
  destruct (short_and_digitless (strip line)); [|exact IH].
  destruct (no_at_no_heading (strip line)); [|exact IH].
  apply lookup_insert_ne. congruence.
Qed.

Lemma contact_name (text : string) :
  extract_contact_info text !! "name"
  = Some (List.find name_ok (map strip (firstn 5 (split_on newline text)))).
Proof.
  unfold extract_contact_info. rewrite name_loop_name.
  destruct (List.find name_ok _); [reflexivity|].
  destruct (Re.search phone_pattern text), (Re.search email_pattern text);
    rewrite ?(lookup_insert_ne _ "phone" "name"), ?(lookup_insert_ne _ "email" "name")
      by discriminate;
    apply lookup_insert_eq.
Qed.

Lemma contact_email (text : string) :
  extract_contact_info text !! "email"
  = Some (Re.group0 <$> Re.search email_pattern text).
Proof.
  unfold extract_contact_info. rewrite name_loop_other by discriminate.
  destruct (Re.search phone_pattern text), (Re.search email_pattern text); cbn [fmap option_fmap option_map];
    rewrite ?(lookup_insert_ne _ "phone" "email") by discriminate;
    rewrite ?lookup_insert_eq; try reflexivity;
    rewrite (lookup_insert_ne _ "name" "email") by discriminate;
    apply lookup_insert_eq.
Qed.

Lemma contact_phone (text : string) :
  extract_contact_info text !! "phone"
  = Some (Re.group0 <$> Re.search phone_pattern text).
Proof.
  unfold extract_contact_info. rewrite name_loop_other by discriminate.
  destruct (Re.search phone_pattern text), (Re.search email_pattern text); cbn [fmap option_fmap option_map];
    rewrite ?lookup_insert_eq; try reflexivity;
    rewrite ?(lookup_insert_ne _ "email" "phone") by discriminate;
    rewrite (lookup_insert_ne _ "name" "phone") by discriminate;
    rewrite (lookup_insert_ne _ "email" "phone") by discriminate;
    apply lookup_insert_eq.
Qed.

Lemma split_on_first_line (sep : ascii) (line rest : string) :
  has_char sep line = false ->
  split_on sep (line +:+ String sep rest) = line :: split_on sep rest.
Proof.
  unfold has_char. induction line as [|c line IH]; intros H.
  - rewrite app_nil_l. cbn [split_on]. rewrite Ascii.eqb_refl. reflexivity.
  - cbn [any_char] in H. apply orb_false_elim in H as [Hc Hl].
    rewrite app_cons. cbn [split_on]. rewrite Ascii.eqb_sym, Hc, (IH Hl). reflexivity.
Qed.

(** C5: the contact name is the first of the first five lines of the text
    that, once the whitespace at its two ends is removed, is non-empty, has
    at most four words, holds no digit and no "@" and none of "resume",
    "cv", "curriculum" in any case; it is null when there is no such line.
    The lines are the pieces of the text between its newline characters.
    A first line "John Smith" is the name, with or without whitespace
    around it, and a first line "CURRICULUM VITAE" is skipped in favour of
    the next one; so is a line of five words, a line with a digit or a
    superscript digit, a line with "@" and a line that holds "cv" inside a
    word.  A line of four words is a name, and a sixth line is never
    looked at. *)
Theorem name_is_first_name_like_line (text : string) :
  (exists lines name,
     lines_of text lines
     /\ extract_contact_info text !! "name" = Some name
     /\ first_name_line lines name)
  /\ extract_contact_info "John Smith" !! "name" = Some (Some "John Smith")
  /\ (forall rest,
        extract_contact_info ("John Smith" +:+ String newline rest) !! "name"
        = Some (Some "John Smith"))
  /\ (forall rest,
        extract_contact_info
          ("CURRICULUM VITAE" +:+ String newline ("Jane Roe" +:+ String newline rest))
          !! "name"
        = Some (Some "Jane Roe"))
  /\ (forall rest,
        extract_contact_info
          ("  " +:+ String "009" ("John Smith " +:+ String "013" (String newline rest)))
          !! "name"
        = Some (Some "John Smith"))
  /\ Forall (fun first_line =>
               extract_contact_info
                 (join (String newline EmptyString) [first_line; "Jane Roe"]) !! "name"
               = Some (Some "Jane Roe"))
            [ "Senior Staff Software Engineer Intern"; "Jane Roe 2"; "Jane Roe²";
              "jane@roe.org"; "My Resume"; "Tim McVeigh"; ""; "   " ]
  /\ extract_contact_info
       (join (String newline EmptyString) ["Mary Ann van Dyke"; "Jane Roe"]) !! "name"
     = Some (Some "Mary Ann van Dyke")
  /\ extract_contact_info
       (join (String newline EmptyString) ["1"; "2"; "3"; "4"; "Jane Roe"; "John Smith"])
       !! "name"
     = Some (Some "Jane Roe")
  /\ extract_contact_info
       (join (String newline EmptyString) ["1"; "2"; "3"; "4"; "5"; "Jane Roe"])
       !! "name"
     = Some None.
Proof.
  split; [|split; [|split; [|split; [|split; [|split; [|split; [|split]]]]]]].
  - exists (split_on newline text). rewrite contact_name. eexists.
    split; [apply split_on_newline_lines|]. split; [reflexivity|].
    pose proof (find_first name_ok (map strip (firstn 5 (split_on newline text)))) as H.
    assert (forall i l, nth_error (map strip (firstn 5 (split_on newline text))) i = Some l ->
              exists raw, (i < 5)%nat /\ nth_error (split_on newline text) i = Some raw
                          /\ l = strip raw) as Hnth.
    { intros i l Hi. rewrite nth_error_map, nth_error_firstn in Hi.
      destruct (i <? 5)%nat eqn:E; [|discriminate Hi]. apply Nat.ltb_lt in E.
      destruct (nth_error (split_on newline text) i) as [raw|]; [|discriminate Hi].
      injection Hi as <-. eauto. }
    assert (forall i raw, (i < 5)%nat -> nth_error (split_on newline text) i = Some raw ->
              nth_error (map strip (firstn 5 (split_on newline text))) i = Some (strip raw))
      as Hnth'.
    { intros i raw Hi Hr. rewrite nth_error_map, nth_error_firstn.
      apply Nat.ltb_lt in Hi. rewrite Hi, Hr. reflexivity. }
    destruct (List.find name_ok _) as [l|]; cbn [first_name_line].
    + destruct H as [i [Hi [Hok Hfirst]]].
      destruct (Hnth i l Hi) as [raw [Hlt [Hraw ->]]].
      exists i, raw. split; [exact Hlt|]. split; [exact Hraw|].
      split; [apply strip_trimmed|].
      split; [apply name_ok_line, Hok|].
      intros j raw' line' Hj Hr' Htrim Hlike.
      apply trimmed_strip in Htrim as ->. apply name_ok_line in Hlike.
      rewrite (Hfirst j (strip raw') Hj) in Hlike; [discriminate Hlike|].
      apply Hnth'; [lia | exact Hr'].
    + intros i raw line Hi Hr Htrim Hlike.
      apply trimmed_strip in Htrim as ->. apply name_ok_line in Hlike.
      rewrite (H i (strip raw)) in Hlike; [discriminate Hlike|].
      apply Hnth'; assumption.
  - rewrite contact_name. reflexivity.
  - intros rest. rewrite contact_name, split_on_first_line by reflexivity.
    reflexivity.
  - intros rest. rewrite contact_name, !split_on_first_line by reflexivity.
    reflexivity.
  - intros rest.
    change ("  " +:+ String "009" ("John Smith " +:+ String "013" (String newline rest)))
      with (("  " +:+ String "009" ("John Smith " +:+ String "013" EmptyString))
            +:+ String newline rest).
    rewrite contact_name, split_on_first_line by reflexivity.
    reflexivity.
  - repeat constructor; rewrite contact_name; reflexivity.
  - rewrite contact_name. reflexivity.
  - rewrite contact_name. reflexivity.
  - rewrite contact_name. reflexivity.
Qed.

(** ** The email pattern on a text that holds the sample sentence *)

Lemma app_assoc_str (a b c : string) : (a +:+ b) +:+ c = a +:+ (b +:+ c).
Proof.
  induction a as [|x a IH]; [reflexivity|]. rewrite !app_cons, IH. reflexivity.
Qed.

Lemma any_char_app (p : ascii -> bool) (a b : string) :
  any_char p (a +:+ b) = any_char p a || any_char p b.
Proof.
  induction a as [|x a IH]; [reflexivity|].
  rewrite app_cons. cbn [any_char]. rewrite IH, orb_assoc. reflexivity.
Qed.

Lemma take_app (t r : string) : PyStr.take (String.length t) (t +:+ r) = t.
Proof.
  induction t as [|c t IH]; [destruct r; reflexivity|].
  rewrite app_cons. cbn [String.length PyStr.take]. rewrite IH. reflexivity.
Qed.

Lemma group0_app (t r : string) (last : option ascii) (cs : Re.captures) :
  Re.group0 (Re.MatchObj (t +:+ r) r last cs) = t.
Proof.
  unfold Re.group0. cbn [Re.m_from Re.m_rest]. rewrite length_app.
  replace (String.length t + String.length r - String.length r)%nat
    with (String.length t) by lia.
  apply take_app.
Qed.

(** A repetition over a run of class characters that ends on a character
    outside the class fails when the continuation fails on every suffix of
    the run. *)
Lemma repeat_one_blocked {A : Type} (cls : ascii -> bool) (l : string) :
  forall (lo : nat) (hi : option nat) (prev : option ascii) (c : ascii) (r : string)
         (k : option ascii -> string -> option A),
    cls c = false ->
    (forall p l1 l2, l = l1 +:+ l2 -> k p (l2 +:+ String c r) = None) ->
    Re.repeat_one cls lo hi prev (l +:+ String c r) k = None.
Proof.
  induction l as [|x l IH]; intros lo hi prev c r k Hc Hk.
  - rewrite app_nil_l. cbn [Re.repeat_one]. rewrite Hc, andb_false_r.
    destruct lo; [|reflexivity]. apply (Hk prev EmptyString EmptyString). reflexivity.
  - rewrite app_cons. cbn [Re.repeat_one].
    assert (match lo with
            | 0%nat => k prev (String x (l +:+ String c r))
            | S _ => None
            end = None) as Hstop.
    { destruct lo; [|reflexivity].
      apply (Hk prev EmptyString (String x l)). reflexivity. }
    destruct (negb (Re.bound_reached hi) && cls x); [|exact Hstop].
    rewrite IH; [exact Hstop | exact Hc |].
    intros p l1 l2 E. apply (Hk p (String x l1) l2). rewrite app_cons, E. reflexivity.
Qed.

Lemma blocked_no_match (prev : option ascii) (s : string) :
  blocked s -> Re.match_at email_pattern prev s = None.
Proof.
  intros [l [c [r [-> [Hl [Hc Hat]]]]]].
  unfold Re.match_at, email_pattern, cat. cbn [fold_right Re.run].
  destruct (xorb _ _); [|reflexivity].
  apply repeat_one_blocked; [exact Hc|].
  intros p l1 l2 E.
  destruct l2 as [|y l2].
  - rewrite app_nil_l. unfold Re.lit. cbn [Re.run]. rewrite Hat. reflexivity.
  - rewrite app_cons. unfold Re.lit. cbn [Re.run].
    assert (email_local y = true) as Hy.
    { rewrite E in Hl. clear -Hl. induction l1 as [|z l1 IH].
      - rewrite app_nil_l in Hl. cbn [all_chars] in Hl.
        apply andb_prop in Hl as [Hy _]. exact Hy.
      - rewrite app_cons in Hl. cbn [all_chars] in Hl.
        apply andb_prop in Hl as [_ Hl]. apply IH, Hl. }
    destruct (Ascii.eqb "@" y) eqn:Ey; [|reflexivity].
    apply Ascii.eqb_eq in Ey as <-. discriminate Hy.
Qed.

Lemma blocked_before_colon (q tail : string) :
  has_char "@" q = false -> blocked (q +:+ String ":" tail).
Proof.
  unfold has_char. induction q as [|a q IH]; intros Hq.
  - exists EmptyString, ":"%char, tail. repeat split; reflexivity.
  - cbn [any_char] in Hq. apply orb_false_elim in Hq as [Ha Hq].
    destruct (email_local a) eqn:El.
    + destruct (IH Hq) as [l [c [r [E [Hl [Hc Hat]]]]]].
      exists (String a l), c, r. rewrite !app_cons, E. cbn [all_chars].
      rewrite El, Hl. auto.
    + exists EmptyString, a, (q +:+ String ":" tail). rewrite app_cons. auto.
Qed.

Lemma search_skips_blocked (q tail : string) :
  forall prev, has_char "@" q = false ->
    Re.search_from email_pattern prev (q +:+ String ":" tail)
    = Re.search_from email_pattern (char_before prev q) (String ":" tail).
Proof.
  induction q as [|a q IH]; intros prev Hq; [reflexivity|].
  pose proof (blocked_before_colon (String a q) tail Hq) as Hb.
  rewrite app_cons in Hb |- *. cbn [Re.search_from].
  rewrite (blocked_no_match prev _ Hb). cbn [char_before]. apply IH.
  unfold has_char in *. cbn [any_char] in Hq. apply orb_false_elim in Hq as [_ Hq].
  exact Hq.
Qed.

(** Wherever the sample sentence stands, the address in it is the first
    match as long as no "@" comes before the sentence. *)
Lemma sample_email (pre post : string) :
  has_char "@" pre = false ->
  Re.group0 <$> Re.search email_pattern
                  (pre +:+ "Contact: jane.doe@example.com for info" +:+ post)
  = Some "jane.doe@example.com".
Proof.
  intros Hpre. unfold Re.search.
  change (pre +:+ "Contact: jane.doe@example.com for info" +:+ post)
    with (pre +:+ "Contact" +:+ String ":" (" jane.doe@example.com for info" +:+ post)).
  rewrite <- app_assoc_str. rewrite search_skips_blocked.
  2:{ unfold has_char in *. rewrite any_char_app, Hpre. reflexivity. }
  cbn [Re.search_from].
  rewrite blocked_no_match.
  2:{ exists EmptyString, ":"%char, (" jane.doe@example.com for info" +:+ post).
      repeat split; reflexivity. }
  change (" jane.doe@example.com for info" +:+ post)
    with (String " " ("jane.doe@example.com for info" +:+ post)).
  cbn [Re.search_from].
  rewrite blocked_no_match.
  2:{ exists EmptyString, " "%char, ("jane.doe@example.com for info" +:+ post).
      repeat split; reflexivity. }
  assert (Re.search_from email_pattern (Some " "%char)
            ("jane.doe@example.com for info" +:+ post)
          = Some (Re.MatchObj ("jane.doe@example.com" +:+ (" for info" +:+ post))
                              (" for info" +:+ post) (Some "m"%char) [])) as ->
    by reflexivity.
  cbn [fmap option_fmap option_map]. rewrite group0_app. reflexivity.
Qed.

(** C6: the contact email is the text of the leftmost match of the email
    pattern and null without a match, and likewise the phone with the phone
    pattern, which takes a parenthesized area code and a country code with
    "-", "." or a space between the parts; in "Contact: jane.doe@example.com for info" the email is
    "jane.doe@example.com", also when that sentence stands inside a longer
    text with no "@" before it. *)
Theorem email_and_phone_are_first_matches (text : string) :
  extract_contact_info text !! "email"
    = Some (Re.group0 <$> Re.search email_pattern text)
  /\ leftmost_match email_pattern None text (Re.search email_pattern text)
  /\ extract_contact_info text !! "phone"
    = Some (Re.group0 <$> Re.search phone_pattern text)
  /\ leftmost_match phone_pattern None text (Re.search phone_pattern text)
  /\ extract_contact_info "Call me at (415) 555-2671 anytime" !! "phone"
    = Some (Some "(415) 555-2671")
  /\ extract_contact_info "Mobile: +1 415.555.2671" !! "phone"
    = Some (Some "+1 415.555.2671")
  /\ extract_contact_info "Contact: jane.doe@example.com for info" !! "email"
    = Some (Some "jane.doe@example.com")
  /\ (forall pre post,
        has_char "@" pre = false ->
        extract_contact_info
          (pre +:+ "Contact: jane.doe@example.com for info" +:+ post) !! "email"
        = Some (Some "jane.doe@example.com")).
Proof.
  split; [apply contact_email|]. split; [apply search_from_leftmost|].
  split; [apply contact_phone|]. split; [apply search_from_leftmost|].
  split; [rewrite contact_phone; reflexivity|].
  split; [rewrite contact_phone; reflexivity|].
  split; [rewrite contact_email; reflexivity|].
  intros pre post Hpre. rewrite contact_email, (sample_email pre post Hpre).
  reflexivity.
Qed.

(** ** The experience and education extractors *)

Section Extractors.

Variable sent_tokenize : string -> result (list string).

Lemma add_matches (sentence : string) (ms : list Re.match_obj)
    (experience : list (gmap string string)) :
  for_each (map (fun m => map (fun i => Re.group i m) (seq 1 2)) ms)
           (add_match sentence) experience
  = Ok (experience ++ map (entry_of_match sentence) ms)%list.
Proof.
  revert experience. induction ms as [|m ms IH]; intros experience.
  - simpl. rewrite app_nil_r. reflexivity.
  - cbn [map for_each]. unfold add_match at 1. cbn [seq map index nth_error bind].
    rewrite IH. rewrite <- app_assoc. reflexivity.
Qed.

Lemma scan_pattern_entries (sentence : string) (pattern : Re.regex)
    (experience : list (gmap string string)) :
  scan_pattern sentence experience pattern
  = Ok (experience ++ map (entry_of_match sentence) (Re.finditer pattern sentence))%list.
Proof.
  unfold scan_pattern, Re.findall_groups.
  destruct (Re.finditer pattern sentence) as [|m ms] eqn:E.
  - simpl. rewrite app_nil_r. reflexivity.
  - rewrite <- E. destruct (map _ (Re.finditer pattern sentence)) eqn:E'.
    + rewrite E in E'. discriminate E'.
    + rewrite <- E'. apply add_matches.
Qed.

Lemma scan_patterns_entries (sentence : string) (patterns : list Re.regex)
    (experience : list (gmap string string)) :
  for_each patterns (scan_pattern sentence) experience
  = Ok (experience ++
        flat_map (fun pattern => map (entry_of_match sentence) (Re.finditer pattern sentence))
                 patterns)%list.
Proof.
  revert experience. induction patterns as [|p ps IH]; intros experience.
  - simpl. rewrite app_nil_r. reflexivity.
  - cbn [for_each flat_map]. rewrite scan_pattern_entries. cbn [bind].
    rewrite IH, <- app_assoc. reflexivity.
Qed.

Lemma scan_sentences_entries (sentences : list string)
    (experience : list (gmap string string)) :
  for_each sentences scan_sentence experience
  = Ok (experience ++ flat_map entries_of_sentence sentences)%list.
Proof.
  revert experience. induction sentences as [|s ss IH]; intros experience.
  - simpl. rewrite app_nil_r. reflexivity.
  - cbn [for_each flat_map]. unfold scan_sentence at 1.
    rewrite scan_patterns_entries. cbn [bind].
    rewrite IH, <- app_assoc. reflexivity.
Qed.

(** The extractor raises what the tokenizer raises and nothing else. *)
Lemma extract_experience_entries (text : string) :
  extract_experience sent_tokenize text
  = (let* sentences := sent_tokenize text in
     Ok (flat_map
           (fun sentence =>
              (map (entry_of_match sentence) (Re.finditer year_range_pattern sentence)
               ++ map (entry_of_match sentence)
                      (Re.finditer month_range_pattern sentence))%list)
           sentences)).
Proof.
  unfold extract_experience.
  destruct (sent_tokenize text) as [sentences|e]; cbn [bind]; [|reflexivity].
  rewrite scan_sentences_entries. cbn [app].
  f_equal. apply flat_map_ext. intros sentence.
  unfold entries_of_sentence, experience_patterns. cbn [flat_map].
  rewrite app_nil_r. reflexivity.
Qed.

(** C8: once the tokenizer has returned the sentences of the text, the
    experience extractor returns, sentence by sentence in the tokenizer's
    order, one entry per match of the year-year pattern followed by one
    entry per match of the month/year-month/year pattern; an entry has the
    two keys "period" and "description", its period is "<g1> - <g2>" and
    its description is the sentence without the whitespace at its ends,
    shared by all the entries of that sentence.  The two dates of a range
    are separated by a hyphen or by an en dash.  In the first sample
    sentence the two year-year ranges come before the month/year range
    that stands between them in the text; in the second sample the range
    "6/2015–current" is matched by both patterns and gives two entries. *)
Theorem experience_entries_per_match (text : string) :
  extract_experience sent_tokenize text
  = (let* sentences := sent_tokenize text in
     Ok (flat_map
           (fun sentence =>
              (map (entry_of_match sentence) (Re.finditer year_range_pattern sentence)
               ++ map (entry_of_match sentence)
                      (Re.finditer month_range_pattern sentence))%list)
           sentences))
  /\ (forall sentence m,
        entry_of_match sentence m !! "period"
          = Some (Re.group 1 m +:+ " - " +:+ Re.group 2 m)
        /\ entry_of_match sentence m !! "description" = Some (strip sentence)
        /\ trimmed sentence (strip sentence)
        /\ dom (entry_of_match sentence m) = {["period"; "description"]})
  /\ (forall c, dash c = true <-> c = "-"%char \/ String c EmptyString = "–")
  /\ (sent_tokenize text
        = Ok [" Acme 2018 - 2020, Initech 03/2015 - 04/2016 and Hooli 2021-Present. "] ->
      exists experience,
        extract_experience sent_tokenize text = Ok experience
        /\ map (fun entry => entry !! "period") experience
           = [Some "2018 - 2020"; Some "2021 - Present"; Some "03/2015 - 04/2016"]
        /\ map (fun entry => entry !! "description") experience
           = repeat
               (Some "Acme 2018 - 2020, Initech 03/2015 - 04/2016 and Hooli 2021-Present.")
               3)
  /\ (sent_tokenize text
        = Ok ["Acme 2018 – 2022"; "No dates here."; " Initech 6/2015–current, Hooli "] ->
      exists experience,
        extract_experience sent_tokenize text = Ok experience
        /\ map (fun entry => entry !! "period") experience
           = [Some "2018 - 2022"; Some "2015 - current"; Some "6/2015 - current"]
        /\ map (fun entry => entry !! "description") experience
           = [Some "Acme 2018 – 2022"; Some "Initech 6/2015–current, Hooli";
              Some "Initech 6/2015–current, Hooli"]).
Proof.
  split; [apply extract_experience_entries|]. split; [|split; [|split]].
  - intros sentence m. unfold entry_of_match, exp_entry. split; [|split; [|split]].
    + apply lookup_insert_eq.
    + rewrite lookup_insert_ne by discriminate. apply lookup_insert_eq.
    + apply strip_trimmed.
    + rewrite !dom_insert_L, dom_empty_L. set_solver.
  - intros c. ascii_cases c; split; intros H; try discriminate H; auto;
      destruct H as [H | H]; discriminate H.
  - intros E. eexists. rewrite extract_experience_entries, E.
    split; [reflexivity|]. split; reflexivity.
  - intros E. eexists. rewrite extract_experience_entries, E.
    split; [reflexivity|]. split; reflexivity.
Qed.

Lemma education_fold (sentences : list string) (education : list (gmap string string)) :
  fold_left (fun education sentence =>
               let sentence_lower := lower sentence in
               if existsb (fun keyword => contains keyword sentence_lower)
                          education_keywords
               then (education ++ [edu_entry (strip sentence)])%list
               else education)
            sentences education
  = (education ++
     map (fun sentence => edu_entry (strip sentence))
         (List.filter mentions_education sentences))%list.
Proof.
  revert education. induction sentences as [|s ss IH]; intros education.
  - simpl. rewrite app_nil_r. reflexivity.
  - cbn [fold_left List.filter]. rewrite IH. unfold mentions_education at 2.
    destruct (existsb _ education_keywords).
    + cbn [map]. rewrite <- app_assoc. reflexivity.
    + reflexivity.
Qed.

End Extractors.

(** ** The education extractor and the orchestrator *)

Lemma name_loop_dom (lines : list string) (contact_info : gmap string (option string)) :
  "name" ∈ dom contact_info -> dom (name_loop lines contact_info) = dom contact_info.
Proof.
  intros Hin. induction lines as [|line lines IH]; cbn [name_loop]; [reflexivity|].
  destruct (short_and_digitless (strip line)); [|exact IH].
  destruct (no_at_no_heading (strip line)); [|exact IH].
  rewrite dom_insert_L. apply subseteq_union_1_L, singleton_subseteq_l, Hin.
Qed.

Lemma contact_keys (text : string) :
  dom (extract_contact_info text) = list_to_set ["name"; "email"; "phone"].
Proof.
  unfold extract_contact_info.
  destruct (Re.search email_pattern text), (Re.search phone_pattern text);
    (rewrite name_loop_dom; rewrite !dom_insert_L, dom_empty_L; set_solver).
Qed.

Section Orchestrator.

Variable sent_tokenize : string -> result (list string).

Lemma mentions_education_spec (sentence : string) :
  mentions_education sentence = true
  <-> exists keyword, In keyword education_keywords
                      /\ substring_of keyword (lower sentence).
Proof.
  unfold mentions_education. rewrite existsb_exists.
  split; intros [keyword [Hin H]]; exists keyword; (split; [exact Hin|]);
    apply contains_spec, H.
Qed.

Lemma education_keywords_small (keyword : string) :
  In keyword education_keywords -> lower keyword = keyword.
Proof.
  intros H. apply lower_small.
  assert (Forall (fun k => all_chars (fun c => negb (capital c)) k = true)
                 education_keywords) as Hall by (repeat constructor).
  rewrite List.Forall_forall in Hall. apply Hall, H.
Qed.

Lemma mentions_education_sentence (sentence : string) :
  mentions_education sentence = true <-> education_sentence sentence.
Proof.
  unfold mentions_education, education_sentence. rewrite existsb_exists.
  split; intros [keyword [Hin H]]; exists keyword; (split; [exact Hin|]).
  - apply contains_up_to_case. rewrite (education_keywords_small keyword Hin). exact H.
  - apply contains_up_to_case in H.
    rewrite (education_keywords_small keyword Hin) in H. exact H.
Qed.

Lemma extract_education_entries (text : string) :
  extract_education sent_tokenize text
  = (let* sentences := sent_tokenize text in
     Ok (map (fun sentence => <["description" := strip sentence]> ∅)
             (List.filter mentions_education sentences))).
Proof.
  unfold extract_education.
  destruct (sent_tokenize text) as [sentences|e]; cbn [bind]; [|reflexivity].
  rewrite education_fold. reflexivity.
Qed.

(** C9: once the tokenizer has returned the sentences of the text, the
    education extractor returns one entry for each sentence whose
    lowercased text contains an education keyword, in the tokenizer's
    order, and nothing for the other sentences.  The entry is the
    dictionary with the single key "description", which holds the sentence
    without the whitespace at its two ends.  A sentence contains a keyword
    in its lowercased text exactly when the keyword occurs in it
    case-insensitively.  The sample sentence, which holds two keywords,
    yields a single entry, also with whitespace around it; a sentence
    without a keyword yields none. *)
Theorem education_one_entry_per_matching_sentence (text : string) :
  extract_education sent_tokenize text
  = (let* sentences := sent_tokenize text in
     Ok (map (fun sentence => <["description" := strip sentence]> ∅)
             (List.filter mentions_education sentences)))
  /\ (forall sentence,
        mentions_education sentence = true
        <-> exists keyword, In keyword education_keywords
                            /\ substring_of keyword (lower sentence))
  /\ (forall sentence,
        mentions_education sentence = true <-> education_sentence sentence)
  /\ (forall sentence,
        trimmed sentence (strip sentence)
        /\ (<["description" := strip sentence]> ∅ : gmap string string) !! "description"
           = Some (strip sentence)
        /\ dom (<["description" := strip sentence]> ∅ : gmap string string)
           = {["description"]})
  /\ (forall sentences,
        sent_tokenize text = Ok sentences ->
        exists education,
          extract_education sent_tokenize text = Ok education
          /\ length education = length (List.filter mentions_education sentences))
  /\ (sent_tokenize text
        = Ok ["Bachelor of Science in Computer Science, State University"] ->
      substring_of "bachelor"
        (lower "Bachelor of Science in Computer Science, State University")
      /\ substring_of "university"
           (lower "Bachelor of Science in Computer Science, State University")
      /\ extract_education sent_tokenize text
         = Ok [ {["description" :=
                    "Bachelor of Science in Computer Science, State University"]} ])
  /\ (sent_tokenize text
        = Ok [ "Worked at Acme."
               ; "  Bachelor of Science in Computer Science, State University "
                 +:+ String newline EmptyString
               ; "Likes chess."
               ; "MBA 2019" ] ->
      extract_education sent_tokenize text
      = Ok [ {["description" :=
                 "Bachelor of Science in Computer Science, State University"]}
             ; {["description" := "MBA 2019"]} ]).
Proof.
  split; [apply extract_education_entries|].
  split; [apply mentions_education_spec|].
  split; [apply mentions_education_sentence|].
  split.
  { intros sentence. split; [apply strip_trimmed|]. split.
    - apply lookup_insert_eq.
    - rewrite dom_insert_L, dom_empty_L. set_solver. }
  split.
  { intros sentences E. eexists. rewrite extract_education_entries, E. cbn [bind].
    split; [reflexivity|]. apply length_map. }
  split.
  { intros E. split; [apply contains_spec; reflexivity|].
    split; [apply contains_spec; reflexivity|].
    rewrite extract_education_entries, E. reflexivity. }
  intros E. rewrite extract_education_entries, E. reflexivity.
Qed.

Lemma parse_resume_value (text : string) (sentences : list string) :
  sent_tokenize text = Ok sentences ->
  exists experience education,
    extract_experience sent_tokenize text = Ok experience
    /\ extract_education sent_tokenize text = Ok education
    /\ parse_resume sent_tokenize text
       = Ok (<["contact_info" := VContact (extract_contact_info text)]>
             (<["skills" := VStrList (extract_skills text)]>
              (<["experience" := VDictList experience]>
               (<["education" := VDictList education]>
                (<["experience_years" := VInt (calculate_experience_years experience)]>
                 ∅))))).
Proof.
  intros E. unfold parse_resume.
  rewrite extract_experience_entries, extract_education_entries, E. cbn [bind].
  eexists _, _. split; [reflexivity|]. split; reflexivity.
Qed.

Lemma tokenizer_failure_propagates (text : string) (e : exn) :
  sent_tokenize text = Raise e -> parse_resume sent_tokenize text = Raise e.
Proof.
  intros E. unfold parse_resume. rewrite extract_experience_entries, E. reflexivity.
Qed.

(** C4, as the code has it: [parse_resume] raises exactly when the sentence
    tokenizer, which it calls outside any handler, raises, and then it
    raises the tokenizer's exception.  When the tokenizer returns,
    [parse_resume] returns a dictionary with exactly the five keys; the
    contact dictionary has its three keys, each null or a string, and a
    text in which the tokenizer finds no sentence gives empty experience
    and education lists and zero years.  The pattern scans end by
    themselves: a larger bound on their number gives the same matches. *)
Theorem parse_resume_raises_only_with_the_tokenizer (text : string) :
  match sent_tokenize text with
  | Raise e => parse_resume sent_tokenize text = Raise e
  | Ok sentences =>
      exists (parsed_data : gmap string pyvalue)
             (experience education : list (gmap string string)),
        parse_resume sent_tokenize text = Ok parsed_data
        /\ extract_experience sent_tokenize text = Ok experience
        /\ extract_education sent_tokenize text = Ok education
        /\ dom parsed_data
           = list_to_set ["contact_info"; "skills"; "experience"; "education";
                          "experience_years"]
        /\ parsed_data !! "contact_info" = Some (VContact (extract_contact_info text))
        /\ (exists name email phone : option string,
              extract_contact_info text !! "name" = Some name
              /\ extract_contact_info text !! "email" = Some email
              /\ extract_contact_info text !! "phone" = Some phone
              /\ dom (extract_contact_info text) = list_to_set ["name"; "email"; "phone"])
        /\ parsed_data !! "skills" = Some (VStrList (extract_skills text))
        /\ parsed_data !! "experience" = Some (VDictList experience)
        /\ parsed_data !! "education" = Some (VDictList education)
        /\ parsed_data !! "experience_years"
           = Some (VInt (calculate_experience_years experience))
        /\ (sentences = [] ->
            experience = [] /\ education = []
            /\ calculate_experience_years experience = 0%Z)
  end
  /\ (forall n pattern sentence,
        (String.length sentence < n)%nat ->
        Re.finditer_from n pattern None sentence = Re.finditer pattern sentence).
Proof.
  split; [|intros n pattern sentence Hn; apply finditer_from_bound; lia].
  destruct (sent_tokenize text) as [sentences|e] eqn:E;
    [|apply tokenizer_failure_propagates, E].
  destruct (parse_resume_value text sentences E) as (experience & education & He & Hd & Hv).
  eexists _, experience, education.
  split; [exact Hv|]. split; [exact He|]. split; [exact Hd|].
  split.
  { rewrite !dom_insert_L, dom_empty_L. cbn [list_to_set]. reflexivity. }
  split; [apply lookup_insert_eq|].
  split.
  { rewrite contact_name, contact_email, contact_phone.
    do 3 eexists. split; [reflexivity|]. split; [reflexivity|]. split; [reflexivity|].
    apply contact_keys. }
  split.
  { rewrite lookup_insert_ne by discriminate. apply lookup_insert_eq. }
  split.
  { rewrite !(lookup_insert_ne _ _ "experience") by discriminate.
    apply lookup_insert_eq. }
  split.
  { rewrite !(lookup_insert_ne _ _ "education") by discriminate.
    apply lookup_insert_eq. }
  split.
  { rewrite !(lookup_insert_ne _ _ "experience_years") by discriminate.
    apply lookup_insert_eq. }
  intros ->. rewrite extract_experience_entries, E in He.
  rewrite extract_education_entries, E in Hd.
  cbn in He, Hd. injection He as <-. injection Hd as <-. auto.
Qed.

End Orchestrator.

(** C4, as the claim has it, fails: when the tokenizer's data files are
    missing [sent_tokenize] raises a [LookupError] on every text, and
    [parse_resume] raises it in turn instead of returning a record. *)
Lemma parse_resume_raises_with_the_tokenizer :
  parse_resume (fun _ => Raise LookupError) "John Smith" = Raise LookupError
  /\ ~ (forall sent_tokenize text, exists parsed_data,
          parse_resume sent_tokenize text = Ok parsed_data).
Proof.
  split; [reflexivity|].
  intros H. destruct (H (fun _ => Raise LookupError) "John Smith") as [parsed_data Hp].
  discriminate Hp.
Qed.

(** ** Soundness of the matcher *)

Lemma repeat_one_sound {A : Type} (cls : ascii -> bool) (rest : string) :
  forall (lo : nat) (hi : option nat) (prev : option ascii)
         (k : option ascii -> string -> option A) (x : A),
    Re.repeat_one cls lo hi prev rest k = Some x ->
    exists l s', rest = l +:+ s' /\ all_chars cls l = true
      /\ (lo <= String.length l)%nat
      /\ (forall h, hi = Some h -> (String.length l <= h)%nat)
      /\ k (char_before prev l) s' = Some x.
Proof.
  induction rest as [|c rest IH]; intros lo hi prev k x H.
  - simpl in H. destruct lo; [|discriminate H].
    exists EmptyString, EmptyString. repeat split; auto. intros h _. simpl. lia.
  - cbn [Re.repeat_one] in H.
    assert (match lo with 0%nat => k prev (String c rest) | S _ => None end = Some x ->
            exists l s', String c rest = l +:+ s' /\ all_chars cls l = true
              /\ (lo <= String.length l)%nat
              /\ (forall h, hi = Some h -> (String.length l <= h)%nat)
              /\ k (char_before prev l) s' = Some x) as Hstop.
    { destruct lo; [|discriminate]. intros Hk.
      exists EmptyString, (String c rest). repeat split; auto. intros h _. simpl. lia. }
    destruct (negb (Re.bound_reached hi) && cls c) eqn:Etake; [|exact (Hstop H)].
    destruct (Re.repeat_one cls (Nat.pred lo) (Re.dec_bound hi) (Some c) rest k) as [y|] eqn:E;
      [|exact (Hstop H)].
    injection H as ->. apply andb_prop in Etake as [Hb Hc].
    apply IH in E as [l [s' [-> [Hl [Hlo [Hhi Hk]]]]]].
    exists (String c l), s'. rewrite app_cons. cbn [all_chars String.length char_before].
    rewrite Hc, Hl. repeat split; auto; [lia|].
    intros h ->. destruct h as [|h]; [discriminate Hb|].
    specialize (Hhi h eq_refl). lia.
Qed.

(** Whatever the matcher answers comes from a match of the pattern followed
    by a successful continuation. *)
Lemma run_sound {A : Type} (r : Re.regex) :
  forall (prev : option ascii) (s : string) (cs : Re.captures)
         (k : option ascii -> string -> Re.captures -> option A) (x : A),
    Re.run r prev s cs k = Some x ->
    exists prev' s' cs', matches r prev s cs prev' s' cs' /\ k prev' s' cs' = Some x.
Proof.
  induction r as [|cls| |r1 IH1 r2 IH2|r1 IH1 r2 IH2|r1 IH1|cls lo hi|n r1 IH1];
    intros prev s cs k x H; cbn [Re.run] in H.
  - exists prev, s, cs. split; [constructor | exact H].
  - destruct s as [|c s]; [discriminate H|].
    destruct (cls c) eqn:Ec; [|discriminate H].
    exists (Some c), s, cs. split; [constructor; exact Ec | exact H].
  - destruct (xorb _ _) eqn:Eb; [|discriminate H].
    exists prev, s, cs. split; [constructor; exact Eb | exact H].
  - apply IH1 in H as [p1 [s1 [c1 [M1 H]]]].
    apply IH2 in H as [p2 [s2 [c2 [M2 H]]]].
    exists p2, s2, c2. split; [econstructor; eassumption | exact H].
  - destruct (Re.run r1 prev s cs k) as [y|] eqn:E.
    + injection H as ->. apply IH1 in E as [p' [s' [c' [M Hk]]]].
      exists p', s', c'. split; [apply matches_alt_l, M | exact Hk].
    + apply IH2 in H as [p' [s' [c' [M Hk]]]].
      exists p', s', c'. split; [apply matches_alt_r, M | exact Hk].
  - destruct (Re.run r1 prev s cs k) as [y|] eqn:E.
    + injection H as ->. apply IH1 in E as [p' [s' [c' [M Hk]]]].
      exists p', s', c'. split; [apply matches_opt_some, M | exact Hk].
    + exists prev, s, cs. split; [apply matches_opt_none | exact H].
  - apply repeat_one_sound in H as [l [s' [-> [Hl [Hlo [Hhi Hk]]]]]].
    exists (char_before prev l), s', cs. split; [constructor; assumption | exact Hk].
  - apply IH1 in H as [p' [s' [c' [M Hk]]]].
    eexists _, _, _. split; [apply matches_group, M | exact Hk].
Qed.

Lemma match_at_sound (r : Re.regex) (prev : option ascii) (s : string) (m : Re.match_obj) :
  Re.match_at r prev s = Some m ->
  Re.m_from m = s /\ matches r prev s [] (Re.m_last m) (Re.m_rest m) (Re.m_caps m).
Proof.
  unfold Re.match_at. intros H.
  apply run_sound in H as [p' [s' [c' [M H]]]]. injection H as <-. auto.
Qed.

(** A match consumes a prefix of the text it starts on. *)
Lemma matches_suffix r prev s cs prev' s' cs' :
  matches r prev s cs prev' s' cs' -> exists mid, s = mid +:+ s'.
Proof.
  induction 1 as [| cls c | | ? ? ? ? ? ? ? ? ? ? ? _ [m1 ->] _ [m2 ->] | | | | | |];
    try (exists EmptyString; reflexivity); try assumption.
  - exists (String c EmptyString). reflexivity.
  - exists (m1 +:+ m2). rewrite app_assoc_str. reflexivity.
  - eexists. reflexivity.
Qed.

Lemma search_sound (r : Re.regex) (text : string) (m : Re.match_obj) :
  Re.search r text = Some m ->
  exists pre, text = pre +:+ Re.m_from m
    /\ matches r (char_before None pre) (Re.m_from m) []
               (Re.m_last m) (Re.m_rest m) (Re.m_caps m).
Proof.
  intros H. pose proof (search_from_leftmost r text None) as L.
  unfold Re.search in H. rewrite H in L. destruct L as [pre [E [Hm _]]].
  exists pre. split; [exact E|]. apply match_at_sound in Hm as [_ M]. exact M.
Qed.

(** [m.group()] is a piece of the text. *)
Lemma search_group0_substring (r : Re.regex) (text : string) (m : Re.match_obj) :
  Re.search r text = Some m -> substring_of (Re.group0 m) text.
Proof.
  intros H. apply search_sound in H as [pre [E M]].
  apply matches_suffix in M as [mid Emid].
  exists pre, (Re.m_rest m). rewrite E at 1. f_equal.
  unfold Re.group0. rewrite Emid, length_app.
  replace (String.length mid + String.length (Re.m_rest m)
           - String.length (Re.m_rest m))%nat with (String.length mid) by lia.
  rewrite take_app. reflexivity.
Qed.

(** ** The shape of an extracted email address *)

Lemma cons_app (c : ascii) (s : string) : String c s = String c EmptyString +:+ s.
Proof. reflexivity. Qed.

Lemma contact_email_match (text email : string) :
  extract_contact_info text !! "email" = Some (Some email) ->
  exists m, Re.search email_pattern text = Some m /\ email = Re.group0 m.
Proof.
  rewrite contact_email. intros H.
  destruct (Re.search email_pattern text) as [m|]; [|discriminate H].
  injection H as <-. eauto.
Qed.

Lemma contact_phone_match (text phone : string) :
  extract_contact_info text !! "phone" = Some (Some phone) ->
  exists m, Re.search phone_pattern text = Some m /\ phone = Re.group0 m.
Proof.
  rewrite contact_phone. intros H.
  destruct (Re.search phone_pattern text) as [m|]; [|discriminate H].
  injection H as <-. eauto.
Qed.

(** X1: an extracted email is a piece of the text of the form
    local@domain.tld: a non-empty local part over [A-Za-z0-9._%+-], a
    non-empty domain over [A-Za-z0-9.-] and a last label of at least two
    characters over [A-Z|a-z]. *)
Theorem extracted_email_shape (text email : string) :
  extract_contact_info text !! "email" = Some (Some email) ->
  substring_of email text
  /\ exists local domain tld,
       email = local +:+ "@" +:+ domain +:+ "." +:+ tld
       /\ (1 <= String.length local)%nat /\ all_chars email_local local = true
       /\ (1 <= String.length domain)%nat /\ all_chars email_domain domain = true
       /\ (2 <= String.length tld)%nat /\ all_chars email_tld tld = true.
Proof.
  intros H. apply contact_email_match in H as [m [Hs ->]].
  split; [apply (search_group0_substring _ _ _ Hs)|].
  apply search_sound in Hs as [pre [_ M]].
  destruct m as [from rest last caps]. cbn [Re.m_from Re.m_rest Re.m_last Re.m_caps] in M.
  unfold email_pattern, cat, Re.lit in M. cbn [fold_right] in M.
  invert_matches.
  repeat match goal with
         | H : Ascii.eqb _ _ = true |- _ => apply Ascii.eqb_eq in H; subst
         end.
  match goal with
  | |- context [Re.MatchObj (?l1 +:+ String "@" (?l2 +:+ String "." (?l3 +:+ rest)))] =>
      exists l1, l2, l3;
      replace (l1 +:+ String "@" (l2 +:+ String "." (l3 +:+ rest)))
        with ((l1 +:+ "@" +:+ l2 +:+ "." +:+ l3) +:+ rest)
        by (rewrite !app_assoc_str; reflexivity)
  end.
  rewrite group0_app. repeat split; assumption.
Qed.

Lemma extracted_email_shape_witness :
  substring_of "jane.doe@example.com" "Contact: jane.doe@example.com for info"
  /\ exists local domain tld,
       "jane.doe@example.com" = local +:+ "@" +:+ domain +:+ "." +:+ tld
       /\ (1 <= String.length local)%nat /\ all_chars email_local local = true
       /\ (1 <= String.length domain)%nat /\ all_chars email_domain domain = true
       /\ (2 <= String.length tld)%nat /\ all_chars email_tld tld = true.
Proof.
  apply (extracted_email_shape "Contact: jane.doe@example.com for info").
  rewrite contact_email. reflexivity.
Defined.

(** ** The shape of an extracted phone number *)

Lemma count_chars_app (p : ascii -> bool) (a b : string) :
  count_chars p (a +:+ b) = (count_chars p a + count_chars p b)%nat.
Proof.
  induction a as [|c a IH]; [reflexivity|].
  rewrite app_cons. cbn [count_chars]. rewrite IH. lia.
Qed.

Lemma all_chars_app (p : ascii -> bool) (a b : string) :
  all_chars p (a +:+ b) = all_chars p a && all_chars p b.
Proof.
  induction a as [|c a IH]; [reflexivity|].
  rewrite app_cons. cbn [all_chars]. rewrite IH, andb_assoc. reflexivity.
Qed.

Lemma count_chars_all (p : ascii -> bool) (l : string) :
  all_chars p l = true -> count_chars p l = String.length l.
Proof.
  induction l as [|c l IH]; [reflexivity|]. cbn [all_chars count_chars String.length].
  intros [-> Hl]%andb_prop. rewrite (IH Hl). reflexivity.
Qed.

Lemma count_chars_none (cls p : ascii -> bool) (l : string) :
  (forall c, cls c = true -> p c = false) ->
  all_chars cls l = true -> count_chars p l = 0%nat.
Proof.
  intros Hd. induction l as [|c l IH]; [reflexivity|]. cbn [all_chars count_chars].
  intros [Hc Hl]%andb_prop. rewrite (Hd c Hc), (IH Hl). reflexivity.
Qed.

Lemma all_chars_impl (cls q : ascii -> bool) (l : string) :
  (forall c, cls c = true -> q c = true) ->
  all_chars cls l = true -> all_chars q l = true.
Proof.
  intros Hi. induction l as [|c l IH]; [reflexivity|]. cbn [all_chars].
  intros [Hc Hl]%andb_prop. rewrite (Hi c Hc), (IH Hl). reflexivity.
Qed.


Lemma phone_match_pieces prev s cs prev' s' cs' :
  matches phone_pattern prev s cs prev' s' cs' ->
  exists plus cc sep0 open area close sep1 mid sep2 last,
    s = (plus +:+ cc +:+ sep0 +:+ open +:+ area +:+ close +:+ sep1 +:+ mid
         +:+ sep2 +:+ last) +:+ s'
    /\ phone_piece (Ascii.eqb "+") 0 1 plus
    /\ phone_piece isdecimal 0 3 cc
    /\ phone_piece (fun c => one_of "-." c || isspace c) 0 1 sep0
    /\ phone_piece (Ascii.eqb "(") 0 1 open
    /\ phone_piece isdecimal 3 3 area
    /\ phone_piece (Ascii.eqb ")") 0 1 close
    /\ phone_piece (fun c => one_of "-." c || isspace c) 0 1 sep1
    /\ phone_piece isdecimal 3 3 mid
    /\ phone_piece (fun c => one_of "-." c || isspace c) 0 1 sep2
    /\ phone_piece isdecimal 4 4 last.
Proof.
  intros M. unfold phone_pattern, cat in M. cbn [fold_right] in M.
  invert_matches;
    repeat match goal with
           | H : forall h, Some ?n = Some h -> _ |- _ => specialize (H n eq_refl)
           end.
  - match goal with
    | |- context [?l1 +:+ ?l2 +:+ ?l3 +:+ ?l4 +:+ ?l5 +:+ ?l6 +:+ ?l7 +:+ ?l8 +:+ ?l9 +:+ ?l10 +:+ s'] =>
        exists l1, l2, l3, l4, l5, l6, l7, l8, l9, l10
    end.
    split; [rewrite !app_assoc_str; reflexivity|].
    unfold phone_piece. repeat split; try assumption; lia.
  - match goal with
    | |- context [?l4 +:+ ?l5 +:+ ?l6 +:+ ?l7 +:+ ?l8 +:+ ?l9 +:+ ?l10 +:+ s'] =>
        exists EmptyString, EmptyString, EmptyString, l4, l5, l6, l7, l8, l9, l10
    end.
    split; [rewrite !app_assoc_str; reflexivity|].
    unfold phone_piece. repeat split; try assumption; try reflexivity; simpl; lia.
Qed.

Lemma plus_not_decimal (c : ascii) : Ascii.eqb "+" c = true -> isdecimal c = false.
Proof. ascii_cases c. Qed.

Lemma open_not_decimal (c : ascii) : Ascii.eqb "(" c = true -> isdecimal c = false.
Proof. ascii_cases c. Qed.

Lemma close_not_decimal (c : ascii) : Ascii.eqb ")" c = true -> isdecimal c = false.
Proof. ascii_cases c. Qed.

Lemma sep_not_decimal (c : ascii) :
  one_of "-." c || isspace c = true -> isdecimal c = false.
Proof. ascii_cases c. Qed.

Lemma plus_punct (c : ascii) :
  Ascii.eqb "+" c = true -> isdecimal c || phone_punct c = true.
Proof. ascii_cases c. Qed.

Lemma open_punct (c : ascii) :
  Ascii.eqb "(" c = true -> isdecimal c || phone_punct c = true.
Proof. ascii_cases c. Qed.

Lemma close_punct (c : ascii) :
  Ascii.eqb ")" c = true -> isdecimal c || phone_punct c = true.
Proof. ascii_cases c. Qed.

Lemma sep_punct (c : ascii) :
  one_of "-." c || isspace c = true -> isdecimal c || phone_punct c = true.
Proof. ascii_cases c. Qed.

Lemma decimal_punct (c : ascii) :
  isdecimal c = true -> isdecimal c || phone_punct c = true.
Proof. intros ->. reflexivity. Qed.

(** X2: an extracted phone number is a piece of the text made of digits,
    "+", "-", ".", parentheses and whitespace only; it holds between 10 and
    13 decimal digits and at most 19 characters. *)
Theorem extracted_phone_shape (text phone : string) :
  extract_contact_info text !! "phone" = Some (Some phone) ->
  substring_of phone text
  /\ all_chars (fun c => isdecimal c || phone_punct c) phone = true
  /\ (10 <= count_chars isdecimal phone <= 13)%nat
  /\ (String.length phone <= 19)%nat.
Proof.
  intros H. apply contact_phone_match in H as [m [Hs ->]].
  split; [apply (search_group0_substring _ _ _ Hs)|].
  apply search_sound in Hs as [pre [_ M]].
  destruct m as [from rest last caps]. cbn [Re.m_from Re.m_rest Re.m_last Re.m_caps] in M.
  apply phone_match_pieces in M
    as (plus & cc & sep0 & open & area & close & sep1 & mid & sep2 & last4 & ->
        & [Hplus ?] & [Hcc ?] & [Hsep0 ?] & [Hopen ?] & [Harea ?] & [Hclose ?]
        & [Hsep1 ?] & [Hmid ?] & [Hsep2 ?] & [Hlast ?]).
  rewrite group0_app. split; [|split].
  - rewrite !all_chars_app.
    rewrite (all_chars_impl _ _ plus plus_punct Hplus),
            (all_chars_impl _ _ cc decimal_punct Hcc),
            (all_chars_impl _ _ sep0 sep_punct Hsep0),
            (all_chars_impl _ _ open open_punct Hopen),
            (all_chars_impl _ _ area decimal_punct Harea),
            (all_chars_impl _ _ close close_punct Hclose),
            (all_chars_impl _ _ sep1 sep_punct Hsep1),
            (all_chars_impl _ _ mid decimal_punct Hmid),
            (all_chars_impl _ _ sep2 sep_punct Hsep2),
            (all_chars_impl _ _ last4 decimal_punct Hlast).
    reflexivity.
  - rewrite !count_chars_app.
    rewrite (count_chars_none _ _ plus plus_not_decimal Hplus),
            (count_chars_all _ cc Hcc),
            (count_chars_none _ _ sep0 sep_not_decimal Hsep0),
            (count_chars_none _ _ open open_not_decimal Hopen),
            (count_chars_all _ area Harea),
            (count_chars_none _ _ close close_not_decimal Hclose),
            (count_chars_none _ _ sep1 sep_not_decimal Hsep1),
            (count_chars_all _ mid Hmid),
            (count_chars_none _ _ sep2 sep_not_decimal Hsep2),
            (count_chars_all _ last4 Hlast).
    lia.
  - rewrite !length_app. lia.
Qed.

Lemma extracted_phone_shape_witness :
  substring_of "(415) 555-2671" "Call me at (415) 555-2671 anytime"
  /\ all_chars (fun c => isdecimal c || phone_punct c) "(415) 555-2671" = true
  /\ (10 <= count_chars isdecimal "(415) 555-2671" <= 13)%nat
  /\ (String.length "(415) 555-2671" <= 19)%nat.
Proof.
  apply (extracted_phone_shape "Call me at (415) 555-2671 anytime").
  rewrite contact_phone. reflexivity.
Defined.

(** ** More on the skills extractor *)

Lemma occurs_ci_embed (skill text pre post : string) :
  occurs_ci skill text -> occurs_ci skill (pre +:+ text +:+ post).
Proof.
  intros [a [mid [b [-> H]]]]. exists (pre +:+ a), mid, (b +:+ post).
  split; [|exact H]. rewrite !app_assoc_str. reflexivity.
Qed.

Lemma occurs_ci_part (part skill text : string) :
  substring_of part skill -> occurs_ci skill text -> occurs_ci part text.
Proof.
  intros [p [q ->]] [a [mid [b [-> H]]]].
  rewrite !lower_app in H.
  apply lower_split in H as [m1 [m' [-> [H1 H]]]].
  apply lower_split in H as [m2 [m3 [-> [H2 H3]]]].
  exists (a +:+ m1), m2, (m3 +:+ b). split; [|exact H2].
  rewrite !app_assoc_str. reflexivity.
Qed.

(** X3: matching has no word boundaries, so a vocabulary entry that is part
    of another one is reported with it: "javascript" brings "java", and
    "mysql" and "postgresql" bring "sql". *)
Theorem overlapping_skills_come_together (text : string) :
  (forall part skill,
     In part tech_skills -> substring_of part skill ->
     In skill (extract_skills text) -> In part (extract_skills text))
  /\ (In "javascript" (extract_skills text) -> In "java" (extract_skills text))
  /\ (In "mysql" (extract_skills text) -> In "sql" (extract_skills text))
  /\ (In "postgresql" (extract_skills text) -> In "sql" (extract_skills text)).
Proof.
  assert (forall part skill,
            In part tech_skills -> substring_of part skill ->
            In skill (extract_skills text) -> In part (extract_skills text)) as H.
  { intros part skill Hpart Hsub Hin.
    destruct (proj1 (in_extract_skills text skill) Hin) as [_ Hocc].
    apply (proj2 (in_extract_skills text part)). split; [exact Hpart|].
    apply (occurs_ci_part part skill text Hsub Hocc). }
  split; [exact H|]. split; [|split]; apply H.
  - cbv; tauto.
  - exists EmptyString, "script". reflexivity.
  - cbv; tauto.
  - exists "my", EmptyString. reflexivity.
  - cbv; tauto.
  - exists "postgre", EmptyString. reflexivity.
Qed.

(** X4: a skill found in a text is found in every text that contains it:
    text added before or after never removes a skill. *)
Theorem skills_grow_with_text (text pre post skill : string) :
  In skill (extract_skills text) ->
  In skill (extract_skills (pre +:+ text +:+ post)).
Proof.
  intros Hin. destruct (proj1 (in_extract_skills text skill) Hin) as [Hv Hocc].
  apply (proj2 (in_extract_skills (pre +:+ text +:+ post) skill)).
  split; [exact Hv | apply occurs_ci_embed, Hocc].
Qed.

Lemma skills_grow_with_text_witness :
  In "python" (extract_skills ("I like " +:+ "Python" +:+ " a lot")).
Proof.
  apply (skills_grow_with_text "Python" "I like " " a lot" "python").
  apply (proj2 (in_extract_skills "Python" "python")). split; [left; reflexivity|].
  exists EmptyString, "Python", EmptyString. split; reflexivity.
Defined.

(** ** More on the experience aggregator *)

Lemma sum_Z_app (a b : list Z) : sum_Z (a ++ b) = (sum_Z a + sum_Z b)%Z.
Proof. induction a as [|x a IH]; cbn [app sum_Z]; [reflexivity | rewrite IH; lia]. Qed.

Lemma calculate_sum (experience : list (gmap string string)) :
  calculate_experience_years experience = sum_Z (map contribution experience).
Proof.
  unfold calculate_experience_years, calculate_experience_years_with.
  rewrite fold_add_years. lia.
Qed.

(** X5: the total is additive over the concatenation of entry lists and does
    not depend on the order of the entries. *)
Theorem total_additive_and_order_free :
  (forall a b : list (gmap string string),
     calculate_experience_years (a ++ b)
     = (calculate_experience_years a + calculate_experience_years b)%Z)
  /\ (forall a b : list (gmap string string),
        Permutation a b ->
        calculate_experience_years a = calculate_experience_years b).
Proof.
  split.
  - intros a b. rewrite !calculate_sum, map_app, sum_Z_app. reflexivity.
  - intros a b P. rewrite !calculate_sum.
    induction P as [|x a b _ IH|x y a|a b c _ IH1 _ IH2]; cbn [map sum_Z]; lia.
Qed.

(** X6: only the "period" of an entry counts.  Two lists whose entries have
    the same periods, a missing "period" key standing for the empty string,
    give the same total; an entry without the key adds nothing. *)
Theorem total_reads_periods_only :
  (forall a b : list (gmap string string),
     map (fun exp => default "" (exp !! "period")) a
     = map (fun exp => default "" (exp !! "period")) b ->
     calculate_experience_years a = calculate_experience_years b)
  /\ (forall (exp : gmap string string) (experience : list (gmap string string)),
        exp !! "period" = None ->
        calculate_experience_years (exp :: experience)
        = calculate_experience_years experience).
Proof.
  split.
  - intros a b H. rewrite !calculate_sum. f_equal.
    revert b H. induction a as [|x a IH]; intros [|y b] H; try discriminate H;
      [reflexivity|].
    cbn [map] in *. injection H as Hxy H. rewrite (IH b H).
    unfold contribution. rewrite Hxy. reflexivity.
  - intros exp experience H. rewrite !calculate_sum. cbn [map sum_Z].
    unfold contribution at 1. rewrite H. reflexivity.
Qed.

(** ** The extracted name is a trimmed piece of a line *)

Lemma split_on_head_prefix (sep : ascii) (s w : string) (ws : list string) :
  split_on sep s = w :: ws -> exists post, s = w +:+ post.
Proof.
  revert w ws. induction s as [|c s IH]; intros w ws H; cbn [split_on] in H.
  - injection H as <- <-. exists EmptyString. reflexivity.
  - destruct (Ascii.eqb c sep).
    + injection H as <- <-. exists (String c s). reflexivity.
    + destruct (split_on sep s) as [|w' ws'] eqn:E.
      * injection H as <- <-. exists s. reflexivity.
      * injection H as <- <-. destruct (IH w' ws' eq_refl) as [post ->].
        exists post. reflexivity.
Qed.

Lemma substring_of_cons (c : ascii) (raw s : string) :
  substring_of raw s -> substring_of raw (String c s).
Proof. intros [pre [post ->]]. exists (String c pre), post. reflexivity. Qed.

(** A piece of [s.split(sep)] stands in [s] and holds no separator. *)
Lemma split_on_pieces (sep : ascii) (s raw : string) :
  In raw (split_on sep s) -> has_char sep raw = false /\ substring_of raw s.
Proof.
  revert raw. induction s as [|c s IH]; intros raw H; cbn [split_on] in H.
  - destruct H as [<- | []]. split; [reflexivity|].
    exists EmptyString, EmptyString. reflexivity.
  - destruct (Ascii.eqb c sep) eqn:Ec.
    + destruct H as [<- | H].
      * split; [reflexivity|]. exists EmptyString, (String c s). reflexivity.
      * destruct (IH raw H) as [Hn Hs]. split; [exact Hn|].
        apply substring_of_cons, Hs.
    + destruct (split_on sep s) as [|w ws] eqn:E.
      * destruct H as [<- | []]. split.
        -- unfold has_char. cbn [any_char]. rewrite Ascii.eqb_sym, Ec. reflexivity.
        -- exists EmptyString, s. reflexivity.
      * destruct H as [<- | H].
        -- destruct (IH w (or_introl eq_refl)) as [Hn _].
           destruct (split_on_head_prefix sep s w ws E) as [post ->]. split.
           ++ unfold has_char in *. cbn [any_char]. rewrite Ascii.eqb_sym, Ec. exact Hn.
           ++ exists EmptyString, post. reflexivity.
        -- destruct (IH raw (or_intror H)) as [Hn Hs]. split; [exact Hn|].
           apply substring_of_cons, Hs.
Qed.

Lemma lstrip_suffix (s : string) : exists a, s = a +:+ lstrip s.
Proof.
  induction s as [|c s [a IH]]; [exists EmptyString; reflexivity|].
  cbn [lstrip]. destruct (isspace c).
  - exists (String c a). rewrite app_cons, <- IH. reflexivity.
  - exists EmptyString. reflexivity.
Qed.

Lemma rstrip_prefix (s : string) : exists b, s = rstrip s +:+ b.
Proof.
  induction s as [|c s [b IH]]; [exists EmptyString; reflexivity|].
  cbn [rstrip]. destruct (rstrip s) as [|d r] eqn:E.
  - destruct (isspace c).
    + exists (String c s). reflexivity.
    + exists b. rewrite app_cons, <- IH. reflexivity.
  - exists b. rewrite app_cons, <- IH. reflexivity.
Qed.

Lemma strip_substring (s : string) : substring_of (strip s) s.
Proof.
  unfold strip. destruct (lstrip_suffix s) as [a Ha].
  destruct (rstrip_prefix (lstrip s)) as [b Hb].
  exists a, b. rewrite <- Hb. exact Ha.
Qed.

Lemma lstrip_head (s : string) (c : ascii) (t : string) :
  lstrip s = String c t -> isspace c = false.
Proof.
  induction s as [|d s IH]; cbn [lstrip]; [discriminate|].
  destruct (isspace d) eqn:Ed; [exact IH|].
  intros H. injection H as <- _. exact Ed.
Qed.

Lemma rstrip_idempotent (s : string) : rstrip (rstrip s) = rstrip s.
Proof.
  induction s as [|c s IH]; [reflexivity|]. cbn [rstrip].
  destruct (rstrip s) as [|d r] eqn:E.
  - destruct (isspace c) eqn:Ec; [reflexivity|]. cbn [rstrip]. rewrite Ec. reflexivity.
  - cbn [rstrip] in *. rewrite IH. reflexivity.
Qed.

Lemma rstrip_head (c : ascii) (t : string) :
  isspace c = false -> exists r, rstrip (String c t) = String c r.
Proof.
  intros Hc. cbn [rstrip]. destruct (rstrip t); [rewrite Hc|]; eauto.
Qed.

(** [s.strip().strip() == s.strip()] *)
Lemma strip_idempotent (s : string) : strip (strip s) = strip s.
Proof.
  unfold strip. destruct (lstrip s) as [|c t] eqn:E; [reflexivity|].
  pose proof (lstrip_head s c t E) as Hc.
  destruct (rstrip_head c t Hc) as [r Hr]. rewrite Hr.
  cbn [lstrip]. rewrite Hc, <- Hr. apply rstrip_idempotent.
Qed.

Lemma substring_of_trans (a b c : string) :
  substring_of a b -> substring_of b c -> substring_of a c.
Proof.
  intros [p [q ->]] [p' [q' ->]]. exists (p' +:+ p), (q +:+ q').
  rewrite !app_assoc_str. reflexivity.
Qed.

Lemma has_char_substring (c : ascii) (a b : string) :
  substring_of a b -> has_char c b = false -> has_char c a = false.
Proof.
  intros [p [q ->]]. unfold has_char. rewrite !any_char_app.
  intros H. apply orb_false_elim in H as [_ H]. apply orb_false_elim in H as [H _].
  exact H.
Qed.

Lemma in_firstn {A : Type} (n : nat) (l : list A) (x : A) :
  In x (firstn n l) -> In x l.
Proof.
  revert l. induction n as [|n IH]; intros [|a l] H; cbn [firstn] in H;
    try destruct H as [<- | H]; try (left; reflexivity); try contradiction.
  right. apply IH, H.
Qed.

(** X7: an extracted name is a verbatim piece of the text, taken from a
    single line (it holds no newline) and trimmed (trimming it again changes
    nothing). *)
Theorem name_is_trimmed_piece_of_a_line (text name : string) :
  extract_contact_info text !! "name" = Some (Some name) ->
  substring_of name text
  /\ has_char newline name = false
  /\ strip name = name.
Proof.
  rewrite contact_name. intros H. injection H as H.
  apply find_some in H as [Hin _].
  apply in_map_iff in Hin as [raw [<- Hraw]].
  apply in_firstn in Hraw.
  destruct (split_on_pieces newline text raw Hraw) as [Hnl Hsub].
  split; [|split].
  - apply (substring_of_trans _ raw); [apply strip_substring | exact Hsub].
  - apply (has_char_substring _ _ raw); [apply strip_substring | exact Hnl].
  - apply strip_idempotent.
Qed.

Lemma name_is_trimmed_piece_of_a_line_witness :
  substring_of "John Smith" "  John Smith  "
  /\ has_char newline "John Smith" = false
  /\ strip "John Smith" = "John Smith".
Proof.
  apply (name_is_trimmed_piece_of_a_line "  John Smith  " "John Smith").
  rewrite contact_name. reflexivity.
Defined.

(** ** The entries of the year-year pattern *)

(** Every match [finditer] returns is a match of the pattern at its start. *)
Lemma finditer_from_sound (r : Re.regex) (n : nat) :
  forall (prev : option ascii) (s : string) (m : Re.match_obj),
    In m (Re.finditer_from n r prev s) ->
    exists p, Re.match_at r p (Re.m_from m) = Some m.
Proof.
  induction n as [|n IH]; intros prev s m H; cbn [Re.finditer_from] in H; [contradiction|].
  pose proof (search_from_leftmost r s prev) as L.
  destruct (Re.search_from r prev s) as [m0|]; [|contradiction].
  destruct L as [pre [_ [Hm _]]].
  destruct H as [<- | H]; [eauto|].
  destruct (String.length (Re.m_rest m0) <? String.length (Re.m_from m0))%nat.
  - apply (IH _ _ _ H).
  - destruct (Re.m_rest m0); [contradiction|]. apply (IH _ _ _ H).
Qed.

Lemma take_consumed (l s : string) :
  PyStr.take (String.length (l +:+ s) - String.length s) (l +:+ s) = l.
Proof.
  rewrite length_app.
  replace (String.length l + String.length s - String.length s)%nat
    with (String.length l) by lia.
  apply take_app.
Qed.

Lemma is_year_chars (y : string) :
  is_year y ->
  exists a b c d, y = String a (String b (String c (String d EmptyString)))
    /\ isdecimal a && isdecimal b && isdecimal c && isdecimal d = true.
Proof.
  intros [Hl Hd]. destruct y as [|a [|b [|c [|d [|e y]]]]]; try discriminate Hl.
  exists a, b, c, d. split; [reflexivity|].
  cbn [all_chars] in Hd. rewrite andb_true_r in Hd. rewrite <- !andb_assoc. exact Hd.
Qed.

Lemma year_substrings_year (y t : string) :
  is_year y -> year_substrings (y +:+ t) = y :: year_substrings t.
Proof.
  intros Hy. destruct (is_year_chars y Hy) as (a & b & c & d & -> & E).
  rewrite !app_cons, app_nil_l, year_substrings_step, E. reflexivity.
Qed.

Lemma year_substrings_no_digit (s : string) :
  any_char isdecimal s = false -> year_substrings s = [].
Proof.
  assert (forall n s, (String.length s < n)%nat ->
            any_char isdecimal s = false -> year_substrings s = []) as H.
  { clear s. induction n as [|n IH]; intros s Hn Hs; [lia|].
    destruct s as [|a [|b [|c [|d rest]]]]; try reflexivity.
    rewrite year_substrings_step.
    cbn [any_char] in Hs. apply orb_false_elim in Hs as [Ha Hs].
    rewrite Ha. cbn [andb]. apply IH; [cbn [String.length] in *; lia | exact Hs]. }
  apply (H (S (String.length s))). lia.
Qed.

Lemma tolower_decimal (c : ascii) : isdecimal (tolower c) = isdecimal c.
Proof. ascii_cases c. Qed.

Lemma any_decimal_lower (s : string) :
  any_char isdecimal (lower s) = any_char isdecimal s.
Proof.
  induction s as [|c s IH]; [reflexivity|].
  cbn [lower any_char]. rewrite tolower_decimal, IH. reflexivity.
Qed.

(** The period "<start> - <end>" of a closed range holds exactly the two
    years; that of an open-ended range holds the start year only. *)
Lemma period_years_closed (y0 y1 : string) :
  is_year y0 -> is_year y1 -> year_substrings (y0 +:+ " - " +:+ y1) = [y0; y1].
Proof.
  intros H0 H1. rewrite (year_substrings_year y0 _ H0). f_equal.
  destruct (is_year_chars y1 H1) as (a & b & c & d & -> & E).
  change (" - " +:+ String a (String b (String c (String d EmptyString))))
    with (String " " (String "-" (String " " (String a
           (String b (String c (String d EmptyString))))))).
  rewrite !year_substrings_step. cbn [isdecimal]. rewrite E.
  reflexivity.
Qed.

Lemma period_years_open (y0 w : string) :
  is_year y0 -> any_char isdecimal (lower w) = false ->
  year_substrings (y0 +:+ " - " +:+ w) = [y0].
Proof.
  intros H0 Hw. rewrite (year_substrings_year y0 _ H0). f_equal.
  apply year_substrings_no_digit.
  rewrite any_decimal_lower in Hw. rewrite any_char_app, Hw. reflexivity.
Qed.

(** What the year-year pattern captures. *)
Lemma year_range_groups prev s prev' s' cs' :
  matches year_range_pattern prev s [] prev' s' cs' ->
  exists y0 g2,
    cs' = [(2%nat, g2); (1%nat, y0)] /\ is_year y0
    /\ (is_year g2 \/ lower g2 = "present" \/ lower g2 = "current").
Proof.
  intros M. unfold year_range_pattern, open_end, cat in M.
  cbn [fold_right Re.word_ci] in M.
  invert_matches;
    repeat match goal with
           | H : forall h, Some ?n = Some h -> _ |- _ => specialize (H n eq_refl)
           | H : Ascii.eqb (tolower _) _ = true |- _ => apply Ascii.eqb_eq in H
           end;
    rewrite !take_consumed;
    eexists _, _; (split; [reflexivity|]); (split; [split; [lia | assumption]|]).
  - left. split; [lia | assumption].
  - right. left.
    match goal with
    | |- context [PyStr.take _ (String ?c1 (String ?c2 (String ?c3 (String ?c4
                    (String ?c5 (String ?c6 (String ?c7 ?t)))))))] =>
        change (String c1 (String c2 (String c3 (String c4
                 (String c5 (String c6 (String c7 t)))))))
          with (String c1 (String c2 (String c3 (String c4
                 (String c5 (String c6 (String c7 EmptyString)))))) +:+ t)
    end.
    rewrite take_consumed. cbn [lower].
    repeat match goal with
           | H : tolower _ = _ |- _ => rewrite H; clear H
           end.
    reflexivity.
  - right. right.
    match goal with
    | |- context [PyStr.take _ (String ?c1 (String ?c2 (String ?c3 (String ?c4
                    (String ?c5 (String ?c6 (String ?c7 ?t)))))))] =>
        change (String c1 (String c2 (String c3 (String c4
                 (String c5 (String c6 (String c7 t)))))))
          with (String c1 (String c2 (String c3 (String c4
                 (String c5 (String c6 (String c7 EmptyString)))))) +:+ t)
    end.
    rewrite take_consumed. cbn [lower].
    repeat match goal with
           | H : tolower _ = _ |- _ => rewrite H; clear H
           end.
    reflexivity.
Qed.

Lemma finditer_matches (r : Re.regex) (sentence : string) (m : Re.match_obj) :
  In m (Re.finditer r sentence) ->
  exists p, matches r p (Re.m_from m) [] (Re.m_last m) (Re.m_rest m) (Re.m_caps m).
Proof.
  intros H. apply finditer_from_sound in H as [p H].
  apply match_at_sound in H as [_ M]. eauto.
Qed.

Lemma entry_contribution (sentence : string) (m : Re.match_obj) :
  contribution (entry_of_match sentence m)
  = match year_substrings (Re.group 1 m +:+ " - " +:+ Re.group 2 m) with
    | y0 :: y1 :: _ => (decimal_value y1 - decimal_value y0)%Z
    | _ => 0%Z
    end.
Proof.
  unfold contribution, entry_of_match, exp_entry. rewrite lookup_insert_eq. reflexivity.
Qed.

(** X8: an entry made from a match of the year-year pattern starts with a
    4-digit year.  When its end is a 4-digit year too, the entry adds the
    end year minus the start year to the total; when its end is "present"
    or "current", in any case, the entry adds nothing. *)
Theorem year_range_entry_years (sentence : string) (m : Re.match_obj) :
  In m (Re.finditer year_range_pattern sentence) ->
  is_year (Re.group 1 m)
  /\ ((is_year (Re.group 2 m)
       /\ contribution (entry_of_match sentence m)
          = (decimal_value (Re.group 2 m) - decimal_value (Re.group 1 m))%Z)
      \/ ((lower (Re.group 2 m) = "present" \/ lower (Re.group 2 m) = "current")
          /\ contribution (entry_of_match sentence m) = 0%Z)).
Proof.
  intros H. apply finditer_matches in H as [p M].
  apply year_range_groups in M as (y0 & g2 & Hcs & Hy0 & Hg2).
  rewrite entry_contribution. unfold Re.group. rewrite Hcs. cbn [Re.lookup_group Nat.eqb].
  split; [exact Hy0|].
  destruct Hg2 as [Hy1 | Hopen].
  - left. split; [exact Hy1|]. rewrite (period_years_closed y0 g2 Hy0 Hy1). reflexivity.
  - right. split; [exact Hopen|].
    rewrite (period_years_open y0 g2 Hy0); [reflexivity|].
    destruct Hopen as [-> | ->]; reflexivity.
Qed.

Lemma year_range_entry_years_witness :
  let m := Re.MatchObj "2021–Present at Hooli" " at Hooli" (Some "t"%char)
                       [(2%nat, "Present"); (1%nat, "2021")] in
  is_year (Re.group 1 m)
  /\ ((is_year (Re.group 2 m)
       /\ contribution (entry_of_match "Since 2021–Present at Hooli" m)
          = (decimal_value (Re.group 2 m) - decimal_value (Re.group 1 m))%Z)
      \/ ((lower (Re.group 2 m) = "present" \/ lower (Re.group 2 m) = "current")
          /\ contribution (entry_of_match "Since 2021–Present at Hooli" m) = 0%Z)).
Proof.
  apply (year_range_entry_years "Since 2021–Present at Hooli").
  left. reflexivity.
Defined.

(** ** The entries of the month/year pattern *)

Lemma year_substrings_skip (c : ascii) (t : string) :
  isdecimal c = false -> year_substrings (String c t) = year_substrings t.
Proof.
  intros Hc. destruct t as [|b [|c' [|d rest]]]; try reflexivity.
  rewrite year_substrings_step, Hc. reflexivity.
Qed.

Lemma year_substrings_month_year (g year t : string) :
  is_month_year g year -> year_substrings (g +:+ t) = year :: year_substrings t.
Proof.
  intros (month & -> & Hd & Hl & Hy).
  destruct (is_year_chars year Hy) as (a & b & c & d & -> & E).
  destruct month as [|m1 [|m2 [|m3 month]]]; cbn [String.length] in Hl; try lia.
  - rewrite !app_cons, !app_nil_l, !app_cons, app_nil_l.
    rewrite year_substrings_step.
    replace (isdecimal m1 && isdecimal "/" && isdecimal a && isdecimal b) with false
      by (destruct (isdecimal m1); reflexivity).
    rewrite year_substrings_skip by reflexivity.
    rewrite year_substrings_step, E. reflexivity.
  - rewrite !app_cons, !app_nil_l, !app_cons, app_nil_l.
    rewrite year_substrings_step.
    replace (isdecimal m1 && isdecimal m2 && isdecimal "/" && isdecimal a) with false
      by (destruct (isdecimal m1), (isdecimal m2); reflexivity).
    rewrite year_substrings_step.
    replace (isdecimal m2 && isdecimal "/" && isdecimal a && isdecimal b) with false
      by (destruct (isdecimal m2); reflexivity).
    rewrite year_substrings_skip by reflexivity.
    rewrite year_substrings_step, E. reflexivity.
Qed.

Lemma app_nil_r_str (s : string) : s +:+ EmptyString = s.
Proof. induction s as [|c s IH]; [reflexivity|]. rewrite app_cons, IH. reflexivity. Qed.

Lemma period_month_years_closed (g0 y0 g1 y1 : string) :
  is_month_year g0 y0 -> is_month_year g1 y1 ->
  year_substrings (g0 +:+ " - " +:+ g1) = [y0; y1].
Proof.
  intros H0 H1. rewrite (year_substrings_month_year g0 y0 _ H0). f_equal.
  change (" - " +:+ g1) with (String " " (String "-" (String " " g1))).
  rewrite !year_substrings_skip by reflexivity.
  rewrite <- (app_nil_r_str g1).
  rewrite (year_substrings_month_year g1 y1 EmptyString H1). reflexivity.
Qed.

Lemma period_month_years_open (g0 y0 w : string) :
  is_month_year g0 y0 -> any_char isdecimal (lower w) = false ->
  year_substrings (g0 +:+ " - " +:+ w) = [y0].
Proof.
  intros H0 Hw. rewrite (year_substrings_month_year g0 y0 _ H0). f_equal.
  apply year_substrings_no_digit.
  rewrite any_decimal_lower in Hw. rewrite any_char_app, Hw. reflexivity.
Qed.

Lemma take_consumed_month_year (l1 l2 s : string) (c : ascii) :
  PyStr.take (String.length (l1 +:+ String c (l2 +:+ s)) - String.length s)
             (l1 +:+ String c (l2 +:+ s))
  = l1 +:+ String c EmptyString +:+ l2.
Proof.
  replace (l1 +:+ String c (l2 +:+ s))
    with ((l1 +:+ String c EmptyString +:+ l2) +:+ s)
    by (rewrite !app_assoc_str; reflexivity).
  apply take_consumed.
Qed.

(** What the month/year pattern captures. *)
Lemma month_range_groups prev s prev' s' cs' :
  matches month_range_pattern prev s [] prev' s' cs' ->
  exists g0 y0 g2,
    cs' = [(2%nat, g2); (1%nat, g0)] /\ is_month_year g0 y0
    /\ ((exists y1, is_month_year g2 y1)
        \/ lower g2 = "present" \/ lower g2 = "current").
Proof.
  intros M. unfold month_range_pattern, open_end, cat, Re.lit in M.
  cbn [fold_right Re.word_ci] in M.
  invert_matches;
    repeat match goal with
           | H : forall h, Some ?n = Some h -> _ |- _ => specialize (H n eq_refl)
           | H : Ascii.eqb (tolower _) _ = true |- _ => apply Ascii.eqb_eq in H
           | H : Ascii.eqb "/" _ = true |- _ => apply Ascii.eqb_eq in H; subst
           end;
    rewrite ?take_consumed_month_year.
  - eexists _, _, _. split; [reflexivity|]. split.
    + eexists. split; [reflexivity|]. repeat split; try assumption; lia.
    + left. eexists. eexists. split; [reflexivity|]. repeat split; try assumption; lia.
  - match goal with
    | |- context [PyStr.take _ (String ?c1 (String ?c2 (String ?c3 (String ?c4
                    (String ?c5 (String ?c6 (String ?c7 ?t)))))))] =>
        change (String c1 (String c2 (String c3 (String c4
                 (String c5 (String c6 (String c7 t)))))))
          with (String c1 (String c2 (String c3 (String c4
                 (String c5 (String c6 (String c7 EmptyString)))))) +:+ t)
    end.
    rewrite take_consumed.
    eexists _, _, _. split; [reflexivity|]. split.
    + eexists. split; [reflexivity|]. repeat split; try assumption; lia.
    + right. left. cbn [lower].
      repeat match goal with
             | H : tolower _ = _ |- _ => rewrite H; clear H
             end.
      reflexivity.
  - match goal with
    | |- context [PyStr.take _ (String ?c1 (String ?c2 (String ?c3 (String ?c4
                    (String ?c5 (String ?c6 (String ?c7 ?t)))))))] =>
        change (String c1 (String c2 (String c3 (String c4
                 (String c5 (String c6 (String c7 t)))))))
          with (String c1 (String c2 (String c3 (String c4
                 (String c5 (String c6 (String c7 EmptyString)))))) +:+ t)
    end.
    rewrite take_consumed.
    eexists _, _, _. split; [reflexivity|]. split.
    + eexists. split; [reflexivity|]. repeat split; try assumption; lia.
    + right. right. cbn [lower].
      repeat match goal with
             | H : tolower _ = _ |- _ => rewrite H; clear H
             end.
      reflexivity.
Qed.

(** X9: an entry made from a match of the month/year pattern counts whole
    years only.  When both ends are month/year pairs the entry adds the end
    year minus the start year, whatever the months; when the end is
    "present" or "current", in any case, the entry adds nothing. *)
Theorem month_range_entry_years (sentence : string) (m : Re.match_obj) :
  In m (Re.finditer month_range_pattern sentence) ->
  exists y0,
    is_month_year (Re.group 1 m) y0
    /\ ((exists y1,
           is_month_year (Re.group 2 m) y1
           /\ contribution (entry_of_match sentence m)
              = (decimal_value y1 - decimal_value y0)%Z)
        \/ ((lower (Re.group 2 m) = "present" \/ lower (Re.group 2 m) = "current")
            /\ contribution (entry_of_match sentence m) = 0%Z)).
Proof.
  intros H. apply finditer_matches in H as [p M].
  apply month_range_groups in M as (g0 & y0 & g2 & Hcs & Hg0 & Hg2).
  rewrite entry_contribution. unfold Re.group. rewrite Hcs. cbn [Re.lookup_group Nat.eqb].
  exists y0. split; [exact Hg0|].
  destruct Hg2 as [[y1 Hg1] | Hopen].
  - left. exists y1. split; [exact Hg1|].
    rewrite (period_month_years_closed g0 y0 g2 y1 Hg0 Hg1). reflexivity.
  - right. split; [exact Hopen|].
    rewrite (period_month_years_open g0 y0 g2 Hg0); [reflexivity|].
    destruct Hopen as [-> | ->]; reflexivity.
Qed.

Lemma month_range_entry_years_witness :
  let m := Re.MatchObj "12/2015 – 01/2016" "" (Some "6"%char)
                       [(2%nat, "01/2016"); (1%nat, "12/2015")] in
  exists y0,
    is_month_year (Re.group 1 m) y0
    /\ ((exists y1,
           is_month_year (Re.group 2 m) y1
           /\ contribution (entry_of_match "Intern 12/2015 – 01/2016" m)
              = (decimal_value y1 - decimal_value y0)%Z)
        \/ ((lower (Re.group 2 m) = "present" \/ lower (Re.group 2 m) = "current")
            /\ contribution (entry_of_match "Intern 12/2015 – 01/2016" m) = 0%Z)).
Proof.
  apply (month_range_entry_years "Intern 12/2015 – 01/2016").
  left. reflexivity.
Defined.

(** ** The file extension *)

Lemma split_on_nonempty (sep : ascii) (s : string) : split_on sep s <> [].
Proof.
  destruct s as [|c s]; cbn [split_on]; [discriminate|].
  destruct (Ascii.eqb c sep); [discriminate|].
  destruct (split_on sep s); discriminate.
Qed.

(** [(a + sep + b).split(sep) == a.split(sep) + b.split(sep)] *)
Lemma split_on_app (sep : ascii) (a b : string) :
  split_on sep (a +:+ String sep b) = (split_on sep a ++ split_on sep b)%list.
Proof.
  induction a as [|c a IH].
  - rewrite app_nil_l. cbn [split_on]. rewrite Ascii.eqb_refl. reflexivity.
  - rewrite app_cons. cbn [split_on]. rewrite IH.
    destruct (Ascii.eqb c sep); [reflexivity|].
    pose proof (split_on_nonempty sep a) as Hne.
    destruct (split_on sep a) as [|w ws]; [congruence | reflexivity].
Qed.

Lemma split_on_no_sep (sep : ascii) (s : string) :
  has_char sep s = false -> split_on sep s = [s].
Proof.
  unfold has_char. induction s as [|c s IH]; intros H; [reflexivity|].
  cbn [any_char] in H. apply orb_false_elim in H as [Hc Hs].
  cbn [split_on]. rewrite Ascii.eqb_sym, Hc, (IH Hs). reflexivity.
Qed.

Lemma last_app_cons {A : Type} (l : list A) (x : A) (l' : list A) (d : A) :
  List.last (l ++ x :: l') d = List.last (x :: l') d.
Proof.
  induction l as [|a l IH]; [reflexivity|].
  cbn [app]. rewrite <- IH. destruct (l ++ x :: l')%list eqn:E; [|reflexivity].
  destruct l; discriminate E.
Qed.

Lemma tolower_dot (c : ascii) : Ascii.eqb "." (tolower c) = Ascii.eqb "." c.
Proof. ascii_cases c. Qed.

Lemma lower_has_dot (s : string) : has_char "." (lower s) = has_char "." s.
Proof.
  unfold has_char. induction s as [|c s IH]; [reflexivity|].
  cbn [lower any_char]. rewrite tolower_dot, IH. reflexivity.
Qed.

Lemma last_in {A : Type} (l : list A) (d : A) : l <> [] -> In (List.last l d) l.
Proof.
  induction l as [|a l IH]; [congruence|]. intros _.
  destruct l as [|b l]; [left; reflexivity|].
  right. apply IH. discriminate.
Qed.

Lemma file_extension_after_dot (stem ext : string) :
  has_char "." ext = false -> file_extension (stem +:+ "." +:+ ext) = lower ext.
Proof.
  intros H. unfold file_extension.
  rewrite lower_app. change (lower ("." +:+ ext)) with (String "." (lower ext)).
  rewrite split_on_app.
  rewrite (split_on_no_sep "." (lower ext)) by (rewrite lower_has_dot; exact H).
  apply last_app_cons.
Qed.

(** X10: the extension that selects the decoder is the lowercased text after
    the last "." of the file name, and the whole lowercased name when it
    holds no "."; it never holds a ".". *)
Theorem file_extension_is_lowercased_suffix :
  (forall stem ext,
     has_char "." ext = false ->
     file_extension (stem +:+ "." +:+ ext) = lower ext)
  /\ (forall name, has_char "." name = false -> file_extension name = lower name)
  /\ (forall filename, has_char "." (file_extension filename) = false).
Proof.
  split; [|split].
  - apply file_extension_after_dot.
  - intros name H. unfold file_extension.
    rewrite split_on_no_sep by (rewrite lower_has_dot; exact H). reflexivity.
  - intros filename. unfold file_extension.
    apply (split_on_pieces "." (lower filename)).
    apply last_in, split_on_nonempty.
Qed.

(** ** Decoding and the HTTP handlers *)

Section WebAppFacts.

Variable sent_tokenize : string -> result (list string).
Variable pdf_pages : list Byte.byte -> outcome string (list string).
Variable docx_paragraphs : list Byte.byte -> outcome string (list string).
Variable decode_utf8 : list Byte.byte -> outcome string string.
Variable str_exn : exn -> string.
Variable str_type_error : string.
Variable str_http : nat -> string -> string.
Variable startup_time : string.
Variable db_failure : database -> resume_row -> option (string * database).

Lemma allowed_extension_cases (ext : string) :
  In ext allowed_extensions <-> ext = "pdf" \/ ext = "docx" \/ ext = "txt".
Proof.
  unfold allowed_extensions. cbn [In]. split.
  - intros [<- | [<- | [<- | []]]]; auto.
  - intros [-> | [-> | ->]]; auto.
Qed.

Lemma allowed_extension_test (ext : string) :
  existsb (String.eqb ext) allowed_extensions = true <-> In ext allowed_extensions.
Proof.
  rewrite existsb_exists. split.
  - intros [x [Hin Hx]]. apply String.eqb_eq in Hx as ->. exact Hin.
  - intros Hin. exists ext. split; [exact Hin | apply String.eqb_refl].
Qed.

Lemma process_file_cases (file_content : list Byte.byte) (filename : string) :
  (file_extension filename = "pdf"
   /\ process_file pdf_pages docx_paragraphs decode_utf8 file_content filename
      = extract_text_from_pdf pdf_pages file_content)
  \/ (file_extension filename = "docx"
      /\ process_file pdf_pages docx_paragraphs decode_utf8 file_content filename
         = extract_text_from_docx docx_paragraphs file_content)
  \/ (file_extension filename = "txt"
      /\ process_file pdf_pages docx_paragraphs decode_utf8 file_content filename
         = extract_text_from_txt decode_utf8 file_content)
  \/ (~ In (file_extension filename) allowed_extensions
      /\ process_file pdf_pages docx_paragraphs decode_utf8 file_content filename
         = Throw ("Unsupported file format: " +:+ file_extension filename)).
Proof.
  unfold process_file.
  destruct (String.eqb_spec (file_extension filename) "pdf") as [E1|N1]; [auto|].
  destruct (String.eqb_spec (file_extension filename) "docx") as [E2|N2]; [auto|].
  destruct (String.eqb_spec (file_extension filename) "txt") as [E3|N3]; [auto 6|].
  right. right. right. split; [|reflexivity].
  rewrite allowed_extension_cases. tauto.
Qed.

(** X11: [process_file] reports an unsupported format exactly when the
    extension is none of pdf, docx and txt; otherwise it answers what the
    decoder of that extension answers, so "CV.PDF" goes to the PDF
    decoder. *)
Theorem unsupported_format_iff_unknown_extension
    (file_content : list Byte.byte) (filename : string) :
  (process_file pdf_pages docx_paragraphs decode_utf8 file_content filename
     = Throw ("Unsupported file format: " +:+ file_extension filename)
   <-> ~ In (file_extension filename) allowed_extensions)
  /\ (file_extension filename = "pdf" ->
      process_file pdf_pages docx_paragraphs decode_utf8 file_content filename
      = extract_text_from_pdf pdf_pages file_content)
  /\ (file_extension filename = "docx" ->
      process_file pdf_pages docx_paragraphs decode_utf8 file_content filename
      = extract_text_from_docx docx_paragraphs file_content)
  /\ (file_extension filename = "txt" ->
      process_file pdf_pages docx_paragraphs decode_utf8 file_content filename
      = extract_text_from_txt decode_utf8 file_content)
  /\ (forall stem,
        process_file pdf_pages docx_paragraphs decode_utf8 file_content
                     (stem +:+ ".PDF")
        = extract_text_from_pdf pdf_pages file_content).
Proof.
  split; [|split; [|split; [|split]]].
  - split.
    + intros H Hin.
      destruct (process_file_cases file_content filename)
        as [[E H'] | [[E H'] | [[E H'] | [Hn _]]]]; [| | |exact (Hn Hin)];
        rewrite H' in H; revert H.
      * unfold extract_text_from_pdf. destruct (pdf_pages file_content); discriminate.
      * unfold extract_text_from_docx. destruct (docx_paragraphs file_content); discriminate.
      * unfold extract_text_from_txt. destruct (decode_utf8 file_content); discriminate.
    + intros Hn.
      destruct (process_file_cases file_content filename)
        as [[E _] | [[E _] | [[E _] | [_ H]]]]; [| | |exact H];
        exfalso; apply Hn, allowed_extension_cases; auto.
  - intros E. unfold process_file. rewrite E. reflexivity.
  - intros E. unfold process_file. rewrite E. reflexivity.
  - intros E. unfold process_file. rewrite E. reflexivity.
  - intros stem. unfold process_file.
    assert (file_extension (stem +:+ ".PDF") = "pdf") as ->; [|reflexivity].
    apply (file_extension_after_dot stem "PDF"). reflexivity.
Qed.


Lemma upload_body_cases (filename : string) (file_content : list Byte.byte) :
  match process_file pdf_pages docx_paragraphs decode_utf8 file_content filename with
  | Throw message =>
      upload_body sent_tokenize pdf_pages docx_paragraphs decode_utf8 startup_time
                  filename file_content
      = Throw (ValueErr message)
  | Return text =>
      if String.eqb (strip text) "" then
        upload_body sent_tokenize pdf_pages docx_paragraphs decode_utf8 startup_time
                    filename file_content
        = Throw (HTTPExc 400 "No text found in the uploaded file")
      else
        match sent_tokenize text with
        | Raise e =>
            parse_resume sent_tokenize text = Raise e
            /\ upload_body sent_tokenize pdf_pages docx_paragraphs decode_utf8
                           startup_time filename file_content
               = Throw (CoreErr e)
        | Ok sentences =>
            exists parsed_data experience education,
              parse_resume sent_tokenize text = Ok parsed_data
              /\ extract_experience sent_tokenize text = Ok experience
              /\ extract_education sent_tokenize text = Ok education
              /\ parsed_data
                 = <["contact_info" := VContact (extract_contact_info text)]>
                     (<["skills" := VStrList (extract_skills text)]>
                      (<["experience" := VDictList experience]>
                       (<["education" := VDictList education]>
                        (<["experience_years" :=
                             VInt (calculate_experience_years experience)]> ∅))))
              /\ upload_body sent_tokenize pdf_pages docx_paragraphs decode_utf8
                             startup_time filename file_content
                 = Return (stored_row startup_time filename text parsed_data experience,
                           parsed_data)
        end
  end.
Proof.
  unfold upload_body.
  destruct (process_file pdf_pages docx_paragraphs decode_utf8 file_content filename)
    as [text|message]; cbn [obind]; [|reflexivity].
  destruct (String.eqb (strip text) ""); [reflexivity|].
  destruct (sent_tokenize text) as [sentences|e] eqn:E.
  - destruct (parse_resume_value sent_tokenize text sentences E)
      as (experience & education & He & Hd & Hv).
    eexists _, experience, education.
    split; [exact Hv|]. split; [exact He|]. split; [exact Hd|]. split; [reflexivity|].
    rewrite Hv. cbn [obind]. unfold getitem.
    rewrite lookup_insert_eq. cbn [obind as_contact].
    rewrite contact_name, contact_email, contact_phone. cbn [obind].
    rewrite (lookup_insert_ne _ "contact_info" "skills") by discriminate.
    rewrite lookup_insert_eq. cbn [obind].
    rewrite !(lookup_insert_ne _ _ "experience_years") by discriminate.
    rewrite lookup_insert_eq. cbn [obind years_column].
    unfold stored_row.
    destruct (extract_skills text); reflexivity.
  - rewrite (tokenizer_failure_propagates sent_tokenize text e E). cbn [obind]. auto.
Qed.

(** What a successful upload tells. *)
Lemma upload_resume_returned (filename : string) (file_content : list Byte.byte)
    (db db' : database) (response : resume_response) :
  upload_resume sent_tokenize pdf_pages docx_paragraphs decode_utf8
                str_exn str_type_error str_http startup_time db_failure
                filename file_content db
  = (Return response, db') ->
  In (file_extension filename) allowed_extensions
  /\ exists text experience education,
       process_file pdf_pages docx_paragraphs decode_utf8 file_content filename
       = Return text
       /\ strip text <> EmptyString
       /\ parse_resume sent_tokenize text = Ok (resp_parsed_data response)
       /\ extract_experience sent_tokenize text = Ok experience
       /\ extract_education sent_tokenize text = Ok education
       /\ resp_parsed_data response
          = <["contact_info" := VContact (extract_contact_info text)]>
              (<["skills" := VStrList (extract_skills text)]>
               (<["experience" := VDictList experience]>
                (<["education" := VDictList education]>
                 (<["experience_years" :=
                      VInt (calculate_experience_years experience)]> ∅))))
       /\ db_failure db (stored_row startup_time filename text
                                    (resp_parsed_data response) experience)
          = None
       /\ resp_message response = "Resume uploaded and parsed successfully"
       /\ resp_resume_id response = next_id db
       /\ db' = Database (<[next_id db :=
                              stored_row startup_time filename text
                                         (resp_parsed_data response) experience]>
                            (rows db))
                         (next_id db + 1).
Proof.
  unfold upload_resume.
  destruct (existsb (String.eqb (file_extension filename)) allowed_extensions) eqn:Ea;
    cbn [negb]; [|discriminate].
  pose proof (upload_body_cases filename file_content) as Hb.
  destruct (process_file pdf_pages docx_paragraphs decode_utf8 file_content filename)
    as [text|message]; [|rewrite Hb; discriminate].
  destruct (String.eqb_spec (strip text) "") as [Hblank|Hne]; [rewrite Hb; discriminate|].
  destruct (sent_tokenize text) as [sentences|e].
  - destruct Hb as (parsed_data & experience & education & Hv & He & Hd & Hpd & ->).
    unfold db_add.
    destruct (db_failure db (stored_row startup_time filename text parsed_data experience))
      as [[message db'']|] eqn:Ef; [discriminate|].
    intros H. injection H as <- <-. cbn [resp_parsed_data resp_message resp_resume_id].
    split; [apply allowed_extension_test, Ea|].
    exists text, experience, education. repeat (split; [assumption || reflexivity|]).
    reflexivity.
  - destruct Hb as [_ ->]. discriminate.
Qed.

(** X12: [upload_resume] answers 400 only for a file name whose extension is
    not allowed.  For an allowed extension it answers 500 in four cases:
    the decoder fails; the decoded text is blank, because the 400
    "No text found" raised inside the [try] block is caught by its
    [except Exception]; the sentence tokenizer, and with it [parse_resume],
    raises; the database calls raise.  Otherwise it succeeds with the next
    id and stores the row.  Only a failure of the database calls can leave
    the database changed. *)
Theorem upload_status_codes (filename : string) (file_content : list Byte.byte)
    (db : database) :
  match upload_resume sent_tokenize pdf_pages docx_paragraphs decode_utf8
                      str_exn str_type_error str_http startup_time db_failure
                      filename file_content db with
  | (Throw (status_code, detail), db') =>
      (status_code = 400%nat
       /\ ~ In (file_extension filename) allowed_extensions
       /\ detail = "File type not supported. Allowed types: pdf, docx, txt"
       /\ db' = db)
      \/ (status_code = 500%nat
          /\ In (file_extension filename) allowed_extensions
          /\ ((exists message,
                 process_file pdf_pages docx_paragraphs decode_utf8
                              file_content filename = Throw message
                 /\ detail = "Error processing file: " +:+ message
                 /\ db' = db)
              \/ (exists text,
                    process_file pdf_pages docx_paragraphs decode_utf8
                                 file_content filename = Return text
                    /\ strip text = EmptyString
                    /\ detail = "Error processing file: "
                                +:+ str_http 400 "No text found in the uploaded file"
                    /\ db' = db)
              \/ (exists text e,
                    process_file pdf_pages docx_paragraphs decode_utf8
                                 file_content filename = Return text
                    /\ strip text <> EmptyString
                    /\ sent_tokenize text = Raise e
                    /\ parse_resume sent_tokenize text = Raise e
                    /\ detail = "Error processing file: " +:+ str_exn e
                    /\ db' = db)
              \/ (exists text parsed_data experience message,
                    process_file pdf_pages docx_paragraphs decode_utf8
                                 file_content filename = Return text
                    /\ strip text <> EmptyString
                    /\ parse_resume sent_tokenize text = Ok parsed_data
                    /\ extract_experience sent_tokenize text = Ok experience
                    /\ db_failure db (stored_row startup_time filename text
                                                 parsed_data experience)
                       = Some (message, db')
                    /\ detail = "Error processing file: " +:+ message)))
  | (Return response, db') =>
      In (file_extension filename) allowed_extensions
      /\ exists text experience,
           process_file pdf_pages docx_paragraphs decode_utf8 file_content filename
           = Return text
           /\ strip text <> EmptyString
           /\ parse_resume sent_tokenize text = Ok (resp_parsed_data response)
           /\ extract_experience sent_tokenize text = Ok experience
           /\ db_failure db (stored_row startup_time filename text
                                        (resp_parsed_data response) experience)
              = None
           /\ resp_message response = "Resume uploaded and parsed successfully"
           /\ resp_resume_id response = next_id db
           /\ db' = Database (<[next_id db :=
                                  stored_row startup_time filename text
                                             (resp_parsed_data response) experience]>
                                (rows db))
                             (next_id db + 1)
  end.
Proof.
  destruct (upload_resume sent_tokenize pdf_pages docx_paragraphs decode_utf8
              str_exn str_type_error str_http startup_time db_failure
              filename file_content db) as [[response|[status_code detail]] db'] eqn:Hu.
  - apply upload_resume_returned in Hu
      as (Hext & text & experience & education & Hp & Hne & Hv & He & _ & _ & Hf & Hm
          & Hid & Hdb).
    split; [exact Hext|]. exists text, experience. auto 10.
  - revert Hu. unfold upload_resume.
    destruct (existsb (String.eqb (file_extension filename)) allowed_extensions) eqn:Ea;
      cbn [negb].
    + pose proof (proj1 (allowed_extension_test _) Ea) as Hext.
      pose proof (upload_body_cases filename file_content) as Hb.
      destruct (process_file pdf_pages docx_paragraphs decode_utf8 file_content filename)
        as [text|message] eqn:Hp.
      * destruct (String.eqb_spec (strip text) "") as [Hblank|Hne].
        { rewrite Hb. intros H. injection H as <- <- <-.
          right. split; [reflexivity|]. split; [exact Hext|].
          right. left. exists text. auto. }
        destruct (sent_tokenize text) as [sentences|e] eqn:E.
        -- destruct Hb as (parsed_data & experience & education & Hv & He & Hd & Hpd & ->).
           unfold db_add.
           destruct (db_failure db (stored_row startup_time filename text
                                               parsed_data experience))
             as [[message db'']|] eqn:Ef; [|discriminate].
           intros H. injection H as <- <- <-.
           right. split; [reflexivity|]. split; [exact Hext|].
           right. right. right. exists text, parsed_data, experience, message. auto 10.
        -- destruct Hb as [Hraise ->]. intros H. injection H as <- <- <-.
           right. split; [reflexivity|]. split; [exact Hext|].
           right. right. left. exists text, e. auto 10.
      * rewrite Hb. intros H. injection H as <- <- <-.
        right. split; [reflexivity|]. split; [exact Hext|].
        left. exists message. auto.
    + intros H. injection H as <- <- <-.
      left. split; [reflexivity|]. split; [|auto].
      intros Hin. apply allowed_extension_test in Hin. congruence.
Qed.

Lemma get_stored_row (resume_id : Z) (db : database) (filename text : string)
    (experience education : list (gmap string string)) :
  rows db !! resume_id
  = Some (stored_row startup_time filename text
            (<["contact_info" := VContact (extract_contact_info text)]>
             (<["skills" := VStrList (extract_skills text)]>
              (<["experience" := VDictList experience]>
               (<["education" := VDictList education]>
                (<["experience_years" := VInt (calculate_experience_years experience)]>
                 ∅)))))
            experience) ->
  exists name email phone,
    extract_contact_info text !! "name" = Some name
    /\ extract_contact_info text !! "email" = Some email
    /\ extract_contact_info text !! "phone" = Some phone
    /\ get_resume resume_id db
       = Return (ParsedResume resume_id filename name email phone
                   (VStrList (extract_skills text)) (VDictList experience)
                   (VDictList education)
                   (Some (calculate_experience_years experience)) startup_time).
Proof.
  intros H. eexists _, _, _.
  split; [apply contact_name|]. split; [apply contact_email|].
  split; [apply contact_phone|].
  unfold get_resume. rewrite H. unfold stored_row, get_or_empty_list.
  cbn [row_parsed_data row_filename row_name row_email row_phone
       row_experience_years row_created_at default].
  unfold id.
  rewrite (lookup_insert_ne _ "contact_info" "skills") by discriminate.
  rewrite lookup_insert_eq.
  rewrite !(lookup_insert_ne _ _ "experience") by discriminate.
  rewrite lookup_insert_eq.
  rewrite !(lookup_insert_ne _ _ "education") by discriminate.
  rewrite lookup_insert_eq. reflexivity.
Qed.

(** X13: a resume that was uploaded can be read back.  When an upload into
    a database whose keys are below the next id has succeeded, the file was
    decoded to a text that is not blank and [parse_resume] returned on it;
    [get_resume] with the returned id, an id that was not in use before,
    answers the name, email, phone, skills, experience, education and years
    that [parse_resume] extracted from the decoded text; every other resume
    reads as before. *)
Theorem upload_then_get_round_trip (filename : string) (file_content : list Byte.byte)
    (db db' : database) (response : resume_response) :
  db_wf db ->
  upload_resume sent_tokenize pdf_pages docx_paragraphs decode_utf8
                str_exn str_type_error str_http startup_time db_failure
                filename file_content db
  = (Return response, db') ->
  exists text experience education name email phone,
    process_file pdf_pages docx_paragraphs decode_utf8 file_content filename
    = Return text
    /\ strip text <> EmptyString
    /\ parse_resume sent_tokenize text = Ok (resp_parsed_data response)
    /\ extract_experience sent_tokenize text = Ok experience
    /\ extract_education sent_tokenize text = Ok education
    /\ extract_contact_info text !! "name" = Some name
    /\ extract_contact_info text !! "email" = Some email
    /\ extract_contact_info text !! "phone" = Some phone
    /\ get_resume (resp_resume_id response) db = Throw (404%nat, "Resume not found")
    /\ get_resume (resp_resume_id response) db'
       = Return (ParsedResume (resp_resume_id response) filename name email phone
                   (VStrList (extract_skills text)) (VDictList experience)
                   (VDictList education)
                   (Some (calculate_experience_years experience)) startup_time)
    /\ (forall other, other <> resp_resume_id response ->
          get_resume other db' = get_resume other db)
    /\ db_wf db'.
Proof.
  intros Hwf Hu.
  apply upload_resume_returned in Hu
    as (Hext & text & experience & education & Hp & Hne & Hv & He & Hd & Hpd & Hf & Hm
        & Hid & ->).
  rewrite Hid.
  match goal with
  | |- context [get_resume _ ?d = Return _] => set (db' := d)
  end.
  assert (rows db' !! next_id db
          = Some (stored_row startup_time filename text
                    (resp_parsed_data response) experience))
    as Hrow by apply lookup_insert_eq.
  rewrite Hpd in Hrow at 1.
  destruct (get_stored_row (next_id db) db' filename text experience education Hrow)
    as (name & email & phone & Hn & Hmail & Hph & Hget).
  exists text, experience, education, name, email, phone.
  split; [exact Hp|]. split; [exact Hne|]. split; [exact Hv|]. split; [exact He|].
  split; [exact Hd|]. split; [exact Hn|]. split; [exact Hmail|]. split; [exact Hph|].
  assert (rows db !! next_id db = None) as Hfresh.
  { destruct (rows db !! next_id db) as [row|] eqn:E; [|reflexivity].
    apply Hwf in E. lia. }
  split; [unfold get_resume; rewrite Hfresh; reflexivity|].
  split; [exact Hget|]. split.
  - intros other Hne'. unfold get_resume, db'. cbn [rows].
    rewrite lookup_insert_ne by congruence. reflexivity.
  - intros resume_id row. unfold db'. cbn [rows next_id]. intros H.
    destruct (decide (resume_id = next_id db)) as [->|Hne']; [lia|].
    rewrite lookup_insert_ne in H by congruence. apply Hwf in H. lia.
Qed.

Lemma all_space_lstrip (t : string) : all_chars isspace t = true -> lstrip t = EmptyString.
Proof.
  induction t as [|c t IH]; [reflexivity|]. cbn [all_chars lstrip].
  intros [-> Ht]%andb_prop. apply IH, Ht.
Qed.

Lemma fold_lines_blank (texts : list string) (acc : string) :
  all_chars isspace acc = true ->
  Forall (fun t => all_chars isspace t = true) texts ->
  all_chars isspace
    (fold_left (fun text t => text +:+ t +:+ String newline EmptyString) texts acc)
  = true.
Proof.
  revert acc. induction texts as [|t texts IH]; intros acc Hacc Ht; [exact Hacc|].
  inversion Ht as [|? ? Ht1 Ht2]; subst. cbn [fold_left]. apply IH; [|exact Ht2].
  rewrite !all_chars_app, Hacc, Ht1. reflexivity.
Qed.

Lemma strip_blank (t : string) : all_chars isspace t = true -> strip t = EmptyString.
Proof. intros H. unfold strip. rewrite (all_space_lstrip t H). reflexivity. Qed.

(** X14: a PDF or DOCX document whose pages or paragraphs are all blank, in
    particular one that has none, is answered with status 500 and leaves the
    database as it was. *)
Theorem blank_document_is_a_server_error (filename : string)
    (file_content : list Byte.byte) (db : database) (texts : list string) :
  (file_extension filename = "pdf" /\ pdf_pages file_content = Return texts)
  \/ (file_extension filename = "docx" /\ docx_paragraphs file_content = Return texts) ->
  Forall (fun t => all_chars isspace t = true) texts ->
  upload_resume sent_tokenize pdf_pages docx_paragraphs decode_utf8
                str_exn str_type_error str_http startup_time db_failure
                filename file_content db
  = (Throw (500%nat, "Error processing file: "
                     +:+ str_http 400 "No text found in the uploaded file"), db).
Proof.
  intros Hdoc Hblank.
  assert (process_file pdf_pages docx_paragraphs decode_utf8 file_content filename
          = Return (join_lines texts)) as Hp.
  { unfold process_file.
    destruct Hdoc as [[-> H] | [-> H]]; cbn [String.eqb Ascii.eqb Bool.eqb].
    - unfold extract_text_from_pdf. rewrite H. reflexivity.
    - unfold extract_text_from_docx. rewrite H. reflexivity. }
  assert (existsb (String.eqb (file_extension filename)) allowed_extensions = true) as Ha.
  { destruct Hdoc as [[-> _] | [-> _]]; reflexivity. }
  unfold upload_resume, upload_body. rewrite Ha, Hp. cbn [negb obind].
  unfold join_lines.
  rewrite (strip_blank _ (fold_lines_blank texts EmptyString eq_refl Hblank)).
  reflexivity.
Qed.

End WebAppFacts.

(** X15: deleting a resume makes its id unknown and touches nothing else;
    deleting an unknown id is answered with 404 and changes nothing. *)
Theorem delete_then_get (resume_id : Z) (db : database) :
  match delete_resume resume_id db with
  | (Return message, db') =>
      (exists found, get_resume resume_id db = Return found)
      /\ get_resume resume_id db' = Throw (404%nat, "Resume not found")
      /\ (forall other, other <> resume_id ->
            get_resume other db' = get_resume other db)
      /\ next_id db' = next_id db
  | (Throw (status_code, detail), db') =>
      status_code = 404%nat /\ db' = db
      /\ get_resume resume_id db = Throw (404%nat, "Resume not found")
  end.
Proof.
  unfold delete_resume, get_resume.
  destruct (rows db !! resume_id) as [row|] eqn:E.
  - cbn [rows next_id]. split; [eauto|]. split.
    + rewrite lookup_delete_eq. reflexivity.
    + split; [|reflexivity]. intros other Hne.
      rewrite lookup_delete_ne by congruence. reflexivity.
  - auto.
Qed.

Lemma upload_then_get_round_trip_witness :
  let tok := fun t : string => Ok [t] in
  let unreadable := fun _ : list Byte.byte => @Throw string (list string) "unreadable" in
  let utf8 := fun _ : list Byte.byte => @Return string string "Jane Roe" in
  let silent := fun _ : exn => EmptyString in
  let http := fun (_ : nat) (detail : string) => detail in
  let reliable := fun (_ : database) (_ : resume_row) => @None (string * database) in
  let db := Database ∅ 1 in
  exists response db',
    upload_resume tok unreadable unreadable utf8 silent "" http "startup" reliable
                  "cv.txt" [] db
    = (Return response, db')
    /\ resp_resume_id response = 1%Z
    /\ exists text experience education name email phone,
         process_file unreadable unreadable utf8 [] "cv.txt" = Return text
         /\ strip text <> EmptyString
         /\ parse_resume tok text = Ok (resp_parsed_data response)
         /\ extract_experience tok text = Ok experience
         /\ extract_education tok text = Ok education
         /\ extract_contact_info text !! "name" = Some name
         /\ extract_contact_info text !! "email" = Some email
         /\ extract_contact_info text !! "phone" = Some phone
         /\ get_resume (resp_resume_id response) db
            = Throw (404%nat, "Resume not found")
         /\ get_resume (resp_resume_id response) db'
            = Return (ParsedResume (resp_resume_id response) "cv.txt" name email phone
                        (VStrList (extract_skills text)) (VDictList experience)
                        (VDictList education)
                        (Some (calculate_experience_years experience)) "startup")
         /\ (forall other, other <> resp_resume_id response ->
               get_resume other db' = get_resume other db)
         /\ db_wf db'.
Proof.
  intros tok unreadable utf8 silent http reliable db.
  assert (db_wf db) as Hwf.
  { intros resume_id row H. unfold db in H. cbn [rows] in H.
    rewrite lookup_empty in H. discriminate H. }
  destruct (upload_resume tok unreadable unreadable utf8 silent "" http "startup"
              reliable "cv.txt" [] db) as [[response|failure] db'] eqn:Hu.
  - exists response, db'. split; [reflexivity|]. split.
    + vm_compute in Hu. injection Hu as <- _. reflexivity.
    + exact (upload_then_get_round_trip tok unreadable unreadable utf8 silent "" http
               "startup" reliable "cv.txt" [] db db' response Hwf Hu).
  - vm_compute in Hu. discriminate Hu.
Defined.

Lemma blank_document_is_a_server_error_witness :
  let tok := fun t : string => Ok [t] in
  let no_pages := fun _ : list Byte.byte => @Return string (list string) [] in
  let utf8 := fun _ : list Byte.byte => @Return string string "Jane Roe" in
  let silent := fun _ : exn => EmptyString in
  let http := fun (_ : nat) (detail : string) => detail in
  let reliable := fun (_ : database) (_ : resume_row) => @None (string * database) in
  let db := Database ∅ 1 in
  upload_resume tok no_pages no_pages utf8 silent "" http "startup" reliable
                "empty.pdf" [] db
  = (Throw (500%nat, "Error processing file: "
                     +:+ http 400%nat "No text found in the uploaded file"), db).
Proof.
  intros tok no_pages utf8 silent http reliable db.
  apply (blank_document_is_a_server_error tok no_pages no_pages utf8 silent "" http
           "startup" reliable "empty.pdf" [] db []).
  - left. split; reflexivity.
  - constructor.
Defined.
